(** * django2jinja: the node-translation engine of [django2jinja.py]

    A shallow embedding of the [Writer] class, of the node handlers
    registered in [_node_handlers] and of the two functions local to
    [convert_templates], and the properties of the specification and of
    the code that are stated about them.

    Conventions of the embedding.
    - A Python [str] is a [string]; every [ascii] stands for one code
      point below 256.
    - A Python [int] is a [Z].
    - The output stream is the text written so far; the error stream is
      the list of messages printed so far, one per call of [print].
    - A call that raises ends in [Raise], which keeps the writer as it
      was when the exception left the function: nothing in the module
      catches an exception or restores state on the way out. *)

From Stdlib Require Import ZArith String Ascii List Bool Lia.
From stdpp Require Import base strings list gmap pretty.

Local Open Scope Z_scope.

(** ** Python built-ins the module relies on *)

Module Py.

Definition dquote : ascii := "034"%char.
Definition squote : ascii := "'"%char.
Definition backslash : ascii := "\"%char.
Definition TAB : ascii := "009"%char.
Definition LF : ascii := "010"%char.
Definition CR : ascii := "013"%char.

Definition str1 (c : ascii) : string := String c EmptyString.

(** [s.startswith(p)] *)
Definition startswith (s p : string) : bool := String.prefix p s.

(** [s[n:]] for [n >= 0] *)
Fixpoint slice_from (n : nat) (s : string) : string :=
  match n, s with
  | O, _ => s
  | S n', String _ r => slice_from n' r
  | S _, EmptyString => EmptyString
  end.

(** [s[:n]] for [n >= 0] *)
Fixpoint slice_to_nat (n : nat) (s : string) : string :=
  match n, s with
  | S n', String c r => String c (slice_to_nat n' r)
  | _, _ => EmptyString
  end.

(** [s[:p]] for any [int]: a negative bound counts from the end. *)
Definition slice_to (p : Z) (s : string) : string :=
  if 0 <=? p then slice_to_nat (Z.to_nat p) s
  else slice_to_nat (Z.to_nat (Z.of_nat (String.length s) + p)) s.

(** [c in s] for a one-character [c] *)
Fixpoint contains_char (c : ascii) (s : string) : bool :=
  match s with
  | EmptyString => false
  | String d r => Ascii.eqb c d || contains_char c r
  end.

(** [s.replace(a, b)] for one-character [a] and [b] *)
Fixpoint replace_char (a b : ascii) (s : string) : string :=
  match s with
  | EmptyString => EmptyString
  | String c r => String (if Ascii.eqb c a then b else c) (replace_char a b r)
  end.

Fixpoint lstrip_by (p : ascii -> bool) (s : string) : string :=
  match s with
  | EmptyString => EmptyString
  | String c r => if p c then lstrip_by p r else s
  end.

Fixpoint rstrip_by (p : ascii -> bool) (s : string) : string :=
  match s with
  | EmptyString => EmptyString
  | String c r =>
      match rstrip_by p r with
      | EmptyString => if p c then EmptyString else str1 c
      | r' => String c r'
      end
  end.

(** [str.isspace] on the code points below 256 *)
Definition isspace (c : ascii) : bool :=
  let n := N_of_ascii c in
  ((9 <=? n) && (n <=? 13) || (28 <=? n) && (n <=? 32)
   || (n =? 133) || (n =? 160))%N.

(** [s.lstrip()], [s.rstrip()], [s.rstrip(c)] *)
Definition lstrip (s : string) : string := lstrip_by isspace s.
Definition rstrip (s : string) : string := rstrip_by isspace s.
Definition rstrip_char (c : ascii) (s : string) : string :=
  rstrip_by (Ascii.eqb c) s.

(** [str(n)] and ['%d' % n] *)
Definition str_int (n : Z) : string := pretty n.

Definition hex_digit (n : N) : ascii :=
  match String.get (N.to_nat n) "0123456789abcdef" with
  | Some c => c
  | None => "0"%char
  end.

Definition hex_escape (n : N) : string :=
  String backslash
    (String "x" (String (hex_digit (n / 16)) (str1 (hex_digit (n mod 16)))))%N.

(** One character of [repr(s)], [q] being the quote chosen for [s]. *)
Definition repr_char (q c : ascii) : string :=
  let n := N_of_ascii c in
  if Ascii.eqb c q || Ascii.eqb c backslash then String backslash (str1 c)
  else if Ascii.eqb c TAB then String backslash "t"
  else if Ascii.eqb c LF then String backslash "n"
  else if Ascii.eqb c CR then String backslash "r"
  else if ((n <? 32) || (n =? 127))%N then hex_escape n
  else if (n <? 127)%N then str1 c
  else if ((n <=? 160) || (n =? 173))%N then hex_escape n
  else str1 c.

Fixpoint repr_body (q : ascii) (s : string) : string :=
  match s with
  | EmptyString => EmptyString
  | String c r => repr_char q c +:+ repr_body q r
  end.

(** [repr(s)] of a [str]: single quotes, unless the text holds a single
    quote and no double quote. *)
Definition repr_str (s : string) : string :=
  let q := if contains_char squote s && negb (contains_char dquote s)
           then dquote else squote in
  str1 q +:+ repr_body q s +:+ str1 q.

(** [len(_newline_re.findall(s))] for [_newline_re = (?:\r\n|\r|\n)]. *)
Fixpoint count_newlines (s : string) : Z :=
  match s with
  | EmptyString => 0
  | String c r =>
      if Ascii.eqb c CR then
        match r with
        | String d r' =>
            if Ascii.eqb d LF then 1 + count_newlines r'
            else 1 + count_newlines r
        | EmptyString => 1
        end
      else if Ascii.eqb c LF then 1 + count_newlines r
      else count_newlines r
  end.

(** [s.endswith(suffix)]: one of the suffixes of [s] is [suffix]. *)
Fixpoint endswith (s suffix : string) : bool :=
  String.eqb s suffix ||
  match s with
  | EmptyString => false
  | String _ r => endswith r suffix
  end.

(** [s.lower()] on the code points below 256: the letters [A] to [Z] and
    the capital letters of Latin-1, from 192 to 222 without the
    multiplication sign 215, move up by 32. *)
Definition lower_char (c : ascii) : ascii :=
  let n := N_of_ascii c in
  if ((65 <=? n) && (n <=? 90)
      || (192 <=? n) && (n <=? 222) && negb (n =? 215))%N
  then ascii_of_N (n + 32) else c.

Fixpoint lower (s : string) : string :=
  match s with
  | EmptyString => EmptyString
  | String c r => String (lower_char c) (lower r)
  end.

End Py.

(** ** Collaborators outside the module *)

(** A compiled regular expression, as [translate_variable_name] uses it:
    [reg.search(var)] read as a truth value, and [reg.sub(rep, var)], which
    is [None] when the call raises [re.error], as it does for a replacement
    that names a group the pattern does not have. *)
Record Pattern := {
  search : string -> bool;
  sub : string -> string -> option string
}.

(** [re.compile(needle)] for a [needle] without metacharacters, used with a
    replacement text without backslashes: [search] looks for the needle,
    [sub] replaces its occurrences from the left, without overlap, and does
    not raise. *)
Fixpoint literal_search (needle s : string) : bool :=
  String.prefix needle s ||
  match s with
  | EmptyString => false
  | String _ r => literal_search needle r
  end.

Fixpoint literal_sub (needle rep : string) (skip : nat) (s : string) : string :=
  match s with
  | EmptyString =>
      match needle with EmptyString => rep | _ => EmptyString end
  | String c r =>
      match skip with
      | S k => literal_sub needle rep k r
      | O =>
          if String.prefix needle s then
            match needle with
            | EmptyString => rep +:+ String c (literal_sub needle rep O r)
            | String _ tl => rep +:+ literal_sub needle rep (String.length tl) r
            end
          else String c (literal_sub needle rep O r)
      end
  end.

Definition literal_pattern (needle : string) : Pattern :=
  {| search := literal_search needle;
     sub := fun rep s => Some (literal_sub needle rep O s) |}.

(** The Jinja side: the default delimiters of [jinja2.defaults] and the
    two registries of an [Environment] that the writer consults. *)
Module Jinja.

(** Modelled from the spec: [jinja2.defaults] is imported, not part of the
    sources; the spec gives the delimiter shapes of the statement tags,
    the expressions and the comments. *)
Definition BLOCK_START_STRING : string := "{%".
Definition BLOCK_END_STRING : string := "%}".
Definition VARIABLE_START_STRING : string := "{{".
Definition VARIABLE_END_STRING : string := "}}".
Definition COMMENT_START_STRING : string := "{#".
Definition COMMENT_END_STRING : string := "#}".

Record Environment := {
  filters : gset string;
  globals : gset string
}.

End Jinja.

(** A value a Django literal resolves to. *)
Inductive pyvalue :=
| PyStr (s : string)
| PyInt (n : Z).

Definition truthy (v : pyvalue) : bool :=
  match v with
  | PyStr s => negb (String.eqb s "")
  | PyInt n => negb (n =? 0)
  end.

(** [repr(value)] *)
Definition repr (v : pyvalue) : string :=
  match v with
  | PyStr s => Py.repr_str s
  | PyInt n => Py.str_int n
  end.

(** The origin of a node: either it carries its text ([origin.source]), or
    the text comes from [origin.loader(origin.loadname, origin.dirs)[0]],
    here [loaded]. *)
Inductive Origin :=
| StringOrigin (source : string)
| LoaderOrigin (loadname : string) (loaded : string).

(** [node.source]: the origin and the pair of offsets. *)
Definition Source : Type := Origin * (Z * Z).

(** A function or a class, as far as the module looks at it. *)
Record Named := {
  __module__ : string;
  __name__ : string
}.

(** A template library: [library.tags.items()]. *)
Definition Library : Type := list (string * Named).

(** One entry of [var_re]: [(reg, rep, unless)]. *)
Definition Rule : Type := Pattern * string * option Pattern.

(** The exceptions that leave the module; [ReError] is [re.error]. *)
Inductive exn :=
| AttributeError
| NameError
| TypeError
| IndexError
| ReError.

(** Ghost history of the loop depth: not read by any handler. *)
Inductive loop_event := Enter | Leave.

(** ** The parsed template: the attributes the handlers read *)

(** The induction principles of the nested types below range over the
    elements of the lists, options and pairs inside them. *)
Scheme All for list.
Scheme All for option.
Scheme All for prod.

(** [django.template.base.Variable] *)
Module Var.
Record t := {
  var : string;
  literal : option pyvalue;
  translate : bool
}.
End Var.

(** A filter function; [_filter_name] is the attribute Django attaches. *)
Record FilterFunc := {
  _filter_name : option string
}.

(** One argument of a filter, the pair [(is_var, value)]:
    [(True, Variable)] or [(False, constant)]. *)
Inductive FilterArg :=
| ArgVar (value : Var.t)
| ArgConst (value : pyvalue).

(** [FilterExpression.var]: a [Variable], or the value a constant resolves
    to: a text marked safe ([SafeData]); a number or [None], which have no
    [__module__]; or, for a translated constant, the lazy proxy that
    [ugettext_lazy] returns, an object of the class [lazy_proxy] that has
    none of the attributes the handlers read. *)
Inductive FEVar :=
| FVariable (v : Var.t)
| FSafe (s : string)
| FOther (c : option pyvalue)
| FLazy.

Definition lazy_proxy : Named :=
  {| __module__ := "django.utils.functional"; __name__ := "__proxy__" |}.

(** [django.template.base.FilterExpression] *)
Module FilterExpression.
Record t := {
  token : string;
  var : FEVar;
  filters : list (FilterFunc * list FilterArg)
}.
End FilterExpression.

(** [django.template.smartif]: a [Literal] holds a value, an operator its
    [id], its [first] operand and, unless it is a prefix operator, a
    [second] one. *)
Inductive condition :=
| Literal (value : FilterExpression.t)
| Operator (id : string) (first : condition) (second : option condition).

(** A token of a [blocktrans] body. *)
Inductive Token :=
| TOKEN_TEXT (contents : string)
| TOKEN_VAR (contents : string)
| TOKEN_OTHER (contents : string).

(** One of the values given to the constructor of a [CycleNode]: a text,
    with the [Variable] that [Variable(text)] builds, or a
    [FilterExpression], which is what the [cycle] tag of Django hands over
    and which [Variable] refuses. *)
Inductive cyclevar :=
| CycleText (variable : Var.t)
| CycleExpression (expression : FilterExpression.t).

(** The nodes. [Foreign] is a node of a class the module does not know.

    [_fixed_cycle_init] stores [map(Variable, cyclevars)] on a [CycleNode]
    as [raw_cycle_vars]: an iterator that applies [Variable] to a value when
    it is asked for the next one, and that can be read once. The node keeps
    [cyclevars], the values given to its constructor, and [this], the
    identity of the node; how far the iterator of a node has been read is
    part of the state, under [this].

    [max_width] of a [WidthRatioNode] is [Some n] for a value that [int]
    turns into [n], and [None] for one that [int] refuses, a
    [FilterExpression].

    [value] of a [TranslateNode] is [None] for a node without that
    attribute, as the [TranslateNode] of the versions of Django the module
    can import, which keeps a [filter_expression] instead. The values of the
    [extra_context] of a [BlockTranslateNode] are the attribute
    [filter_expression] of each bound value, [None] for a value without that
    attribute, as the [FilterExpression] these versions of Django bind. *)
Inductive node :=
| TextNode (s : string)
| VariableNode (filter_expression : FilterExpression.t)
| CommentNode
| DebugNode (source : option Source)
| ForNode (loopvars : list string) (is_reversed : bool)
    (sequence : FilterExpression.t) (nodelist_loop nodelist_empty : list node)
| IfNode (conditions_nodelists : list (option condition * list node))
| IfEqualNode (var1 var2 : FilterExpression.t)
    (nodelist_true nodelist_false : list node) (negate : bool)
| BlockNode (name : string) (nodelist : list node) (parent : option node)
| ExtendsNode (parent_name : FilterExpression.t) (nodelist : list node)
| IncludeNode (template : FilterExpression.t)
| CycleNode (variable_name : option string) (cyclevars : list cyclevar)
    (source : option Source) (this : positive)
| FilterNode (filter_expr : FilterExpression.t) (nodelist : list node)
| AutoEscapeControlNode (setting : bool) (nodelist : list node)
| SpacelessNode (nodelist : list node) (source : option Source)
| TemplateTagNode (tagtype : string)
| URLNode (view_name : FilterExpression.t) (args : list FilterExpression.t)
    (kwargs : list (string * FilterExpression.t)) (asvar : option string)
| WidthRatioNode (val_expr max_expr : FilterExpression.t)
    (max_width : option Z) (source : option Source)
| WithNode (extra_context : list (string * FilterExpression.t))
    (nodelist : list node)
| RegroupNode (target expression : FilterExpression.t) (var_name : string)
    (source : option Source)
| LoadNode
| GetAvailableLanguagesNode (variable : string) (source : option Source)
| GetCurrentLanguageNode (variable : string) (source : option Source)
| GetCurrentLanguageBidiNode (variable : string) (source : option Source)
| TranslateNode (value : option Var.t) (source : option Source)
| BlockTranslateNode (extra_context : list (string * option FilterExpression.t))
    (singular plural : list Token) (countervar : option string)
    (counter : option FilterExpression.t) (source : option Source)
| SimpleNode (func : Named) (args : list FilterExpression.t)
    (kwargs : list (string * FilterExpression.t)) (target_var : option string)
| InclusionNode (func : Named) (args : list FilterExpression.t)
    (kwargs : list (string * FilterExpression.t))
| StaticNode (varname : option string) (path : FilterExpression.t)
| CsrfTokenNode
| VerbatimNode (content : string)
| LoremNode (count : FilterExpression.t) (method : string)
| Foreign (cls : Named) (source : option Source).

(** [str(x)] of an optional text: [None] prints as its name. *)
Definition str_opt (o : option string) : string :=
  match o with Some s => s | None => "None" end.

(** The truth value of an optional text: [None] and the empty text are
    false. *)
Definition truthy_opt (o : option string) : bool :=
  match o with Some s => negb (String.eqb s "") | None => false end.

(** ** The writer *)

Declare Scope writer_scope.
Delimit Scope writer_scope with W.

Module Writer.

(** The attributes set by [Writer.__init__], followed by what the methods
    and the handlers read and change outside the writer: the module-level
    [_resolved_simple_tags]; the tag libraries of the Django engine,
    [engines['django'].engine.template_libraries]; and [cycle_iterators],
    the number of values each cycle node has been asked for through its
    [raw_cycle_vars], by the identity of the node (a node that is not in the
    map has not been asked). The last field is the ghost history of
    [enter_loop] and [leave_loop]. [node_handlers] is [_node_handlers], the
    writer being built without [custom_node_handlers]. *)
Record t := mk {
  stream : string;
  error_stream : list string;
  block_start_string : string;
  block_end_string : string;
  variable_start_string : string;
  variable_end_string : string;
  comment_start_string : string;
  comment_end_string : string;
  autoescape : bool;
  spaceless : bool;
  use_jinja_autoescape : bool;
  _loop_depth : Z;
  var_re : list Rule;
  env : option Jinja.Environment;
  _resolved_simple_tags : option (gmap string string);
  template_libraries : list Library;
  cycle_iterators : gmap positive nat;
  loop_events : list loop_event
}.

Definition set_stream (x : string) (w : t) : t :=
  mk x (error_stream w) (block_start_string w) (block_end_string w)
    (variable_start_string w) (variable_end_string w)
    (comment_start_string w) (comment_end_string w) (autoescape w)
    (spaceless w) (use_jinja_autoescape w) (_loop_depth w) (var_re w) (env w)
    (_resolved_simple_tags w) (template_libraries w) (cycle_iterators w)
    (loop_events w).

Definition set_error_stream (x : list string) (w : t) : t :=
  mk (stream w) x (block_start_string w) (block_end_string w)
    (variable_start_string w) (variable_end_string w)
    (comment_start_string w) (comment_end_string w) (autoescape w)
    (spaceless w) (use_jinja_autoescape w) (_loop_depth w) (var_re w) (env w)
    (_resolved_simple_tags w) (template_libraries w) (cycle_iterators w)
    (loop_events w).

Definition set_autoescape (x : bool) (w : t) : t :=
  mk (stream w) (error_stream w) (block_start_string w) (block_end_string w)
    (variable_start_string w) (variable_end_string w)
    (comment_start_string w) (comment_end_string w) x
    (spaceless w) (use_jinja_autoescape w) (_loop_depth w) (var_re w) (env w)
    (_resolved_simple_tags w) (template_libraries w) (cycle_iterators w)
    (loop_events w).

Definition set_spaceless (x : bool) (w : t) : t :=
  mk (stream w) (error_stream w) (block_start_string w) (block_end_string w)
    (variable_start_string w) (variable_end_string w)
    (comment_start_string w) (comment_end_string w) (autoescape w)
    x (use_jinja_autoescape w) (_loop_depth w) (var_re w) (env w)
    (_resolved_simple_tags w) (template_libraries w) (cycle_iterators w)
    (loop_events w).

(** The counter and its history move together. *)
Definition set_loop_depth (x : Z) (e : loop_event) (w : t) : t :=
  mk (stream w) (error_stream w) (block_start_string w) (block_end_string w)
    (variable_start_string w) (variable_end_string w)
    (comment_start_string w) (comment_end_string w) (autoescape w)
    (spaceless w) (use_jinja_autoescape w) x (var_re w) (env w)
    (_resolved_simple_tags w) (template_libraries w) (cycle_iterators w)
    (loop_events w ++ [e]).

Definition set_resolved_simple_tags (x : option (gmap string string)) (w : t) : t :=
  mk (stream w) (error_stream w) (block_start_string w) (block_end_string w)
    (variable_start_string w) (variable_end_string w)
    (comment_start_string w) (comment_end_string w) (autoescape w)
    (spaceless w) (use_jinja_autoescape w) (_loop_depth w) (var_re w) (env w)
    x (template_libraries w) (cycle_iterators w) (loop_events w).

Definition set_cycle_iterators (x : gmap positive nat) (w : t) : t :=
  mk (stream w) (error_stream w) (block_start_string w) (block_end_string w)
    (variable_start_string w) (variable_end_string w)
    (comment_start_string w) (comment_end_string w) (autoescape w)
    (spaceless w) (use_jinja_autoescape w) (_loop_depth w) (var_re w) (env w)
    (_resolved_simple_tags w) (template_libraries w) x (loop_events w).

(** [Writer.__init__], the streams being empty at the start. The method
    sets the attributes of the writer and touches nothing else: the last
    three arguments are what the writer finds around it when it is built,
    the module-level table, the libraries of the engine and the iterators of
    the cycle nodes. *)
Definition __init__
    (block_start_string block_end_string : string)
    (variable_start_string variable_end_string : string)
    (comment_start_string comment_end_string : string)
    (initial_autoescape use_jinja_autoescape : bool)
    (var_re : option (list Rule)) (env : option Jinja.Environment)
    (_resolved_simple_tags : option (gmap string string))
    (libraries : list Library) (cycle_iterators : gmap positive nat) : t :=
  mk "" [] block_start_string block_end_string
    variable_start_string variable_end_string
    comment_start_string comment_end_string
    initial_autoescape false use_jinja_autoescape 0
    (match var_re with Some l => l | None => [] end) env
    _resolved_simple_tags libraries cycle_iterators [].

(** [Writer()], built when the module has just been loaded
    ([_resolved_simple_tags = None]), with an engine without libraries and
    before any cycle node has been read. *)
Definition default : t :=
  __init__ Jinja.BLOCK_START_STRING Jinja.BLOCK_END_STRING
    Jinja.VARIABLE_START_STRING Jinja.VARIABLE_END_STRING
    Jinja.COMMENT_START_STRING Jinja.COMMENT_END_STRING
    true false None None None [] ∅.

(** *** Calls: a result or an exception, and the writer afterwards *)

Inductive result (A : Type) :=
| Ok (a : A) (w : t)
| Raise (e : exn) (w : t).

Arguments Ok {A} a w.
Arguments Raise {A} e w.

Definition M (A : Type) : Type := t -> result A.

Definition ret {A} (a : A) : M A := fun w => Ok a w.

Definition bind {A B} (m : M A) (f : A -> M B) : M B :=
  fun w =>
    match m w with
    | Ok a w' => f a w'
    | Raise e w' => Raise e w'
    end.

Definition raise {A} (e : exn) : M A := fun w => Raise e w.

(** [self.x] *)
Definition attr {A} (f : t -> A) : M A := fun w => Ok (f w) w.

(** [self.x = v] *)
Definition assign (f : t -> t) : M unit := fun w => Ok tt (f w).

Definition state_of {A} (r : result A) : t :=
  match r with Ok _ w => w | Raise _ w => w end.

Notation "x ← y ; z" := (bind y (fun x => z))
  (at level 20, y at level 100, z at level 200, only parsing) : writer_scope.
Notation "x ;; z" := (bind x (fun _ => z))
  (at level 100, z at level 200, only parsing, right associativity) : writer_scope.

Local Open Scope writer_scope.

(** [for x in l: f(x)] *)
Definition for_each {A} (f : A -> M unit) : list A -> M unit :=
  fix loop (l : list A) : M unit :=
    match l with
    | [] => ret tt
    | x :: rest => f x ;; loop rest
    end.

(** [for idx, x in enumerate(l): f(idx, x)], counting from [idx]. *)
Definition for_enumerate_from {A} (f : nat -> A -> M unit) : nat -> list A -> M unit :=
  fix loop (idx : nat) (l : list A) : M unit :=
    match l with
    | [] => ret tt
    | x :: rest => f idx x ;; loop (S idx) rest
    end.

Definition for_enumerate {A} (f : nat -> A -> M unit) (l : list A) : M unit :=
  for_enumerate_from f O l.

(** [if c: m] *)
Definition when (c : bool) (m : M unit) : M unit :=
  if c then m else ret tt.

(** *** The methods that do not dispatch on a node *)

Definition enter_loop : M unit :=
  assign (fun w => set_loop_depth (_loop_depth w + 1) Enter w).

Definition leave_loop : M unit :=
  assign (fun w => set_loop_depth (_loop_depth w - 1) Leave w).

Definition in_loop : M bool :=
  attr (fun w => 0 <? _loop_depth w).

Definition write (s : string) : M unit :=
  assign (fun w => set_stream (stream w +:+ s) w).

Definition _post_open : M unit :=
  spaceless ← attr spaceless;
  if spaceless then write "- " else write " ".

Definition _pre_close : M unit :=
  spaceless ← attr spaceless;
  if spaceless then write " -" else write " ".

Definition start_variable : M unit :=
  s ← attr variable_start_string; write s ;;
  _post_open.

Definition end_variable (always_safe : bool) : M unit :=
  autoescape ← attr autoescape;
  use_jinja_autoescape ← attr use_jinja_autoescape;
  when (negb always_safe && autoescape && negb use_jinja_autoescape)
    (write "|e") ;;
  _pre_close ;;
  s ← attr variable_end_string; write s.

Definition print_expr (expr : string) : M unit :=
  start_variable ;;
  write expr ;;
  end_variable false.

Definition start_block : M unit :=
  s ← attr block_start_string; write s ;;
  _post_open.

Definition end_block : M unit :=
  _pre_close ;;
  s ← attr block_end_string; write s.

Definition tag (name : string) : M unit :=
  start_block ;;
  write name ;;
  end_block.

Definition get_location (origin : Origin) (position : Z * Z) : string * Z :=
  let '(source, name) :=
    match origin with
    | StringOrigin source => (source, "<unknown source>")
    | LoaderOrigin loadname loaded => (loaded, loadname)
    end in
  let lineno := Py.count_newlines (Py.slice_to (fst position) source) + 1 in
  (name, lineno).

(** [warn(message, node)]: [source] is [node.source] when a node is given
    and has that attribute. *)
Definition warn (message : string) (source : option Source) : M unit :=
  let message :=
    match source with
    | Some (origin, position) =>
        let '(filename, lineno) := get_location origin position in
        "[" +:+ filename +:+ ":" +:+ Py.str_int lineno +:+ "] " +:+ message
    | None => message
    end in
  assign (fun w => set_error_stream (error_stream w ++ [message]) w).

(** The loop of [translate_variable_name] over [var_re], up to its
    [break]: the value of [var] after it, or [None] when [reg.sub] raises. *)
Fixpoint translate_rules (rules : list Rule) (var : string) : option string :=
  match rules with
  | [] => Some var
  | (reg, rep, unless) :: rest =>
      let no_unless :=
        (match unless with Some u => search u var | None => false end)
        || true in
      if search reg var && no_unless then sub reg rep var
      else translate_rules rest var
  end.

Definition translate_variable_name (var : string) : M string :=
  in_loop ← in_loop;
  let var :=
    if (in_loop && String.eqb var "forloop") || Py.startswith var "forloop."
    then Py.slice_from 3 var else var in
  rules ← attr var_re;
  match translate_rules rules var with
  | Some var => ret var
  | None => raise ReError
  end.

Definition variable (name : string) : M unit :=
  name' ← translate_variable_name name; write name'.

Definition literal (value : pyvalue) : M unit :=
  let value := repr value in
  let value :=
    if String.eqb (Py.slice_to 2 value) (String "u" (Py.str1 Py.dquote))
       || String.eqb (Py.slice_to 2 value) "u'"
    then Py.slice_from 1 value else value in
  write value.

Definition get_filter_name (filter : FilterFunc) : option string :=
  _filter_name filter.

(** [name not in registry], [name] being a text or [None]. *)
Definition not_in (name : option string) (registry : gset string) : bool :=
  match name with
  | Some s => bool_decide (s ∉ registry)
  | None => true
  end.

(** The loop of [filters]; [node] is [self.node] on a [Variable]. With
    [env] being [None], [self.env.filters] raises. *)
Definition filters_from (node : Var.t -> M unit) :
    bool -> list (FilterFunc * list FilterArg) -> M unit :=
  fix loop (want_pipe : bool) (filters : list (FilterFunc * list FilterArg)) :=
    match filters with
    | [] => ret tt
    | (filter, args) :: rest =>
        match get_filter_name filter with
        | None =>
            warn ("Could not find filter " +:+ str_opt None) None ;;
            loop want_pipe rest
        | Some name =>
            env ← attr env;
            match env with
            | None => raise AttributeError
            | Some env =>
                when (not_in (Some name) (Jinja.filters env))
                  (warn ("Filter " +:+ name +:+ " probably doesn't exist in Jinja")
                     None) ;;
                (if negb want_pipe then ret tt else write "|") ;;
                write name ;;
                when (negb (bool_decide (args = [])))
                  (write "(" ;;
                   for_enumerate
                     (fun idx arg =>
                        when (negb (Nat.eqb idx 0)) (write ", ") ;;
                        match arg with
                        | ArgVar value => node value
                        | ArgConst value => literal value
                        end) args ;;
                   write ")") ;;
                loop true rest
            end
        end
    end.

Definition filters (node : Var.t -> M unit)
    (filters : list (FilterFunc * list FilterArg)) (is_block : bool) : M unit :=
  let want_pipe := negb is_block in
  filters_from node want_pipe filters.

(** The table [get_simple_tag_name] builds on its first call. *)
Definition resolve_simple_tags (libraries : list Library) : gmap string string :=
  foldl
    (fun acc library =>
       foldl
         (fun acc '(func_name, func) =>
            <[__module__ func +:+ "." +:+ __name__ func := func_name]> acc)
         acc library)
    ∅ libraries.

(** For a tag that is neither a [SimpleNode] nor an [InclusionNode] the
    method calls [self.warn(..., node=node)], and the global [node] it
    names is deleted at the end of the module. *)
Definition get_simple_tag_name (tag : node) : M (option string) :=
  match tag with
  | SimpleNode func _ _ _
  | InclusionNode func _ _ =>
      let target_name := __module__ func +:+ "." +:+ __name__ func in
      cache ← attr _resolved_simple_tags;
      when (bool_decide (cache = None))
        (libraries ← attr template_libraries;
         assign (set_resolved_simple_tags (Some (resolve_simple_tags libraries)))) ;;
      cache ← attr _resolved_simple_tags;
      ret (match cache with Some m => m !! target_name | None => None end)
  | _ => raise NameError
  end.

(** [body], [node] being [self.node]. *)
Definition body {A} (node : A -> M unit) (nodes : list A) : M unit :=
  for_each node nodes.

End Writer.

Notation "x ← y ; z" := (Writer.bind y (fun x => z))
  (at level 20, y at level 100, z at level 200, only parsing) : writer_scope.
Notation "x ;; z" := (Writer.bind x (fun _ => z))
  (at level 100, z at level 200, only parsing, right associativity) : writer_scope.

Local Open Scope writer_scope.

(** ** The handler table *)

(** The classes of the objects that reach [Writer.node]. All the operator
    classes of [smartif] are called [Operator]; [Other] is any class the
    module does not import. *)
Module Cls.
Inductive t :=
| TextNode
| Variable_
| VariableNode
| FilterExpression
| CommentNode
| DebugNode
| ForNode
| IfNode
| Operator
| IfEqualNode
| BlockNode
| ExtendsNode
| IncludeNode
| CycleNode
| FilterNode
| AutoEscapeControlNode
| SpacelessNode
| TemplateTagNode
| URLNode
| WidthRatioNode
| WithNode
| RegroupNode
| LoadNode
| GetAvailableLanguagesNode
| GetCurrentLanguageNode
| GetCurrentLanguageBidiNode
| TranslateNode
| BlockTranslateNode
| SimpleNode
| InclusionNode
| StaticNode
| CsrfTokenNode
| VerbatimNode
| LoremNode
| Other (cls : Named).
End Cls.

#[global] Instance Named_eq_dec : EqDecision Named.
Proof. solve_decision. Defined.

#[global] Instance Cls_eq_dec : EqDecision Cls.t.
Proof. solve_decision. Defined.

(** [cls.__name__] and [cls.__module__] *)
Definition class_name (cls : Cls.t) : string :=
  match cls with
  | Cls.TextNode => "TextNode"
  | Cls.Variable_ => "Variable"
  | Cls.VariableNode => "VariableNode"
  | Cls.FilterExpression => "FilterExpression"
  | Cls.CommentNode => "CommentNode"
  | Cls.DebugNode => "DebugNode"
  | Cls.ForNode => "ForNode"
  | Cls.IfNode => "IfNode"
  | Cls.Operator => "Operator"
  | Cls.IfEqualNode => "IfEqualNode"
  | Cls.BlockNode => "BlockNode"
  | Cls.ExtendsNode => "ExtendsNode"
  | Cls.IncludeNode => "IncludeNode"
  | Cls.CycleNode => "CycleNode"
  | Cls.FilterNode => "FilterNode"
  | Cls.AutoEscapeControlNode => "AutoEscapeControlNode"
  | Cls.SpacelessNode => "SpacelessNode"
  | Cls.TemplateTagNode => "TemplateTagNode"
  | Cls.URLNode => "URLNode"
  | Cls.WidthRatioNode => "WidthRatioNode"
  | Cls.WithNode => "WithNode"
  | Cls.RegroupNode => "RegroupNode"
  | Cls.LoadNode => "LoadNode"
  | Cls.GetAvailableLanguagesNode => "GetAvailableLanguagesNode"
  | Cls.GetCurrentLanguageNode => "GetCurrentLanguageNode"
  | Cls.GetCurrentLanguageBidiNode => "GetCurrentLanguageBidiNode"
  | Cls.TranslateNode => "TranslateNode"
  | Cls.BlockTranslateNode => "BlockTranslateNode"
  | Cls.SimpleNode => "SimpleNode"
  | Cls.InclusionNode => "InclusionNode"
  | Cls.StaticNode => "StaticNode"
  | Cls.CsrfTokenNode => "CsrfTokenNode"
  | Cls.VerbatimNode => "VerbatimNode"
  | Cls.LoremNode => "LoremNode"
  | Cls.Other cls => __name__ cls
  end.

Definition class_module (cls : Cls.t) : string :=
  match cls with
  | Cls.TextNode | Cls.Variable_ | Cls.VariableNode | Cls.FilterExpression =>
      "django.template.base"
  | Cls.Operator => "django.template.smartif"
  | Cls.BlockNode | Cls.ExtendsNode | Cls.IncludeNode =>
      "django.template.loader_tags"
  | Cls.GetAvailableLanguagesNode | Cls.GetCurrentLanguageNode
  | Cls.GetCurrentLanguageBidiNode | Cls.TranslateNode
  | Cls.BlockTranslateNode => "django.templatetags.i18n"
  | Cls.SimpleNode | Cls.InclusionNode => "django.template.library"
  | Cls.StaticNode => "django.templatetags.static"
  | Cls.Other cls => __module__ cls
  | _ => "django.template.defaulttags"
  end.

(** The functions the decorator [node] registers. The source calls two of
    them [comment_tag]; the second, registered for [DebugNode], is
    [debug_tag] here. *)
Module Handler.
Inductive t :=
| text_node
| variable
| variable_node
| filter_expression
| comment_tag
| debug_tag
| for_loop
| if_condition
| operator
| if_equal
| block
| extends
| include
| cycle
| filter
| autoescape_control
| spaceless
| template_tag
| url_tag
| width_ratio
| with_block
| regroup
| warn_load
| get_available_languages
| get_current_language
| get_current_language_bidi
| simple_gettext
| translate_block
| simple_tag
| inclusion_tag
| static_tag
| csrf_tag
| verbatim_tag
| lorem_tag.
End Handler.

(** A key of the table: a class, or the name of a class. *)
Inductive Key :=
| KType (cls : Cls.t)
| KName (name : string).

(** [_node_handlers], in the order the decorators fill it. *)
Definition _node_handlers : list (Key * Handler.t) :=
  [ (KType Cls.TextNode, Handler.text_node);
    (KType Cls.Variable_, Handler.variable);
    (KType Cls.VariableNode, Handler.variable_node);
    (KType Cls.FilterExpression, Handler.filter_expression);
    (KType Cls.CommentNode, Handler.comment_tag);
    (KType Cls.DebugNode, Handler.debug_tag);
    (KType Cls.ForNode, Handler.for_loop);
    (KType Cls.IfNode, Handler.if_condition);
    (KName "Operator", Handler.operator);
    (KType Cls.IfEqualNode, Handler.if_equal);
    (KType Cls.BlockNode, Handler.block);
    (KType Cls.ExtendsNode, Handler.extends);
    (KType Cls.IncludeNode, Handler.include);
    (KType Cls.CycleNode, Handler.cycle);
    (KType Cls.FilterNode, Handler.filter);
    (KType Cls.AutoEscapeControlNode, Handler.autoescape_control);
    (KType Cls.SpacelessNode, Handler.spaceless);
    (KType Cls.TemplateTagNode, Handler.template_tag);
    (KType Cls.URLNode, Handler.url_tag);
    (KType Cls.WidthRatioNode, Handler.width_ratio);
    (KType Cls.WithNode, Handler.with_block);
    (KType Cls.RegroupNode, Handler.regroup);
    (KType Cls.LoadNode, Handler.warn_load);
    (KType Cls.GetAvailableLanguagesNode, Handler.get_available_languages);
    (KType Cls.GetCurrentLanguageNode, Handler.get_current_language);
    (KType Cls.GetCurrentLanguageBidiNode, Handler.get_current_language_bidi);
    (KType Cls.TranslateNode, Handler.simple_gettext);
    (KType Cls.BlockTranslateNode, Handler.translate_block);
    (KName "SimpleNode", Handler.simple_tag);
    (KName "InclusionNode", Handler.inclusion_tag);
    (KType Cls.StaticNode, Handler.static_tag);
    (KType Cls.CsrfTokenNode, Handler.csrf_tag);
    (KType Cls.VerbatimNode, Handler.verbatim_tag);
    (KType Cls.LoremNode, Handler.lorem_tag) ].

(** [type(node) is cls or type(node).__name__ == cls] *)
Definition key_matches (type_node : Cls.t) (cls : Key) : bool :=
  match cls with
  | KType c => bool_decide (type_node = c)
  | KName name => String.eqb (class_name type_node) name
  end.

(** The loop of [Writer.node] over the items of the table, up to its
    [break]; [None] is the [else] of the loop. *)
Fixpoint find_handler (items : list (Key * Handler.t)) (type_node : Cls.t) :
    option Handler.t :=
  match items with
  | [] => None
  | (cls, handler) :: rest =>
      if key_matches type_node cls then Some handler
      else find_handler rest type_node
  end.

(** [Writer.node] for an object of class [cls]; [source] is its [source]
    attribute if it has one, and [call handler node] is
    [handler(self, node)]. *)
Definition Writer_node_of {A} (cls : Cls.t) (source : option Source)
    (call : Handler.t -> A -> Writer.M unit) (node : A) : Writer.M unit :=
  match find_handler _node_handlers cls with
  | Some handler => call handler node
  | None =>
      Writer.warn
        ("Untranslatable node " +:+ class_module cls +:+ "." +:+ class_name cls
         +:+ " found") source
  end.

(** ** The handlers of the values inside a node *)

(** A handler that reads an attribute its argument does not have. *)
Definition no_attribute {A} : Writer.M A := Writer.raise AttributeError.

Definition variable (node : Var.t) : Writer.M unit :=
  Writer.when (Var.translate node)
    (Writer.warn "i18n system used, make sure to install translations" None ;;
     Writer.write "_(") ;;
  match Var.literal node with
  | Some literal => Writer.literal literal
  | None => Writer.variable (Var.var node)
  end ;;
  Writer.when (Var.translate node) (Writer.write ")").

(** [writer.node(v)] for a [Variable] *)
Definition node_Variable : Var.t -> Writer.M unit :=
  Writer_node_of Cls.Variable_ None
    (fun handler node =>
       match handler with
       | Handler.variable => variable node
       | _ => no_attribute
       end).

(** [writer.node(x)] for an object of a class that is not in the table and
    has none of the attributes the handlers read: a key that is a name may
    match, and then [operator] reads [node.id], and [simple_tag] and
    [inclusion_tag] call [get_simple_tag_name], which names the deleted
    global [node]. *)
Definition node_object (cls : Named) : Writer.M unit :=
  Writer_node_of (Cls.Other cls) None
    (fun handler _ =>
       match handler with
       | Handler.simple_tag | Handler.inclusion_tag => Writer.raise NameError
       | _ => no_attribute
       end) tt.

(** A value that is no [SafeData] goes to [writer.node]. For a number or
    [None] no key matches, and the warning reads [node.__module__], which
    these do not have; for a lazy proxy no key matches either, and the
    warning is printed. *)
Definition filter_expression (node : FilterExpression.t) : Writer.M unit :=
  match FilterExpression.var node with
  | FSafe s => Writer.literal (PyStr s)
  | FVariable v => node_Variable v
  | FOther _ => no_attribute
  | FLazy => node_object lazy_proxy
  end ;;
  Writer.filters node_Variable (FilterExpression.filters node) false.

(** [writer.node(fe)] for a [FilterExpression] *)
Definition node_FilterExpression : FilterExpression.t -> Writer.M unit :=
  Writer_node_of Cls.FilterExpression None
    (fun handler node =>
       match handler with
       | Handler.filter_expression => filter_expression node
       | _ => no_attribute
       end).

(** *** Conditions *)

(** What the generator yields: [condition.value] or [condition]. *)
Inductive bit :=
| BitValue (value : FilterExpression.t)
| BitCondition (condition : condition).

(** [isinstance(condition, OPERATORS['not'])]: the classes of [OPERATORS]
    carry their key as [id]. *)
Definition is_not (id : string) : bool := String.eqb id "not".

Fixpoint _if_condition_to_bits_backwards (condition : condition) : list bit :=
  match condition with
  | Literal value => [BitValue value]
  | Operator id first second =>
      match second with
      | Some second => _if_condition_to_bits_backwards second
      | None => []
      end ++
      (if is_not id then
         _if_condition_to_bits_backwards first ++ [BitCondition condition]
       else
         [BitCondition condition] ++ _if_condition_to_bits_backwards first)
  end.

Definition if_condition_to_bits (condition : condition) : list bit :=
  let backward_bits := _if_condition_to_bits_backwards condition in
  rev backward_bits.

Definition operator (node : condition) : Writer.M unit :=
  match node with
  | Operator id _ _ => Writer.write id
  | Literal _ => no_attribute
  end.

Definition class_of_condition (c : condition) : Cls.t :=
  match c with
  | Operator _ _ _ => Cls.Operator
  | Literal _ =>
      Cls.Other {| __module__ := "django.template.defaulttags";
                   __name__ := "TemplateLiteral" |}
  end.

(** [writer.node(bit)] *)
Definition node_bit (b : bit) : Writer.M unit :=
  match b with
  | BitValue value => node_FilterExpression value
  | BitCondition c =>
      Writer_node_of (class_of_condition c) None
        (fun handler node =>
           match handler with
           | Handler.operator => operator node
           | _ => no_attribute
           end) c
  end.

(** ** The handlers of the nodes

    A handler receives the node; reading the attributes of its class is
    the [match], and a node of another class has none of them. The
    handlers that translate child nodes receive [writer.node] as
    [writer_node]. *)

Section Handlers.

Variable writer_node : node -> Writer.M unit.

Definition text_node (node : node) : Writer.M unit :=
  match node with
  | TextNode s => Writer.write s
  | _ => no_attribute
  end.

Definition variable_node (node : node) : Writer.M unit :=
  Writer.start_variable ;;
  match node with
  | VariableNode filter_expression =>
      match FilterExpression.var filter_expression with
      | FVariable v =>
          if String.eqb (Var.var v) "block.super"
             && bool_decide (FilterExpression.filters filter_expression = [])
          then Writer.write "super()"
          else node_FilterExpression filter_expression
      | _ => no_attribute
      end
  | _ => no_attribute
  end ;;
  Writer.end_variable false.

Definition comment_tag (node : node) : Writer.M unit :=
  Writer.ret tt.

Definition debug_tag (node : node) : Writer.M unit :=
  match node with
  | DebugNode source =>
      Writer.warn
        ("Debug tag detected.  Make sure to add a global function "
         +:+ "called debug to the namespace.") source ;;
      Writer.print_expr "debug()"
  | _ => no_attribute
  end.

Definition for_loop (node : node) : Writer.M unit :=
  match node with
  | ForNode loopvars is_reversed sequence nodelist_loop nodelist_empty =>
      Writer.start_block ;;
      Writer.write "for " ;;
      Writer.for_enumerate
        (fun idx var =>
           Writer.when (negb (Nat.eqb idx 0)) (Writer.write ", ") ;;
           Writer.variable var) loopvars ;;
      Writer.write " in " ;;
      Writer.when is_reversed (Writer.write "(") ;;
      node_FilterExpression sequence ;;
      Writer.when is_reversed (Writer.write ")|reverse") ;;
      Writer.end_block ;;
      Writer.enter_loop ;;
      Writer.body writer_node nodelist_loop ;;
      Writer.leave_loop ;;
      Writer.when (negb (bool_decide (nodelist_empty = [])))
        (Writer.tag "else" ;;
         Writer.body writer_node nodelist_empty) ;;
      Writer.tag "endfor"
  | _ => no_attribute
  end.

Definition if_condition (node : node) : Writer.M unit :=
  match node with
  | IfNode conditions_nodelists =>
      Writer.for_enumerate
        (fun x '(condition, nodelist) =>
           Writer.start_block ;;
           (if Nat.eqb x 0 then Writer.write "if"
            else if bool_decide (condition = None) then Writer.write "else"
            else Writer.write "elif") ;;
           match condition with
           | Some condition =>
               let condition_bits := if_condition_to_bits condition in
               Writer.for_each
                 (fun bit => Writer.write " " ;; node_bit bit) condition_bits
           | None => Writer.ret tt
           end ;;
           Writer.end_block ;;
           Writer.body writer_node nodelist) conditions_nodelists ;;
      Writer.tag "endif"
  | _ => no_attribute
  end.

Definition if_equal (node : node) : Writer.M unit :=
  match node with
  | IfEqualNode var1 var2 nodelist_true nodelist_false negate =>
      Writer.start_block ;;
      Writer.write "if " ;;
      node_FilterExpression var1 ;;
      (if negate then Writer.write " != " else Writer.write " == ") ;;
      node_FilterExpression var2 ;;
      Writer.end_block ;;
      Writer.body writer_node nodelist_true ;;
      Writer.when (negb (bool_decide (nodelist_false = [])))
        (Writer.tag "else" ;;
         Writer.body writer_node nodelist_false) ;;
      Writer.tag "endif"
  | _ => no_attribute
  end.

(** The [while] loop of [block] up the [parent] chain, followed by
    [writer.body(node.nodelist)] on the block it ends at. *)
Definition block_root_body : node -> Writer.M unit :=
  fix walk (node : node) : Writer.M unit :=
    match node with
    | BlockNode _ nodelist None => Writer.body writer_node nodelist
    | BlockNode _ _ (Some parent) => walk parent
    | _ => no_attribute
    end.

Definition block (node : node) : Writer.M unit :=
  match node with
  | BlockNode name _ _ =>
      Writer.tag ("block " +:+ Py.rstrip_char "_" (Py.replace_char "-" "_" name)) ;;
      block_root_body node ;;
      Writer.tag "endblock"
  | _ => no_attribute
  end.

Definition extends (node : node) : Writer.M unit :=
  match node with
  | ExtendsNode parent_name nodelist =>
      Writer.start_block ;;
      Writer.write "extends " ;;
      node_FilterExpression parent_name ;;
      Writer.end_block ;;
      Writer.body writer_node nodelist
  | _ => no_attribute
  end.

Definition include (node : node) : Writer.M unit :=
  match node with
  | IncludeNode template =>
      Writer.start_block ;;
      Writer.write "include " ;;
      node_FilterExpression template ;;
      Writer.end_block
  | _ => no_attribute
  end.

(** One step of the iteration over [node.raw_cycle_vars], [value] being
    the next of the values of the node: the iterator moves on, and
    [Variable(value)] is the item, or raises. *)
Definition advance (this : positive) (w : Writer.t) : Writer.t :=
  Writer.set_cycle_iterators
    (<[this := S (default O (Writer.cycle_iterators w !! this))]>
       (Writer.cycle_iterators w)) w.

Definition next_raw_cycle_var (this : positive) (value : cyclevar) :
    Writer.M Var.t :=
  Writer.assign (advance this) ;;
  match value with
  | CycleText variable => Writer.ret variable
  | CycleExpression _ => Writer.raise TypeError
  end.

Definition cycle (node : node) : Writer.M unit :=
  match node with
  | CycleNode variable_name cyclevars source this =>
      in_loop ← Writer.in_loop;
      if negb in_loop then
        Writer.warn "Untranslatable free cycle (cycle outside loop)" source
      else
        match variable_name with
        | Some variable_name =>
            Writer.start_block ;;
            Writer.write ("set " +:+ variable_name +:+ " = ")
        | None => Writer.start_variable
        end ;;
        Writer.write "loop.cycle(" ;;
        read ← Writer.attr (fun w => default O (Writer.cycle_iterators w !! this));
        Writer.for_enumerate
          (fun idx value =>
             var ← next_raw_cycle_var this value;
             Writer.when (negb (Nat.eqb idx 0)) (Writer.write ", ") ;;
             node_Variable var) (drop read cyclevars) ;;
        Writer.write ")" ;;
        match variable_name with
        | Some _ => Writer.end_block
        | None => Writer.end_variable false
        end
  | _ => no_attribute
  end.

Definition filter (node : node) : Writer.M unit :=
  match node with
  | FilterNode filter_expr nodelist =>
      Writer.start_block ;;
      Writer.write "filter " ;;
      Writer.filters node_Variable (FilterExpression.filters filter_expr) true ;;
      Writer.end_block ;;
      Writer.body writer_node nodelist ;;
      Writer.tag "endfilter"
  | _ => no_attribute
  end.

Definition autoescape_control (node : node) : Writer.M unit :=
  match node with
  | AutoEscapeControlNode setting nodelist =>
      original ← Writer.attr Writer.autoescape;
      Writer.assign (Writer.set_autoescape setting) ;;
      Writer.body writer_node nodelist ;;
      Writer.assign (Writer.set_autoescape original)
  | _ => no_attribute
  end.

(** [writer.body(nodelist)] of [spaceless], on the list with its first and
    last text stripped. The loop runs over the list of the node and strips
    on the way: a [TextNode] at the first place loses its leading white
    space, one at the last place its trailing white space. *)
Definition spaceless_body : bool -> list node -> Writer.M unit :=
  fix loop (first : bool) (nodelist : list node) : Writer.M unit :=
    match nodelist with
    | [] => Writer.ret tt
    | x :: rest =>
        let last := bool_decide (rest = []) in
        match x with
        | TextNode s =>
            if first || last then
              let s := if first then Py.lstrip s else s in
              let s := if last then Py.rstrip s else s in
              text_node (TextNode s)
            else writer_node x
        | _ => writer_node x
        end ;;
        loop false rest
    end.

Definition spaceless (node : node) : Writer.M unit :=
  match node with
  | SpacelessNode nodelist source =>
      original ← Writer.attr Writer.spaceless;
      Writer.assign (Writer.set_spaceless true) ;;
      Writer.warn "entering spaceless mode with different semantics" source ;;
      spaceless_body true nodelist ;;
      Writer.assign (Writer.set_spaceless original)
  | _ => no_attribute
  end.


Definition template_tag (node : node) : Writer.M unit :=
  match node with
  | TemplateTagNode tagtype =>
      block_start_string ← Writer.attr Writer.block_start_string;
      block_end_string ← Writer.attr Writer.block_end_string;
      variable_start_string ← Writer.attr Writer.variable_start_string;
      variable_end_string ← Writer.attr Writer.variable_end_string;
      comment_start_string ← Writer.attr Writer.comment_start_string;
      comment_end_string ← Writer.attr Writer.comment_end_string;
      let tags : gmap string string :=
        list_to_map
          [ ("openblock", block_start_string);
            ("closeblock", block_end_string);
            ("openvariable", variable_start_string);
            ("closevariable", variable_end_string);
            ("opencomment", comment_start_string);
            ("closecomment", comment_end_string);
            ("openbrace", "{");
            ("closebrace", "}") ] in
      let tag := tags !! tagtype in
      match tag with
      | Some tag =>
          Writer.when (negb (String.eqb tag ""))
            (Writer.start_variable ;;
             Writer.literal (PyStr tag) ;;
             Writer.end_variable false)
      | None => Writer.ret tt
      end
  | _ => no_attribute
  end.

Definition url_tag (node : node) : Writer.M unit :=
  match node with
  | URLNode view_name args kwargs asvar =>
      (if truthy_opt asvar then
         Writer.start_block ;;
         Writer.write ("set " +:+ str_opt asvar +:+ " = ")
       else Writer.start_variable) ;;
      Writer.write "url(" ;;
      node_FilterExpression view_name ;;
      Writer.for_each
        (fun arg => Writer.write ", " ;; node_FilterExpression arg) args ;;
      Writer.for_each
        (fun '(key, arg) =>
           Writer.write (", " +:+ key +:+ "=") ;;
           node_FilterExpression arg) kwargs ;;
      Writer.write ")" ;;
      (if truthy_opt asvar then Writer.end_block
       else Writer.end_variable false)
  | _ => no_attribute
  end.

Definition width_ratio (node : node) : Writer.M unit :=
  match node with
  | WidthRatioNode val_expr max_expr max_width source =>
      Writer.warn
        ("widthratio expanded into formula.  You may want to provide "
         +:+ "a helper function for this calculation") source ;;
      Writer.start_variable ;;
      Writer.write "(" ;;
      node_FilterExpression val_expr ;;
      Writer.write " / " ;;
      node_FilterExpression max_expr ;;
      Writer.write " * " ;;
      match max_width with
      | Some n => Writer.write (Py.str_int n)
      | None => Writer.raise TypeError
      end ;;
      Writer.write ")|round|int" ;;
      Writer.end_variable true
  | _ => no_attribute
  end.

Definition with_block (node : node) : Writer.M unit :=
  match node with
  | WithNode extra_context nodelist =>
      Writer.start_block ;;
      Writer.write "with " ;;
      Writer.for_enumerate
        (fun x '(key, value) =>
           Writer.when (negb (Nat.eqb x 0)) (Writer.write ", ") ;;
           Writer.write key ;;
           Writer.write "=" ;;
           node_FilterExpression value) extra_context ;;
      Writer.end_block ;;
      Writer.body writer_node nodelist ;;
      Writer.tag "endwith"
  | _ => no_attribute
  end.

Definition regroup (node : node) : Writer.M unit :=
  match node with
  | RegroupNode target expression var_name source =>
      match FilterExpression.var expression with
      | FVariable v =>
          if match Var.literal v with Some l => truthy l | None => false end
          then
            Writer.warn
              ("literal in groupby filter used.   Behavior in that "
               +:+ "situation is undefined and translation is skipped.") source
          else
            Writer.when
              (negb (bool_decide (FilterExpression.filters expression = [])))
              (Writer.warn
                 ("filters in groupby filter used.   Behavior in that "
                  +:+ "situation is undefined which is most likely a bug "
                  +:+ "in your code.  Filters were ignored.") source) ;;
            Writer.start_block ;;
            Writer.write ("set " +:+ var_name +:+ " = ") ;;
            node_FilterExpression target ;;
            Writer.write "|groupby(" ;;
            Writer.literal (PyStr (Var.var v)) ;;
            Writer.write ")" ;;
            Writer.end_block
      | _ => no_attribute
      end
  | _ => no_attribute
  end.

Definition warn_load (node : node) : Writer.M unit :=
  Writer.ret tt.

Definition get_available_languages (node : node) : Writer.M unit :=
  match node with
  | GetAvailableLanguagesNode variable source =>
      Writer.warn "make sure to provide a get_available_languages function"
        source ;;
      name ← Writer.translate_variable_name variable;
      Writer.tag ("set " +:+ name +:+ " = get_available_languages()")
  | _ => no_attribute
  end.

Definition get_current_language (node : node) : Writer.M unit :=
  match node with
  | GetCurrentLanguageNode variable source =>
      Writer.warn "make sure to provide a get_current_language function"
        source ;;
      name ← Writer.translate_variable_name variable;
      Writer.tag ("set " +:+ name +:+ " = get_current_language()")
  | _ => no_attribute
  end.

Definition get_current_language_bidi (node : node) : Writer.M unit :=
  match node with
  | GetCurrentLanguageBidiNode variable source =>
      Writer.warn "make sure to provide a get_current_language_bidi function"
        source ;;
      name ← Writer.translate_variable_name variable;
      Writer.tag ("set " +:+ name +:+ " = get_current_language_bidi()")
  | _ => no_attribute
  end.

Definition simple_gettext (node : node) : Writer.M unit :=
  match node with
  | TranslateNode value source =>
      Writer.warn "i18n system used, make sure to install translations"
        source ;;
      Writer.start_variable ;;
      Writer.write "_(" ;;
      match value with
      | Some value => node_Variable value
      | None => no_attribute
      end ;;
      Writer.write ")" ;;
      Writer.end_variable false
  | _ => no_attribute
  end.

(** The closures of [translate_block] share [first_var] and [variables];
    they are the pair [locals], handed from one step to the next. *)
Definition block_locals : Type := list string * gset string.

Definition touch_var (name : string) (locals : block_locals) : block_locals :=
  let '(first_var, variables) := locals in
  let variables := {[name]} ∪ variables in
  (if bool_decide (first_var = []) then first_var ++ [name] else first_var,
   variables).

(** A loop whose body updates local variables [st]. *)
Definition for_fold {A S} (f : S -> A -> Writer.M S) : S -> list A -> Writer.M S :=
  fix loop (st : S) (l : list A) : Writer.M S :=
    match l with
    | [] => Writer.ret st
    | x :: rest => st' ← f st x; loop st' rest
    end.

Definition dump_token_list (tokens : list Token) (locals : block_locals) :
    Writer.M block_locals :=
  for_fold
    (fun locals token =>
       match token with
       | TOKEN_TEXT contents => Writer.write contents ;; Writer.ret locals
       | TOKEN_VAR contents =>
           Writer.print_expr contents ;;
           Writer.ret (touch_var contents locals)
       | TOKEN_OTHER _ => Writer.ret locals
       end) locals tokens.

Definition translate_block (node : node) : Writer.M unit :=
  match node with
  | BlockTranslateNode extra_context singular plural countervar counter source =>
      let locals : block_locals := ([], ∅) in
      Writer.warn "i18n system used, make sure to install translations"
        source ;;
      Writer.start_block ;;
      Writer.write "trans" ;;
      r ← for_fold
            (fun '(idx, locals) '(key, var) =>
               let idx := idx + 1 in
               Writer.when (negb (idx =? 0)) (Writer.write ",") ;;
               Writer.write (" " +:+ key +:+ "=") ;;
               let locals := touch_var key locals in
               match var with
               | Some filter_expression => node_FilterExpression filter_expression
               | None => no_attribute
               end ;;
               Writer.ret (idx, locals))
            (-1, locals) extra_context;
      let '(idx, locals) := r in
      let has_plural :=
        negb (bool_decide (plural = [])) && truthy_opt countervar
        && bool_decide (counter ≠ None) in
      locals ←
        (if has_plural then
           let plural_var := str_opt countervar in
           if bool_decide (plural_var ∉ snd locals) then
             Writer.when (-1 <? idx) (Writer.write ",") ;;
             let locals := touch_var plural_var locals in
             Writer.write (" " +:+ plural_var +:+ "=") ;;
             match counter with
             | Some counter => node_FilterExpression counter
             | None => no_attribute
             end ;;
             Writer.ret locals
           else Writer.ret locals
         else Writer.ret locals);
      Writer.end_block ;;
      locals ← dump_token_list singular locals;
      (if has_plural then
         Writer.start_block ;;
         Writer.write "pluralize" ;;
         match fst locals with
         | first :: _ =>
             Writer.when (negb (String.eqb (str_opt countervar) first))
               (Writer.write (" " +:+ str_opt countervar))
         | [] => Writer.raise IndexError
         end ;;
         Writer.end_block ;;
         locals ← dump_token_list plural locals;
         Writer.ret tt
       else Writer.ret tt) ;;
      Writer.tag "endtrans"
  | _ => no_attribute
  end.

Definition simple_tag (node : node) : Writer.M unit :=
  name ← Writer.get_simple_tag_name node;
  env ← Writer.attr Writer.env;
  Writer.when
    (match env with
     | Some env =>
         Writer.not_in name (Jinja.globals env)
         && Writer.not_in name (Jinja.filters env)
     | None => false
     end)
    (Writer.warn ("Tag " +:+ str_opt name +:+ " probably doesn't exist in Jinja")
       None) ;;
  match node with
  | SimpleNode _ args kwargs target_var =>
      (if truthy_opt target_var then
         Writer.start_block ;;
         Writer.write ("set " +:+ str_opt target_var +:+ "=" +:+ str_opt name)
       else
         Writer.start_variable ;;
         Writer.write (str_opt name)) ;;
      Writer.write "(" ;;
      let has_args := negb (bool_decide (args = [])) in
      Writer.when has_args
        (Writer.for_enumerate
           (fun idx var =>
              Writer.when (negb (Nat.eqb idx 0)) (Writer.write ", ") ;;
              node_FilterExpression var) args) ;;
      Writer.when (negb (bool_decide (kwargs = [])))
        (Writer.for_enumerate
           (fun idx '(key, val) =>
              Writer.when (has_args || negb (Nat.eqb idx 0))
                (Writer.write ", ") ;;
              Writer.write (key +:+ "=") ;;
              node_FilterExpression val) kwargs) ;;
      Writer.write ")" ;;
      (if truthy_opt target_var then Writer.end_block
       else Writer.end_variable false)
  | _ => no_attribute
  end.

Definition inclusion_tag (node : node) : Writer.M unit :=
  name ← Writer.get_simple_tag_name node;
  env ← Writer.attr Writer.env;
  Writer.when
    (match env with
     | Some env =>
         Writer.not_in name (Jinja.globals env)
         && Writer.not_in name (Jinja.filters env)
     | None => false
     end)
    (Writer.warn ("Tag " +:+ str_opt name +:+ " probably doesn't exist in Jinja")
       None) ;;
  Writer.start_variable ;;
  Writer.write (str_opt name) ;;
  Writer.write "(" ;;
  match node with
  | InclusionNode _ args kwargs =>
      let has_args := negb (bool_decide (args = [])) in
      Writer.when has_args
        (Writer.for_enumerate
           (fun idx var =>
              Writer.when (negb (Nat.eqb idx 0)) (Writer.write ", ") ;;
              node_FilterExpression var) args) ;;
      Writer.when (negb (bool_decide (kwargs = [])))
        (Writer.for_enumerate
           (fun idx '(key, val) =>
              Writer.when (has_args || negb (Nat.eqb idx 0))
                (Writer.write ", ") ;;
              Writer.write (key +:+ "=") ;;
              node_FilterExpression val) kwargs)
  | _ => no_attribute
  end ;;
  Writer.write ")" ;;
  Writer.end_variable false.

Definition static_tag (node : node) : Writer.M unit :=
  match node with
  | StaticNode varname path =>
      (if truthy_opt varname then
         Writer.start_block ;;
         Writer.write ("set " +:+ str_opt varname +:+ "=static(")
       else
         Writer.start_variable ;;
         Writer.write "static(") ;;
      node_FilterExpression path ;;
      Writer.write ")" ;;
      (if truthy_opt varname then Writer.end_block
       else Writer.end_variable false)
  | _ => no_attribute
  end.

Definition csrf_tag (node : node) : Writer.M unit :=
  Writer.start_variable ;;
  Writer.write "csrf_token()" ;;
  Writer.end_variable false.

Definition verbatim_tag (node : node) : Writer.M unit :=
  Writer.tag "raw" ;;
  match node with
  | VerbatimNode content => Writer.write content
  | _ => no_attribute
  end ;;
  Writer.tag "endraw".

(** [str(count)] of a [FilterExpression] is its token; a [FilterExpression]
    is true. *)
Definition lorem_tag (node : node) : Writer.M unit :=
  match node with
  | LoremNode count method =>
      let uses_html := String.eqb method "p" in
      let '(min_max, count) :=
        if String.eqb method "w"
        then (Some (FilterExpression.token count), "1")
        else (None, FilterExpression.token count) in
      Writer.start_variable ;;
      let func_string :=
        "lipsum(n=" +:+ count +:+ ", html="
        +:+ (if uses_html then "True" else "False") in
      let func_string :=
        match min_max with
        | Some min_max =>
            func_string +:+ ", min=" +:+ min_max +:+ ", max=" +:+ min_max
        | None => func_string
        end in
      let func_string := func_string +:+ ")" in
      Writer.write func_string ;;
      Writer.end_variable false
  | _ => no_attribute
  end.

(** [handler(self, node)] for a node: the functions of the table by name.
    The three handlers of the values inside a node read attributes that no
    node has. *)
Definition call (handler : Handler.t) (node : node) : Writer.M unit :=
  match handler with
  | Handler.text_node => text_node node
  | Handler.variable => no_attribute
  | Handler.variable_node => variable_node node
  | Handler.filter_expression => no_attribute
  | Handler.comment_tag => comment_tag node
  | Handler.debug_tag => debug_tag node
  | Handler.for_loop => for_loop node
  | Handler.if_condition => if_condition node
  | Handler.operator => no_attribute
  | Handler.if_equal => if_equal node
  | Handler.block => block node
  | Handler.extends => extends node
  | Handler.include => include node
  | Handler.cycle => cycle node
  | Handler.filter => filter node
  | Handler.autoescape_control => autoescape_control node
  | Handler.spaceless => spaceless node
  | Handler.template_tag => template_tag node
  | Handler.url_tag => url_tag node
  | Handler.width_ratio => width_ratio node
  | Handler.with_block => with_block node
  | Handler.regroup => regroup node
  | Handler.warn_load => warn_load node
  | Handler.get_available_languages => get_available_languages node
  | Handler.get_current_language => get_current_language node
  | Handler.get_current_language_bidi => get_current_language_bidi node
  | Handler.simple_gettext => simple_gettext node
  | Handler.translate_block => translate_block node
  | Handler.simple_tag => simple_tag node
  | Handler.inclusion_tag => inclusion_tag node
  | Handler.static_tag => static_tag node
  | Handler.csrf_tag => csrf_tag node
  | Handler.verbatim_tag => verbatim_tag node
  | Handler.lorem_tag => lorem_tag node
  end.

End Handlers.

(** [type(node)] and [node.source] *)
Definition class_of (n : node) : Cls.t :=
  match n with
  | TextNode _ => Cls.TextNode
  | VariableNode _ => Cls.VariableNode
  | CommentNode => Cls.CommentNode
  | DebugNode _ => Cls.DebugNode
  | ForNode _ _ _ _ _ => Cls.ForNode
  | IfNode _ => Cls.IfNode
  | IfEqualNode _ _ _ _ _ => Cls.IfEqualNode
  | BlockNode _ _ _ => Cls.BlockNode
  | ExtendsNode _ _ => Cls.ExtendsNode
  | IncludeNode _ => Cls.IncludeNode
  | CycleNode _ _ _ _ => Cls.CycleNode
  | FilterNode _ _ => Cls.FilterNode
  | AutoEscapeControlNode _ _ => Cls.AutoEscapeControlNode
  | SpacelessNode _ _ => Cls.SpacelessNode
  | TemplateTagNode _ => Cls.TemplateTagNode
  | URLNode _ _ _ _ => Cls.URLNode
  | WidthRatioNode _ _ _ _ => Cls.WidthRatioNode
  | WithNode _ _ => Cls.WithNode
  | RegroupNode _ _ _ _ => Cls.RegroupNode
  | LoadNode => Cls.LoadNode
  | GetAvailableLanguagesNode _ _ => Cls.GetAvailableLanguagesNode
  | GetCurrentLanguageNode _ _ => Cls.GetCurrentLanguageNode
  | GetCurrentLanguageBidiNode _ _ => Cls.GetCurrentLanguageBidiNode
  | TranslateNode _ _ => Cls.TranslateNode
  | BlockTranslateNode _ _ _ _ _ _ => Cls.BlockTranslateNode
  | SimpleNode _ _ _ _ => Cls.SimpleNode
  | InclusionNode _ _ _ => Cls.InclusionNode
  | StaticNode _ _ => Cls.StaticNode
  | CsrfTokenNode => Cls.CsrfTokenNode
  | VerbatimNode _ => Cls.VerbatimNode
  | LoremNode _ _ => Cls.LoremNode
  | Foreign cls _ => Cls.Other cls
  end.

Definition source_of (n : node) : option Source :=
  match n with
  | DebugNode source
  | CycleNode _ _ source _
  | SpacelessNode _ source
  | WidthRatioNode _ _ _ source
  | RegroupNode _ _ _ source
  | GetAvailableLanguagesNode _ source
  | GetCurrentLanguageNode _ source
  | GetCurrentLanguageBidiNode _ source
  | TranslateNode _ source
  | BlockTranslateNode _ _ _ _ _ source
  | Foreign _ source => source
  | _ => None
  end.

(** [Writer.node] and [Writer.body] *)
Fixpoint Writer_node (n : node) : Writer.M unit :=
  Writer_node_of (class_of n) (source_of n) (call Writer_node) n.

Definition Writer_body (nodes : list node) : Writer.M unit :=
  Writer.body Writer_node nodes.

(** ** The two functions local to [convert_templates] *)

(** [filter_templates(files)], for the [extensions] given to
    [convert_templates]: the list of what the generator yields, in order. *)
Definition filter_templates (extensions : list string) (files : list string) :
    list string :=
  flat_map
    (fun filename =>
       let ifilename := Py.lower filename in
       flat_map
         (fun extension =>
            if Py.endswith ifilename extension then [filename] else [])
         extensions)
    files.

(** [translate(f, loadname)]. [nodelist] is [template.template.nodelist] of
    the template that [loader.get_template(loadname)] returns; [f] is the
    file that [convert_templates] has just opened for writing, so nothing has
    been written to it. The result is the text of [f] when the function
    returns. *)
Definition translate (nodelist : list node) : Writer.M string :=
  original ← Writer.attr Writer.stream;
  Writer.assign (Writer.set_stream "") ;;
  Writer_body nodelist ;;
  f ← Writer.attr Writer.stream;
  Writer.assign (Writer.set_stream original) ;;
  Writer.ret f.

(** ** The notions the properties are stated with *)

(** The list [spaceless] hands to [writer.body]: a copy of the list of the
    node, with a [TextNode] at its first place replaced by one stripped on
    the left, and then a [TextNode] at its last place by one stripped on the
    right. *)
Definition strip_first_text (nodelist : list node) : list node :=
  match nodelist !! O with
  | Some (TextNode s) => <[O := TextNode (Py.lstrip s)]> nodelist
  | _ => nodelist
  end.

Definition strip_last_text (nodelist : list node) : list node :=
  let last := Nat.pred (length nodelist) in
  match nodelist !! last with
  | Some (TextNode s) => <[last := TextNode (Py.rstrip s)]> nodelist
  | _ => nodelist
  end.

Definition spaceless_nodelist (nodelist : list node) : list node :=
  match nodelist with
  | [] => nodelist
  | _ => strip_last_text (strip_first_text nodelist)
  end.

(** The block the [while] loop of [block] ends at. *)
Fixpoint block_root (n : node) : option node :=
  match n with
  | BlockNode _ _ None => Some n
  | BlockNode _ _ (Some parent) => block_root parent
  | _ => None
  end.

(** Counting the calls of [enter_loop] and [leave_loop] in a history. *)
Fixpoint enters (es : list loop_event) : nat :=
  match es with
  | [] => O
  | Enter :: r => S (enters r)
  | Leave :: r => enters r
  end.

Fixpoint leaves (es : list loop_event) : nat :=
  match es with
  | [] => O
  | Enter :: r => leaves r
  | Leave :: r => S (leaves r)
  end.

(** What a history adds to the loop depth. *)
Definition net (es : list loop_event) : Z :=
  Z.of_nat (enters es) - Z.of_nat (leaves es).

(** At no point of the history have more loops been left than entered. *)
Definition well_nested (es : list loop_event) : Prop :=
  forall p, p `prefix_of` es -> 0 <= net p.

(** The configuration of a writer and its two flags: all its attributes but
    the streams and the loop depth. *)
Definition frame (w : Writer.t) :=
  (Writer.block_start_string w, Writer.block_end_string w,
   Writer.variable_start_string w, Writer.variable_end_string w,
   Writer.comment_start_string w, Writer.comment_end_string w,
   Writer.autoescape w, Writer.spaceless w, Writer.use_jinja_autoescape w,
   Writer.var_re w, Writer.env w).

(** [w'] is reached from [w] through the calls [es] of [enter_loop] and
    [leave_loop]. *)
Definition reaches (w w' : Writer.t) (es : list loop_event) : Prop :=
  Writer.loop_events w' = Writer.loop_events w ++ es
  /\ Writer._loop_depth w' = Writer._loop_depth w + net es.

(** A call is scoped when, from every writer, the loops it enters and
    leaves are well nested and, if it returns, it has left every loop it
    entered and put the configuration and the flags back. *)
Definition scoped {A} (m : Writer.M A) : Prop :=
  forall w, exists es,
    reaches w (Writer.state_of (m w)) es
    /\ well_nested es
    /\ (forall a w', m w = Writer.Ok a w' -> net es = 0 /\ frame w' = frame w).

(** The default configuration: the default delimiters, autoescape on,
    spaceless off, no escaping left to Jinja, no rewrite rule. *)
Definition default_configuration (w : Writer.t) : Prop :=
  Writer.block_start_string w = Jinja.BLOCK_START_STRING
  /\ Writer.block_end_string w = Jinja.BLOCK_END_STRING
  /\ Writer.variable_start_string w = Jinja.VARIABLE_START_STRING
  /\ Writer.variable_end_string w = Jinja.VARIABLE_END_STRING
  /\ Writer.autoescape w = true
  /\ Writer.spaceless w = false
  /\ Writer.use_jinja_autoescape w = false
  /\ Writer.var_re w = [].

(** The objects of the scenarios of the specification. *)
Definition name_variable (name : string) : Var.t :=
  {| Var.var := name; Var.literal := None; Var.translate := false |}.

Definition name_expression (name : string) : FilterExpression.t :=
  {| FilterExpression.token := name;
     FilterExpression.var := FVariable (name_variable name);
     FilterExpression.filters := [] |}.

(** [Variable] of a text between double quotes. *)
Definition string_variable (s : string) : Var.t :=
  {| Var.var := Py.str1 Py.dquote +:+ s +:+ Py.str1 Py.dquote;
     Var.literal := Some (PyStr s);
     Var.translate := false |}.

(** [for item in items: print item.name] *)
Definition item_loop : node :=
  ForNode ["item"%string] false (name_expression "items")
    [VariableNode (name_expression "item.name")] [].

(** [cycle "a" "b"], without [as]: the node built from the two texts. *)
Definition cycle_a_b (source : option Source) (this : positive) : node :=
  CycleNode None
    [CycleText (string_variable "a"); CycleText (string_variable "b")]
    source this.

(** [A and not B] as the parser of [smartif] builds it. *)
Definition and_not (A B : FilterExpression.t) : condition :=
  Operator "and" (Literal A) (Some (Operator "not" (Literal B) None)).

(** The text of a bit: the symbol of an operator, the token of a value. *)
Definition bit_text (b : bit) : string :=
  match b with
  | BitValue value => FilterExpression.token value
  | BitCondition (Operator id _ _) => id
  | BitCondition (Literal value) => FilterExpression.token value
  end.

(** A filter with a name, and [name|filter] for a name of a variable. *)
Definition named_filter (name : string) : FilterFunc :=
  {| _filter_name := Some name |}.

Definition filtered_expression (name filter : string) : FilterExpression.t :=
  {| FilterExpression.token := name +:+ "|" +:+ filter;
     FilterExpression.var := FVariable (name_variable name);
     FilterExpression.filters := [(named_filter filter, [])] |}.

(** A writer like the default one, with rewrite rules. *)
Definition writer_with_rules (rules : list Rule) : Writer.t :=
  Writer.__init__ Jinja.BLOCK_START_STRING Jinja.BLOCK_END_STRING
    Jinja.VARIABLE_START_STRING Jinja.VARIABLE_END_STRING
    Jinja.COMMENT_START_STRING Jinja.COMMENT_END_STRING
    true false (Some rules) None None [] ∅.

(** The writer [w], had its output stream held the text [p] and its error
    stream the lines [q] before what they hold. *)
Definition written_before (p : string) (q : list string) (w : Writer.t) :
    Writer.t :=
  Writer.set_stream (p +:+ Writer.stream w)
    (Writer.set_error_stream (q ++ Writer.error_stream w) w).

(** The outcome [r] of a call, with [f] applied to the writer it leaves. *)
Definition after {A} (f : Writer.t -> Writer.t) (r : Writer.result A) :
    Writer.result A :=
  match r with
  | Writer.Ok a w => Writer.Ok a (f w)
  | Writer.Raise e w => Writer.Raise e (f w)
  end.

(** A call that looks at neither stream: what the streams held before stays
    in front and changes nothing else. *)
Definition write_only {A} (m : Writer.M A) : Prop :=
  forall p q w, m (written_before p q w) = after (written_before p q) (m w).

(** The outcome of [translate_variable_name] once the rules have been
    tried on a name: the name they give, or the exception of [reg.sub]. *)
Definition translated (name : option string) (w : Writer.t) :
    Writer.result string :=
  match name with
  | Some name => Writer.Ok name w
  | None => Writer.Raise ReError w
  end.

(** The writer [w] with the text [s] added to its output stream. *)
Definition put (s : string) (w : Writer.t) : Writer.t :=
  Writer.set_stream (Writer.stream w +:+ s) w.

(** A writer like the default one, with rewrite rules and a Jinja
    environment. *)
Definition writer_with (rules : list Rule) (env : Jinja.Environment) : Writer.t :=
  Writer.__init__ Jinja.BLOCK_START_STRING Jinja.BLOCK_END_STRING
    Jinja.VARIABLE_START_STRING Jinja.VARIABLE_END_STRING
    Jinja.COMMENT_START_STRING Jinja.COMMENT_END_STRING
    true false (Some rules) (Some env) None [] ∅.

(** The text in which [get_location] counts the lines. *)
Definition origin_text (origin : Origin) : string :=
  match origin with
  | StringOrigin source => source
  | LoaderOrigin _ loaded => loaded
  end.

(** The parent of a block whose ancestors are the blocks with the given
    names and bodies, the nearest first: the last one has no parent. *)
Fixpoint block_chain (ancestors : list (string * list node)) : option node :=
  match ancestors with
  | [] => None
  | (name, nodelist) :: rest => Some (BlockNode name nodelist (block_chain rest))
  end.

(** Rewrite rules with which the loop of [translate_variable_name] raises
    for no name. *)
Definition rules_return (rules : list Rule) : Prop :=
  forall var, Writer.translate_rules rules var <> None.

(** A call that raises only exceptions among [E], and one whose result,
    when it returns, satisfies [Q]. *)
Definition raises_only {A} (E : exn -> Prop) (m : Writer.M A) : Prop :=
  forall w e w', m w = Writer.Raise e w' -> E e.

Definition returns {A} (Q : A -> Prop) (m : Writer.M A) : Prop :=
  forall w a w', m w = Writer.Ok a w' -> Q a.

(** A call that returns from every writer, and leaves the Jinja environment
    and the rewrite rules it found. *)
Definition always_returns {A} (m : Writer.M A) : Prop :=
  forall w, exists a w',
    m w = Writer.Ok a w'
    /\ Writer.env w' = Writer.env w /\ Writer.var_re w' = Writer.var_re w.

(** A call that returns from every writer that has a Jinja environment and
    rewrite rules that do not raise, with a result that satisfies [Q], and
    leaves the environment and the rules there. *)
Definition safe {A} (Q : A -> Prop) (m : Writer.M A) : Prop :=
  forall w,
    Writer.env w <> None ->
    rules_return (Writer.var_re w) ->
    exists a w',
      m w = Writer.Ok a w'
      /\ Writer.env w' = Writer.env w /\ Writer.var_re w' = Writer.var_re w
      /\ Q a.







(** ** Properties *)
(** *** Histories *)

Lemma enters_app es1 es2 : enters (es1 ++ es2) = (enters es1 + enters es2)%nat.
Proof. induction es1 as [|[] r IH]; simpl; lia. Qed.

Lemma leaves_app es1 es2 : leaves (es1 ++ es2) = (leaves es1 + leaves es2)%nat.
Proof. induction es1 as [|[] r IH]; simpl; lia. Qed.

Lemma net_app es1 es2 : net (es1 ++ es2) = net es1 + net es2.
Proof. unfold net. rewrite enters_app, leaves_app. lia. Qed.

Lemma net_nil : net [] = 0.
Proof. reflexivity. Qed.

Lemma prefix_app_cases (p l1 l2 : list loop_event) :
  p `prefix_of` l1 ++ l2 ->
  p `prefix_of` l1 \/ exists k, p = l1 ++ k /\ k `prefix_of` l2.
Proof.
  revert p. induction l1 as [|x l1 IH]; intros p Hp.
  - right. exists p. split; [reflexivity | exact Hp].
  - destruct p as [|y p]; [left; apply prefix_nil|].
    simpl in Hp. apply prefix_cons_inv_1 in Hp as Hxy. subst y.
    apply prefix_cons_inv_2 in Hp.
    destruct (IH p Hp) as [H | [k [-> Hk]]].
    + left. apply prefix_cons, H.
    + right. exists k. split; [reflexivity | exact Hk].
Qed.

Lemma well_nested_nil : well_nested [].
Proof. intros p Hp. apply prefix_nil_inv in Hp. subst. reflexivity. Qed.

Lemma well_nested_net es : well_nested es -> 0 <= net es.
Proof. intros H. apply H. reflexivity. Qed.

Lemma well_nested_app es1 es2 :
  well_nested es1 -> well_nested es2 -> well_nested (es1 ++ es2).
Proof.
  intros H1 H2 p Hp.
  destruct (prefix_app_cases _ _ _ Hp) as [Hp1 | [k [-> Hk]]].
  - apply H1, Hp1.
  - rewrite net_app. pose proof (well_nested_net _ H1). pose proof (H2 _ Hk). lia.
Qed.

Lemma well_nested_bracket es :
  well_nested es -> well_nested (Enter :: es ++ [Leave]).
Proof.
  intros H p Hp.
  destruct p as [|e p]; [reflexivity|].
  apply prefix_cons_inv_1 in Hp as He. subst e.
  apply prefix_cons_inv_2 in Hp.
  destruct (prefix_app_cases _ _ _ Hp) as [Hp1 | [k [-> Hk]]].
  - pose proof (H _ Hp1). unfold net in *. simpl. lia.
  - pose proof (well_nested_net _ H).
    change (Enter :: es ++ k) with ([Enter] ++ es ++ k). rewrite !net_app.
    destruct k as [|e k].
    + unfold net in *. simpl. lia.
    + apply prefix_cons_inv_1 in Hk as He. subst e.
      apply prefix_cons_inv_2 in Hk. apply prefix_nil_inv in Hk. subst k.
      unfold net in *. simpl. lia.
Qed.

Lemma well_nested_enter es : well_nested es -> well_nested (Enter :: es).
Proof.
  intros H p Hp.
  destruct p as [|e p]; [reflexivity|].
  apply prefix_cons_inv_1 in Hp as He. subst e.
  apply prefix_cons_inv_2 in Hp.
  pose proof (H _ Hp). unfold net in *. simpl. lia.
Qed.
(** *** Scoped calls *)

Lemma reaches_refl w : reaches w w [].
Proof. split; [symmetry; apply app_nil_r | rewrite net_nil; lia]. Qed.

Lemma reaches_trans w1 w2 w3 es1 es2 :
  reaches w1 w2 es1 -> reaches w2 w3 es2 -> reaches w1 w3 (es1 ++ es2).
Proof.
  intros [E1 D1] [E2 D2]. split.
  - rewrite E2, E1. symmetry. apply app_assoc.
  - rewrite D2, D1, net_app. lia.
Qed.

(** A call that touches neither the loop depth nor the configuration. *)
Lemma scoped_still {A} (m : Writer.M A) :
  (forall w,
     Writer.loop_events (Writer.state_of (m w)) = Writer.loop_events w
     /\ Writer._loop_depth (Writer.state_of (m w)) = Writer._loop_depth w
     /\ frame (Writer.state_of (m w)) = frame w) ->
  scoped m.
Proof.
  intros H w. destruct (H w) as (He & Hd & Hf). exists []. split; [|split].
  - split; [rewrite He; symmetry; apply app_nil_r | rewrite Hd, net_nil; lia].
  - apply well_nested_nil.
  - intros a w' Hm. rewrite Hm in Hf. simpl in Hf. split; [apply net_nil | exact Hf].
Qed.

Lemma scoped_ret {A} (a : A) : scoped (Writer.ret a).
Proof. apply scoped_still. intros w. simpl. auto. Qed.

Lemma scoped_raise {A} (e : exn) : scoped (@Writer.raise A e).
Proof. apply scoped_still. intros w. simpl. auto. Qed.

Lemma scoped_no_attribute {A} : scoped (@no_attribute A).
Proof. apply scoped_raise. Qed.

Lemma scoped_attr {A} (f : Writer.t -> A) : scoped (Writer.attr f).
Proof. apply scoped_still. intros w. simpl. auto. Qed.

Lemma scoped_bind {A B} (m : Writer.M A) (f : A -> Writer.M B) :
  scoped m -> (forall a, scoped (f a)) -> scoped (Writer.bind m f).
Proof.
  intros Hm Hf w. destruct (Hm w) as (es1 & R1 & N1 & K1).
  unfold Writer.bind. destruct (m w) as [a w1 | e w1] eqn:E; simpl in R1.
  - destruct (Hf a w1) as (es2 & R2 & N2 & K2).
    exists (es1 ++ es2). split; [|split].
    + eapply reaches_trans; eassumption.
    + apply well_nested_app; assumption.
    + intros b w' Hb. destruct (K1 a w1 eq_refl) as [Z1 F1].
      destruct (K2 b w' Hb) as [Z2 F2].
      split; [rewrite net_app; lia | congruence].
  - exists es1. split; [|split]; [exact R1 | exact N1 | discriminate].
Qed.

Lemma scoped_when (c : bool) (m : Writer.M unit) :
  scoped m -> scoped (Writer.when c m).
Proof. intros H. destruct c; [exact H | apply scoped_ret]. Qed.

Lemma scoped_for_each {A} (f : A -> Writer.M unit) (l : list A) :
  Forall (fun x => scoped (f x)) l -> scoped (Writer.for_each f l).
Proof.
  induction 1 as [|x l Hx Hl IH]; simpl.
  - apply scoped_ret.
  - apply scoped_bind; [exact Hx | intros _; exact IH].
Qed.

Lemma scoped_body {A} (f : A -> Writer.M unit) (l : list A) :
  Forall (fun x => scoped (f x)) l -> scoped (Writer.body f l).
Proof. apply scoped_for_each. Qed.

Lemma scoped_for_enumerate_from {A} (f : nat -> A -> Writer.M unit) (l : list A) :
  Forall (fun x => forall idx, scoped (f idx x)) l ->
  forall idx, scoped (Writer.for_enumerate_from f idx l).
Proof.
  induction 1 as [|x l Hx Hl IH]; intros idx; simpl.
  - apply scoped_ret.
  - apply scoped_bind; [apply Hx | intros _; apply IH].
Qed.

Lemma scoped_for_enumerate {A} (f : nat -> A -> Writer.M unit) (l : list A) :
  Forall (fun x => forall idx, scoped (f idx x)) l ->
  scoped (Writer.for_enumerate f l).
Proof. intros H. apply scoped_for_enumerate_from, H. Qed.

Lemma scoped_for_fold {A S} (f : S -> A -> Writer.M S) (l : list A) :
  Forall (fun x => forall st, scoped (f st x)) l ->
  forall st, scoped (for_fold f st l).
Proof.
  induction 1 as [|x l Hx Hl IH]; intros st; simpl.
  - apply scoped_ret.
  - apply scoped_bind; [apply Hx | intros st'; apply IH].
Qed.

(** The assignments that leave the loop depth and the configuration. *)
Lemma scoped_write (s : string) : scoped (Writer.write s).
Proof. apply scoped_still. intros w. simpl. auto. Qed.

Lemma scoped_warn (message : string) (source : option Source) :
  scoped (Writer.warn message source).
Proof. apply scoped_still. intros w. simpl. auto. Qed.

Lemma scoped_set_resolved_simple_tags x :
  scoped (Writer.assign (Writer.set_resolved_simple_tags x)).
Proof. apply scoped_still. intros w. simpl. auto. Qed.
(** *** The methods of the writer are scoped *)

Create HintDb scoped.

#[export] Hint Resolve scoped_ret scoped_raise scoped_no_attribute scoped_attr
  scoped_write scoped_warn scoped_set_resolved_simple_tags : scoped.

(** One step through a call built from the combinators. *)
Ltac scoped_step :=
  cbv beta zeta;
  lazymatch goal with
  | |- scoped (Writer.bind _ _) => apply scoped_bind; [| intros ?]
  | |- scoped (Writer.when _ _) => apply scoped_when
  | |- scoped (Writer.for_each _ _) => apply scoped_for_each
  | |- scoped (Writer.body _ _) => apply scoped_body
  | |- scoped (Writer.for_enumerate _ _) => apply scoped_for_enumerate
  | |- scoped (for_fold _ _ _) => apply scoped_for_fold
  | |- scoped (if ?c then _ else _) => destruct c
  | |- scoped (match ?x with _ => _ end) => destruct x
  | |- scoped _ => solve [auto with scoped]
  | |- Forall _ _ => apply Forall_forall; intros ? _
  | |- forall _, _ => intros ?
  end.

Ltac scoped_steps := repeat scoped_step.

Lemma scoped__post_open : scoped Writer._post_open.
Proof. unfold Writer._post_open. scoped_steps. Qed.

Lemma scoped__pre_close : scoped Writer._pre_close.
Proof. unfold Writer._pre_close. scoped_steps. Qed.

#[export] Hint Resolve scoped__post_open scoped__pre_close : scoped.

Lemma scoped_start_variable : scoped Writer.start_variable.
Proof. unfold Writer.start_variable. scoped_steps. Qed.

Lemma scoped_end_variable always_safe : scoped (Writer.end_variable always_safe).
Proof. unfold Writer.end_variable. scoped_steps. Qed.

Lemma scoped_start_block : scoped Writer.start_block.
Proof. unfold Writer.start_block. scoped_steps. Qed.

Lemma scoped_end_block : scoped Writer.end_block.
Proof. unfold Writer.end_block. scoped_steps. Qed.

#[export] Hint Resolve scoped_start_variable scoped_end_variable
  scoped_start_block scoped_end_block : scoped.

Lemma scoped_print_expr expr : scoped (Writer.print_expr expr).
Proof. unfold Writer.print_expr. scoped_steps. Qed.

Lemma scoped_tag name : scoped (Writer.tag name).
Proof. unfold Writer.tag. scoped_steps. Qed.

Lemma scoped_in_loop : scoped Writer.in_loop.
Proof. apply scoped_attr. Qed.

#[export] Hint Resolve scoped_in_loop : scoped.

Lemma scoped_translate_variable_name var :
  scoped (Writer.translate_variable_name var).
Proof. unfold Writer.translate_variable_name. scoped_steps. Qed.

#[export] Hint Resolve scoped_print_expr scoped_tag
  scoped_translate_variable_name : scoped.

Lemma scoped_variable name : scoped (Writer.variable name).
Proof. unfold Writer.variable. scoped_steps. Qed.

Lemma scoped_literal value : scoped (Writer.literal value).
Proof. unfold Writer.literal. scoped_steps. Qed.

#[export] Hint Resolve scoped_variable scoped_literal : scoped.

Lemma scoped_filters_from (node : Var.t -> Writer.M unit) :
  (forall v, scoped (node v)) ->
  forall filters want_pipe, scoped (Writer.filters_from node want_pipe filters).
Proof.
  intros Hnode filters.
  induction filters as [|[filter args] rest IH]; intros want_pipe; simpl.
  - apply scoped_ret.
  - destruct (Writer.get_filter_name filter) as [name|].
    + scoped_steps.
    + scoped_steps.
Qed.

Lemma scoped_filters (node : Var.t -> Writer.M unit) filters is_block :
  (forall v, scoped (node v)) -> scoped (Writer.filters node filters is_block).
Proof. intros H. apply scoped_filters_from, H. Qed.

Lemma scoped_get_simple_tag_name tag : scoped (Writer.get_simple_tag_name tag).
Proof. unfold Writer.get_simple_tag_name. destruct tag; scoped_steps. Qed.

#[export] Hint Resolve scoped_get_simple_tag_name : scoped.
(** *** Dispatch on the values inside a node *)

Lemma node_Variable_eq v : node_Variable v = variable v.
Proof. reflexivity. Qed.

Lemma node_FilterExpression_eq fe : node_FilterExpression fe = filter_expression fe.
Proof. reflexivity. Qed.

Lemma node_bit_operator id first second :
  node_bit (BitCondition (Operator id first second)) = Writer.write id.
Proof. reflexivity. Qed.

Lemma scoped_variable_handler v : scoped (variable v).
Proof. unfold variable. scoped_steps. Qed.

Lemma scoped_node_Variable v : scoped (node_Variable v).
Proof. rewrite node_Variable_eq. apply scoped_variable_handler. Qed.

Lemma scoped_node_object cls : scoped (node_object cls).
Proof.
  unfold node_object, Writer_node_of.
  destruct (find_handler _ _) as [[]|]; auto with scoped.
Qed.

#[export] Hint Resolve scoped_node_Variable scoped_node_object : scoped.

Lemma scoped_filter_expression fe : scoped (filter_expression fe).
Proof.
  unfold filter_expression. scoped_steps.
  apply scoped_filters, scoped_node_Variable.
Qed.

Lemma scoped_node_FilterExpression fe : scoped (node_FilterExpression fe).
Proof. rewrite node_FilterExpression_eq. apply scoped_filter_expression. Qed.

#[export] Hint Resolve scoped_node_FilterExpression : scoped.

Lemma scoped_node_bit b : scoped (node_bit b).
Proof.
  destruct b as [value | [value | id first second]].
  - apply scoped_node_FilterExpression.
  - unfold node_bit, Writer_node_of. simpl. scoped_steps.
  - rewrite node_bit_operator. scoped_steps.
Qed.

#[export] Hint Resolve scoped_node_bit : scoped.

(** *** The regions: a loop body, an autoescape block, a spaceless block *)

Lemma loop_region_eq (m k : Writer.M unit) w :
  (Writer.enter_loop ;; m ;; Writer.leave_loop ;; k) w =
  match m (Writer.set_loop_depth (Writer._loop_depth w + 1) Enter w) with
  | Writer.Ok _ w2 =>
      k (Writer.set_loop_depth (Writer._loop_depth w2 - 1) Leave w2)
  | Writer.Raise e w2 => Writer.Raise e w2
  end.
Proof.
  unfold Writer.bind, Writer.enter_loop, Writer.leave_loop, Writer.assign.
  destruct (m _); reflexivity.
Qed.

Lemma scoped_loop_region (m k : Writer.M unit) :
  scoped m -> scoped k ->
  scoped (Writer.enter_loop ;; m ;; Writer.leave_loop ;; k).
Proof.
  intros Hm Hk w. rewrite loop_region_eq.
  set (w1 := Writer.set_loop_depth (Writer._loop_depth w + 1) Enter w).
  assert (R1 : reaches w w1 [Enter]) by (split; reflexivity).
  assert (F1 : frame w1 = frame w) by reflexivity.
  destruct (Hm w1) as (es & R2 & N2 & K2).
  destruct (m w1) as [[] w2 | e w2] eqn:E; simpl in R2.
  - destruct (K2 tt w2 eq_refl) as [Z2 F2].
    set (w3 := Writer.set_loop_depth (Writer._loop_depth w2 - 1) Leave w2).
    assert (R3 : reaches w2 w3 [Leave]) by (split; reflexivity).
    assert (F3 : frame w3 = frame w2) by reflexivity.
    destruct (Hk w3) as (es4 & R4 & N4 & K4).
    exists ((Enter :: es ++ [Leave]) ++ es4). split; [|split].
    + eapply reaches_trans; [|exact R4].
      change (Enter :: es ++ [Leave]) with ([Enter] ++ es ++ [Leave]).
      eapply reaches_trans; [exact R1|]. eapply reaches_trans; eassumption.
    + apply well_nested_app; [apply well_nested_bracket, N2 | exact N4].
    + intros a w' Hw'. destruct (K4 a w' Hw') as [Z4 F4]. split.
      * rewrite net_app. change (Enter :: es ++ [Leave]) with ([Enter] ++ es ++ [Leave]).
        rewrite !net_app. unfold net at 1 3. simpl. lia.
      * congruence.
  - exists (Enter :: es). split; [|split].
    + change (Enter :: es) with ([Enter] ++ es). eapply reaches_trans; eassumption.
    + apply well_nested_enter, N2.
    + discriminate.
Qed.

Lemma scoped_flag_region (set : bool -> Writer.t -> Writer.t) (get : Writer.t -> bool)
    (x : bool) (m : Writer.M unit) :
  (forall b w, Writer.loop_events (set b w) = Writer.loop_events w
               /\ Writer._loop_depth (set b w) = Writer._loop_depth w) ->
  (forall w w', frame w' = frame (set x w) -> frame (set (get w) w') = frame w) ->
  scoped m ->
  scoped (original ← Writer.attr get;
          Writer.assign (set x) ;; m ;; Writer.assign (set original)).
Proof.
  intros Hset Hback Hm w. unfold Writer.bind, Writer.attr, Writer.assign.
  destruct (Hset x w) as [E1 D1].
  destruct (Hm (set x w)) as (es & [E2 D2] & N2 & K2).
  destruct (m (set x w)) as [[] w2 | e w2] eqn:E; simpl in *.
  - destruct (K2 tt w2 eq_refl) as [Z2 F2].
    destruct (Hset (get w) w2) as [E3 D3].
    exists es. split; [|split].
    + split; congruence.
    + exact N2.
    + intros a w' Hw'. injection Hw' as _ <-. split; [exact Z2 | apply Hback, F2].
  - exists es. split; [|split]; [split; congruence | exact N2 | discriminate].
Qed.
(** *** The handlers of the nodes are scoped *)

Lemma scoped_ext {A} (m m' : Writer.M A) :
  (forall w, m w = m' w) -> scoped m -> scoped m'.
Proof.
  intros E H w. destruct (H w) as (es & R & N & K). exists es.
  rewrite <- E. split; [exact R | split; [exact N |]].
  intros a w' Hw'. apply (K a w' Hw').
Qed.

Lemma scoped_autoescape_region (setting : bool) (m : Writer.M unit) :
  scoped m ->
  scoped (original ← Writer.attr Writer.autoescape;
          Writer.assign (Writer.set_autoescape setting) ;; m ;;
          Writer.assign (Writer.set_autoescape original)).
Proof.
  apply (scoped_flag_region Writer.set_autoescape Writer.autoescape).
  - intros b w. split; reflexivity.
  - intros w w' H. destruct w, w'. unfold frame in *. simpl in *. congruence.
Qed.

Lemma scoped_spaceless_region (p m : Writer.M unit) :
  scoped p -> scoped m ->
  scoped (original ← Writer.attr Writer.spaceless;
          Writer.assign (Writer.set_spaceless true) ;; p ;; m ;;
          Writer.assign (Writer.set_spaceless original)).
Proof.
  intros Hp Hm.
  apply (scoped_ext
           (original ← Writer.attr Writer.spaceless;
            Writer.assign (Writer.set_spaceless true) ;; (p ;; m) ;;
            Writer.assign (Writer.set_spaceless original))).
  - intros w. unfold Writer.bind, Writer.attr, Writer.assign.
    destruct (p _); reflexivity.
  - apply (scoped_flag_region Writer.set_spaceless Writer.spaceless).
    + intros b w. split; reflexivity.
    + intros w w' H. destruct w, w'. unfold frame in *. simpl in *. congruence.
    + apply scoped_bind; [exact Hp | intros _; exact Hm].
Qed.

(** The step through a call, with the regions. *)
Ltac region_step :=
  cbv beta zeta;
  lazymatch goal with
  | |- scoped (Writer.bind Writer.enter_loop _) => apply scoped_loop_region
  | |- scoped (Writer.bind (Writer.attr Writer.autoescape) _) =>
      apply scoped_autoescape_region
  | |- scoped (Writer.bind (Writer.attr Writer.spaceless) _) =>
      apply scoped_spaceless_region
  | |- Forall _ _ => first [assumption | apply Forall_forall; intros ? _]
  | |- scoped ((match ?x with _ => _ end) _) => destruct x
  | _ => scoped_step
  end.

Ltac region_steps := repeat region_step.

Section Handlers_scoped.

Variable writer_node : node -> Writer.M unit.

Lemma scoped_text_node n : scoped (text_node n).
Proof. destruct n; simpl; region_steps. Qed.

Lemma scoped_variable_node n : scoped (variable_node n).
Proof. unfold variable_node. destruct n; region_steps. Qed.

Lemma scoped_debug_tag n : scoped (debug_tag n).
Proof. destruct n; simpl; region_steps. Qed.

Lemma scoped_include n : scoped (include n).
Proof. destruct n; simpl; region_steps. Qed.

Lemma scoped_next_raw_cycle_var this value :
  scoped (next_raw_cycle_var this value).
Proof.
  unfold next_raw_cycle_var. apply scoped_bind.
  - apply scoped_still. intros w. simpl. auto.
  - intros _. destruct value; auto with scoped.
Qed.

#[local] Hint Resolve scoped_next_raw_cycle_var : scoped.

Lemma scoped_cycle n : scoped (cycle n).
Proof. destruct n; simpl; region_steps. Qed.

Lemma scoped_template_tag n : scoped (template_tag n).
Proof. destruct n; simpl; region_steps. Qed.

Lemma scoped_url_tag n : scoped (url_tag n).
Proof. destruct n; simpl; region_steps. Qed.

Lemma scoped_width_ratio n : scoped (width_ratio n).
Proof. destruct n; simpl; region_steps. Qed.

Lemma scoped_regroup n : scoped (regroup n).
Proof. destruct n; simpl; region_steps. Qed.

Lemma scoped_get_available_languages n : scoped (get_available_languages n).
Proof. destruct n; simpl; region_steps. Qed.

Lemma scoped_get_current_language n : scoped (get_current_language n).
Proof. destruct n; simpl; region_steps. Qed.

Lemma scoped_get_current_language_bidi n : scoped (get_current_language_bidi n).
Proof. destruct n; simpl; region_steps. Qed.

Lemma scoped_simple_gettext n : scoped (simple_gettext n).
Proof. destruct n; simpl; region_steps. Qed.

Lemma scoped_dump_token_list tokens locals : scoped (dump_token_list tokens locals).
Proof. unfold dump_token_list. region_steps. Qed.

Hint Resolve scoped_dump_token_list : scoped.

Lemma scoped_translate_block n : scoped (translate_block n).
Proof. destruct n; simpl; region_steps. Qed.

Lemma scoped_simple_tag n : scoped (simple_tag n).
Proof. unfold simple_tag. region_steps. Qed.

Lemma scoped_inclusion_tag n : scoped (inclusion_tag n).
Proof. unfold inclusion_tag. region_steps. Qed.

Lemma scoped_static_tag n : scoped (static_tag n).
Proof. destruct n; simpl; region_steps. Qed.

Lemma scoped_csrf_tag n : scoped (csrf_tag n).
Proof. unfold csrf_tag. region_steps. Qed.

Lemma scoped_verbatim_tag n : scoped (verbatim_tag n).
Proof. unfold verbatim_tag. region_steps. Qed.

Lemma scoped_lorem_tag n : scoped (lorem_tag n).
Proof. destruct n; simpl; region_steps. Qed.

End Handlers_scoped.
(** *** The handlers that translate child nodes *)

Section Recursive_handlers_scoped.

Variable writer_node : node -> Writer.M unit.

Lemma scoped_for_loop loopvars is_reversed sequence nodelist_loop nodelist_empty :
  Forall (fun x => scoped (writer_node x)) nodelist_loop -> Forall (fun x => scoped (writer_node x)) nodelist_empty ->
  scoped (for_loop writer_node
            (ForNode loopvars is_reversed sequence nodelist_loop nodelist_empty)).
Proof. intros H1 H2. simpl. region_steps. Qed.

Lemma scoped_if_condition conditions_nodelists :
  Forall (fun x => Forall (fun y => scoped (writer_node y)) (snd x)) conditions_nodelists ->
  scoped (if_condition writer_node (IfNode conditions_nodelists)).
Proof.
  intros H. simpl. apply scoped_bind; [|intros _; apply scoped_tag].
  apply scoped_for_enumerate.
  eapply Forall_impl; [exact H|]. intros [condition nodelist] Hn idx.
  simpl in Hn. region_steps.
Qed.

Lemma scoped_if_equal var1 var2 nodelist_true nodelist_false negate :
  Forall (fun x => scoped (writer_node x)) nodelist_true -> Forall (fun x => scoped (writer_node x)) nodelist_false ->
  scoped (if_equal writer_node
            (IfEqualNode var1 var2 nodelist_true nodelist_false negate)).
Proof. intros H1 H2. simpl. region_steps. Qed.

Lemma scoped_block name nodelist parent :
  scoped (block_root_body writer_node (BlockNode name nodelist parent)) ->
  scoped (block writer_node (BlockNode name nodelist parent)).
Proof. intros H. unfold block. region_steps. Qed.

Lemma scoped_extends parent_name nodelist :
  Forall (fun x => scoped (writer_node x)) nodelist ->
  scoped (extends writer_node (ExtendsNode parent_name nodelist)).
Proof. intros H. simpl. region_steps. Qed.

Lemma scoped_filter filter_expr nodelist :
  Forall (fun x => scoped (writer_node x)) nodelist ->
  scoped (filter writer_node (FilterNode filter_expr nodelist)).
Proof.
  intros H. simpl. region_steps. apply scoped_filters, scoped_node_Variable.
Qed.

Lemma scoped_autoescape_control setting nodelist :
  Forall (fun x => scoped (writer_node x)) nodelist ->
  scoped (autoescape_control writer_node (AutoEscapeControlNode setting nodelist)).
Proof. intros H. simpl. region_steps. Qed.

Lemma scoped_spaceless_body nodelist :
  Forall (fun x => scoped (writer_node x)) nodelist ->
  forall first, scoped (spaceless_body writer_node first nodelist).
Proof.
  induction 1 as [|x rest Hx Hrest IH]; intros first; simpl.
  - apply scoped_ret.
  - apply scoped_bind; [|intros _; apply IH].
    destruct x; try exact Hx.
    destruct (first || bool_decide (rest = [])); [apply scoped_write | exact Hx].
Qed.

Lemma scoped_spaceless nodelist source :
  Forall (fun x => scoped (writer_node x)) nodelist ->
  scoped (spaceless writer_node (SpacelessNode nodelist source)).
Proof.
  intros H. simpl. apply scoped_spaceless_region.
  - apply scoped_warn.
  - apply scoped_spaceless_body, H.
Qed.

Lemma scoped_with_block extra_context nodelist :
  Forall (fun x => scoped (writer_node x)) nodelist ->
  scoped (with_block writer_node (WithNode extra_context nodelist)).
Proof. intros H. simpl. region_steps. Qed.

End Recursive_handlers_scoped.
(** *** Dispatch on a node *)

Lemma Writer_node_eq n :
  Writer_node n = Writer_node_of (class_of n) (source_of n) (call Writer_node) n.
Proof. destruct n; reflexivity. Qed.

Lemma Writer_node_known n handler :
  find_handler _node_handlers (class_of n) = Some handler ->
  Writer_node n = call Writer_node handler n.
Proof.
  intros H. rewrite Writer_node_eq. unfold Writer_node_of. rewrite H. reflexivity.
Qed.

Lemma Writer_node_unknown n :
  find_handler _node_handlers (class_of n) = None ->
  Writer_node n =
  Writer.warn
    ("Untranslatable node " +:+ class_module (class_of n) +:+ "."
     +:+ class_name (class_of n) +:+ " found") (source_of n).
Proof.
  intros H. rewrite Writer_node_eq. unfold Writer_node_of. rewrite H. reflexivity.
Qed.

(** Only a node of a class the module does not know can miss the table,
    and then its class bears none of the three names among the keys. *)
Lemma find_handler_None n :
  find_handler _node_handlers (class_of n) = None ->
  exists cls source,
    n = Foreign cls source
    /\ __name__ cls <> "Operator"%string
    /\ __name__ cls <> "SimpleNode"%string
    /\ __name__ cls <> "InclusionNode"%string.
Proof.
  destruct n; try discriminate. intros H. exists cls, source.
  split; [reflexivity|]. simpl in H.
  destruct (String.eqb_spec (__name__ cls) "Operator"); [discriminate|].
  destruct (String.eqb_spec (__name__ cls) "SimpleNode"); [discriminate|].
  destruct (String.eqb_spec (__name__ cls) "InclusionNode"); [discriminate|].
  auto.
Qed.

Lemma find_handler_Foreign cls :
  find_handler _node_handlers (Cls.Other cls) =
  if String.eqb (__name__ cls) "Operator" then Some Handler.operator
  else if String.eqb (__name__ cls) "SimpleNode" then Some Handler.simple_tag
  else if String.eqb (__name__ cls) "InclusionNode" then Some Handler.inclusion_tag
  else None.
Proof. reflexivity. Qed.

(** *** Every node is translated by a scoped call *)

Lemma list_all_Forall (P : node -> Prop) (l : list node) :
  list_all node P l -> Forall P l.
Proof. induction 1; constructor; assumption. Qed.

Lemma branches_all_Forall (P : node -> Prop)
    (l : list (option condition * list node)) :
  list_all (option condition * list node)
    (prod_all (option condition) (fun _ => unit) (list node) (list_all node P)) l ->
  Forall (fun x => Forall P (snd x)) l.
Proof.
  induction 1 as [|x Hx l Hl IH]; constructor; [|exact IH].
  destruct Hx as [c _ nodelist Hn]. apply list_all_Forall, Hn.
Qed.

Lemma Forall_and_l {A} (P Q : A -> Prop) (l : list A) :
  Forall (fun x => P x /\ Q x) l -> Forall P l.
Proof. intros H. eapply Forall_impl; [exact H|]. intros x [Hx _]. exact Hx. Qed.

Lemma scoped_Foreign cls source : scoped (Writer_node (Foreign cls source)).
Proof.
  rewrite Writer_node_eq. unfold Writer_node_of. simpl class_of.
  rewrite find_handler_Foreign.
  destruct (String.eqb _ "Operator"); [apply scoped_no_attribute|].
  destruct (String.eqb _ "SimpleNode"); [apply scoped_simple_tag|].
  destruct (String.eqb _ "InclusionNode"); [apply scoped_inclusion_tag|].
  apply scoped_warn.
Qed.

Lemma scoped_Writer_node_and_root n :
  scoped (Writer_node n) /\ scoped (block_root_body Writer_node n).
Proof.
  induction n;
    repeat match goal with
           | H : list_all node _ _ |- _ =>
               apply list_all_Forall, Forall_and_l in H
           | H : list_all (_ * _) _ _ |- _ =>
               apply branches_all_Forall in H
           end;
    (split;
     [ try (erewrite Writer_node_known by reflexivity; unfold call)
     | try (simpl; apply scoped_no_attribute) ]).
  all: try solve
    [ apply scoped_text_node | apply scoped_variable_node | apply scoped_ret
    | apply scoped_debug_tag | apply scoped_for_loop; assumption
    | apply scoped_if_equal; assumption | apply scoped_extends; assumption
    | apply scoped_include | apply scoped_cycle
    | apply scoped_filter; assumption
    | apply scoped_autoescape_control; assumption
    | apply scoped_spaceless; assumption | apply scoped_template_tag
    | apply scoped_url_tag | apply scoped_width_ratio
    | apply scoped_with_block; assumption | apply scoped_regroup
    | apply scoped_get_available_languages | apply scoped_get_current_language
    | apply scoped_get_current_language_bidi | apply scoped_simple_gettext
    | apply scoped_translate_block | apply scoped_simple_tag
    | apply scoped_inclusion_tag | apply scoped_static_tag
    | apply scoped_csrf_tag | apply scoped_verbatim_tag | apply scoped_lorem_tag
    | apply scoped_Foreign ].
  - (* IfNode *)
    apply scoped_if_condition. eapply Forall_impl; [eassumption|].
    intros x Hx. apply (Forall_and_l _ _ _ Hx).
  - (* BlockNode, as a node *)
    apply scoped_block.
    match goal with
    | X : option_all _ _ _ |- _ => destruct X as [p [_ Hp] |]; simpl
    end.
    + exact Hp.
    + apply scoped_body. assumption.
  - (* BlockNode, as the end of a chain of parents *)
    match goal with
    | X : option_all _ _ _ |- _ => destruct X as [p [_ Hp] |]; simpl
    end.
    + exact Hp.
    + apply scoped_body. assumption.
Qed.

Lemma scoped_Writer_node n : scoped (Writer_node n).
Proof. apply scoped_Writer_node_and_root. Qed.

Lemma scoped_Writer_body nodes : scoped (Writer_body nodes).
Proof.
  apply scoped_body, Forall_forall. intros n _. apply scoped_Writer_node.
Qed.
(** *** The loop depth *)

Lemma net_zero_balanced es : net es = 0 -> enters es = leaves es.
Proof. unfold net. lia. Qed.

(** C8. Translating a node, a loop node with any nesting of loops in its
    body in particular, from a writer whose loop depth is not negative:
    the history [es] of the calls of [enter_loop] and [leave_loop] made on
    the way is such that after each of them the depth is not negative,
    whether the translation returns or raises; the final depth is the
    initial one plus what the history adds; and when the handler returns,
    the history has as many [Enter] as [Leave] and the depth is what it
    was before. *)
Theorem loop_depth_balanced (n : node) (w : Writer.t) :
  0 <= Writer._loop_depth w ->
  exists es,
    Writer.loop_events (Writer.state_of (Writer_node n w))
    = Writer.loop_events w ++ es
    /\ (forall p, p `prefix_of` es -> 0 <= Writer._loop_depth w + net p)
    /\ Writer._loop_depth (Writer.state_of (Writer_node n w))
       = Writer._loop_depth w + net es
    /\ (forall w', Writer_node n w = Writer.Ok tt w' ->
        enters es = leaves es
        /\ Writer._loop_depth w' = Writer._loop_depth w).
Proof.
  intros Hw. destruct (scoped_Writer_node n w) as (es & [He Hd] & Hn & Hk).
  exists es. split; [exact He|]. split; [|split; [exact Hd|]].
  - intros p Hp. pose proof (Hn p Hp). lia.
  - intros w' Hw'. destruct (Hk tt w' Hw') as [Hz _].
    split; [apply net_zero_balanced, Hz|].
    rewrite Hw' in Hd. simpl in Hd. lia.
Qed.

Lemma loop_depth_balanced_witness :
  0 <= Writer._loop_depth Writer.default
  /\ exists es,
       Writer.loop_events (Writer.state_of (Writer_node item_loop Writer.default))
       = Writer.loop_events Writer.default ++ es
       /\ (forall p, p `prefix_of` es ->
           0 <= Writer._loop_depth Writer.default + net p)
       /\ Writer._loop_depth (Writer.state_of (Writer_node item_loop Writer.default))
          = Writer._loop_depth Writer.default + net es
       /\ (forall w', Writer_node item_loop Writer.default = Writer.Ok tt w' ->
           enters es = leaves es
           /\ Writer._loop_depth w' = Writer._loop_depth Writer.default).
Proof.
  split; [simpl; lia|].
  apply (loop_depth_balanced item_loop Writer.default). simpl. lia.
Defined.

(** The history of a loop inside a loop, and the depth inside its body. *)
Example nested_loops_history :
  Writer.loop_events
    (Writer.state_of
       (Writer_node
          (ForNode ["a"%string] false (name_expression "xs")
             [ForNode ["b"%string] false (name_expression "ys") [] []] [])
          Writer.default))
  = [Enter; Enter; Leave; Leave].
Proof. vm_compute. reflexivity. Qed.

(** An exception in the body of a loop leaves the depth raised: nothing
    calls [leave_loop] on the way out. *)
Example raise_in_loop_keeps_depth :
  exists w,
    Writer_node
      (ForNode ["a"%string] false (name_expression "xs")
         [WidthRatioNode (name_expression "x") (name_expression "y") None None] [])
      Writer.default
    = Writer.Raise TypeError w
    /\ Writer._loop_depth w = 1.
Proof. eexists. split; [vm_compute; reflexivity | reflexivity]. Qed.

(** *** Autoescape and spaceless regions *)

(** What a scoped call leaves as it was when it returns. *)
Lemma scoped_returns {A} (m : Writer.M A) w a w' :
  scoped m -> m w = Writer.Ok a w' ->
  frame w' = frame w /\ Writer._loop_depth w' = Writer._loop_depth w.
Proof.
  intros H Hm. destruct (H w) as (es & [He Hd] & Hn & Hk).
  destruct (Hk a w' Hm) as [Hz Hf]. split; [exact Hf|].
  rewrite Hm in Hd. simpl in Hd. lia.
Qed.

(** C9. When the handler of an autoescape region returns, whatever the
    nodes inside the region, [autoescape] has the value it had before the
    handler was called; when the handler of a spaceless region returns,
    so has [spaceless]. In both cases the other flag, the delimiters, the
    rewrite rules, the Jinja environment and the loop depth are as before
    too: of the state of the writer only the two streams may differ. *)
Theorem region_restores_state :
  (forall setting nodelist w w',
     Writer_node (AutoEscapeControlNode setting nodelist) w = Writer.Ok tt w' ->
     Writer.autoescape w' = Writer.autoescape w
     /\ frame w' = frame w
     /\ Writer._loop_depth w' = Writer._loop_depth w)
  /\ (forall nodelist source w w',
       Writer_node (SpacelessNode nodelist source) w = Writer.Ok tt w' ->
       Writer.spaceless w' = Writer.spaceless w
       /\ frame w' = frame w
       /\ Writer._loop_depth w' = Writer._loop_depth w).
Proof.
  split; intros; 
    match goal with
    | H : Writer_node ?n _ = _ |- _ =>
        destruct (scoped_returns _ _ _ _ (scoped_Writer_node n) H) as [Hf Hd]
    end;
    (split; [unfold frame in Hf; congruence | split; assumption]).
Qed.

Lemma region_restores_state_witness :
  Writer_node
    (SpacelessNode
       [AutoEscapeControlNode false [VariableNode (name_expression "x")]] None)
    Writer.default
  = Writer.Ok tt
      (Writer.state_of
         (Writer_node
            (SpacelessNode
               [AutoEscapeControlNode false [VariableNode (name_expression "x")]]
               None)
            Writer.default))
  /\ Writer.spaceless
       (Writer.state_of
          (Writer_node
             (SpacelessNode
                [AutoEscapeControlNode false [VariableNode (name_expression "x")]]
                None)
             Writer.default))
     = Writer.spaceless Writer.default.
Proof.
  assert (H : Writer_node
                (SpacelessNode
                   [AutoEscapeControlNode false
                      [VariableNode (name_expression "x")]] None)
                Writer.default
              = Writer.Ok tt
                  (Writer.state_of
                     (Writer_node
                        (SpacelessNode
                           [AutoEscapeControlNode false
                              [VariableNode (name_expression "x")]] None)
                        Writer.default)))
    by (vm_compute; reflexivity).
  split; [exact H|].
  exact (proj1 (proj2 region_restores_state _ _ _ _ H)).
Defined.

(** Inside the regions the flags are those of the regions, and after them
    those of before: the variable inside is printed with trim markers and
    without the escape filter, the one after with neither change. *)
Example regions_are_scoped :
  Writer.stream
    (Writer.state_of
       (Writer_body
          [SpacelessNode
             [AutoEscapeControlNode false [VariableNode (name_expression "x")]]
             None;
           VariableNode (name_expression "y")]
          Writer.default))
  = "{{- x -}}{{ y|e }}"%string.
Proof. vm_compute. reflexivity. Qed.
(** *** Conditions *)

(** C5. The bits of [A and not B] are, in this order, the value [A], the
    operator [and], the operator [not] and the value [B]; read as text they
    are [A], [and], [not], [B], which is neither [A not B and] nor
    [not B and A]. *)
Theorem and_not_reads_left_to_right (A B : FilterExpression.t) :
  if_condition_to_bits (and_not A B)
  = [ BitValue A;
      BitCondition (and_not A B);
      BitCondition (Operator "not" (Literal B) None);
      BitValue B ]
  /\ map bit_text (if_condition_to_bits (and_not A B))
     = [FilterExpression.token A; "and"; "not"; FilterExpression.token B]%string.
Proof. split; reflexivity. Qed.

(** The two other orders, for two values with different tokens. *)
Example and_not_other_orders :
  let bits :=
    map bit_text
      (if_condition_to_bits (and_not (name_expression "A") (name_expression "B"))) in
  bits = ["A"; "and"; "not"; "B"]%string
  /\ bits <> ["A"; "not"; "B"; "and"]%string
  /\ bits <> ["not"; "B"; "and"; "A"]%string.
Proof. cbv. split; [reflexivity | split; discriminate]. Qed.

(** The condition as the handler of [if] writes it. *)
Example if_and_not_text :
  Writer.stream
    (Writer.state_of
       (Writer_node
          (IfNode
             [ (Some (and_not (name_expression "A") (name_expression "B")),
                [TextNode "X"]);
               (None, [TextNode "Y"]) ])
          Writer.default))
  = "{% if A and not B %}X{% else %}Y{% endif %}"%string.
Proof. vm_compute. reflexivity. Qed.

(** A binary operator puts the bits of its first operand before its own and
    those of its second operand after. *)
Lemma if_condition_to_bits_infix id first second :
  is_not id = false ->
  if_condition_to_bits (Operator id first (Some second))
  = if_condition_to_bits first
    ++ [BitCondition (Operator id first (Some second))]
    ++ if_condition_to_bits second.
Proof.
  intros H. unfold if_condition_to_bits. simpl. rewrite H.
  rewrite !rev_app_distr. simpl. rewrite <- app_assoc. reflexivity.
Qed.

(** *** Identifiers *)

(** What the loop over the rules computes: the substitution of the first
    rule whose pattern is found in the name, whatever its exclusion pattern,
    and the name itself if there is none. *)
Lemma translate_rules_first_match rules var :
  Writer.translate_rules rules var
  = match find (fun rule => search (fst (fst rule)) var) rules with
    | Some (reg, rep, _) => sub reg rep var
    | None => Some var
    end.
Proof.
  induction rules as [|[[reg rep] unless] rest IH]; simpl; [reflexivity|].
  rewrite orb_true_r, andb_true_r. destruct (search reg var); [reflexivity | exact IH].
Qed.

(** C2, on the code: the rule [user -> u unless name] is applied to
    [user.name], although its exclusion pattern is found in the name. *)
Theorem exclusion_pattern_is_ignored :
  search (literal_pattern "name") "user.name" = true
  /\ Writer.translate_rules
       [(literal_pattern "user", "u"%string, Some (literal_pattern "name"))]
       "user.name"
     = Some "u.name"%string
  /\ Writer.translate_variable_name "user.name"
       (writer_with_rules
          [(literal_pattern "user", "u"%string, Some (literal_pattern "name"))])
     = Writer.Ok "u.name"%string
         (writer_with_rules
            [(literal_pattern "user", "u"%string, Some (literal_pattern "name"))]).
Proof. repeat split; reflexivity. Qed.

(** One substitution at most: the second rule is not applied to the result
    of the first. *)
Example translate_rules_stops :
  Writer.translate_rules
    [ (literal_pattern "a", "b"%string, None);
      (literal_pattern "b", "c"%string, None) ] "a"
  = Some "b"%string.
Proof. reflexivity. Qed.

(** A name that starts with [forloop.] loses its first three characters
    at any loop depth. *)
Lemma translate_variable_name_forloop_dot var w :
  Py.startswith var "forloop." = true ->
  Writer.translate_variable_name var w
  = translated (Writer.translate_rules (Writer.var_re w) (Py.slice_from 3 var)) w.
Proof.
  intros H. unfold Writer.translate_variable_name, Writer.bind, Writer.in_loop,
    Writer.attr, Writer.ret.
  rewrite H, orb_true_r. destruct (Writer.translate_rules _ _); reflexivity.
Qed.

(** The name [forloop] itself loses them inside a loop only. *)
Lemma translate_variable_name_forloop w :
  Writer.translate_variable_name "forloop" w
  = translated
      (Writer.translate_rules (Writer.var_re w)
         (if 0 <? Writer._loop_depth w then "loop" else "forloop")) w.
Proof.
  unfold Writer.translate_variable_name, Writer.bind, Writer.in_loop,
    Writer.attr, Writer.ret.
  destruct (0 <? Writer._loop_depth w); simpl;
    destruct (Writer.translate_rules _ _); reflexivity.
Qed.

(** C3, on the code: at loop depth 0 the name [forloop.counter] reaches the
    rules as [loop.counter]. *)
Theorem forloop_prefix_stripped_outside_loop :
  Writer._loop_depth Writer.default = 0
  /\ Writer.translate_variable_name "forloop.counter" Writer.default
     = Writer.Ok "loop.counter"%string Writer.default.
Proof. split; reflexivity. Qed.
(** *** Filters *)

(** Without a Jinja environment, the first filter that has a name makes
    [filters] raise: [self.env] is [None] and has no attribute [filters]. *)
Lemma filters_without_env node filter args rest name is_block w :
  Writer.env w = None ->
  Writer.get_filter_name filter = Some name ->
  Writer.filters node ((filter, args) :: rest) is_block w
  = Writer.Raise AttributeError w.
Proof.
  intros He Hn. unfold Writer.filters. simpl. rewrite Hn.
  unfold Writer.bind, Writer.attr. rewrite He. reflexivity.
Qed.

(** C4, on the code: the default writer has no Jinja environment, and
    translating the variable node of [x|upper] with it raises, the name of
    the variable being written already. *)
Theorem filters_raise_without_env :
  Writer.env Writer.default = None
  /\ Writer_node (VariableNode (filtered_expression "x" "upper")) Writer.default
     = Writer.Raise AttributeError
         (Writer.set_stream "{{ x" Writer.default).
Proof. split; reflexivity. Qed.

(** With an environment the same node is translated, with a warning when
    the environment does not know the filter. *)
Example filters_with_env :
  let env := {| Jinja.filters := {["upper"%string]}; Jinja.globals := ∅ |} in
  let w := Writer.__init__ "{%" "%}" "{{" "}}" "{#" "#}" true false None (Some env) None [] ∅ in
  let w1 := Writer.state_of (Writer_node (VariableNode (filtered_expression "x" "upper")) w) in
  let w2 := Writer.state_of (Writer_node (VariableNode (filtered_expression "x" "lower")) w) in
  (Writer.stream w1, Writer.error_stream w1) = ("{{ x|upper|e }}"%string, [])
  /\ (Writer.stream w2, Writer.error_stream w2)
     = ("{{ x|lower|e }}"%string,
        ["Filter lower probably doesn't exist in Jinja"%string]).
Proof. vm_compute. split; reflexivity. Qed.

(** *** The variable node *)

Lemma Writer_node_VariableNode fe :
  Writer_node (VariableNode fe) = variable_node (VariableNode fe).
Proof. reflexivity. Qed.

(** With a rule that rewrites [block.super]: without filters the rule is not
    applied, with a filter it is. *)
Example block_super_and_rules :
  let env := {| Jinja.filters := {["upper"%string]}; Jinja.globals := ∅ |} in
  let w :=
    Writer.__init__ "{%" "%}" "{{" "}}" "{#" "#}" true false
      (Some [(literal_pattern "block.super", "parent"%string, None)])
      (Some env) None [] ∅ in
  Writer.stream
    (Writer.state_of (Writer_node (VariableNode (name_expression "block.super")) w))
  = "{{ super()|e }}"%string
  /\ Writer.stream
       (Writer.state_of
          (Writer_node (VariableNode (filtered_expression "block.super" "upper")) w))
     = "{{ parent|upper|e }}"%string.
Proof. vm_compute. split; reflexivity. Qed.
(** *** Nodes without a handler *)

Lemma Writer_body_cons n rest w :
  Writer_body (n :: rest) w
  = match Writer_node n w with
    | Writer.Ok _ w' => Writer_body rest w'
    | Writer.Raise e w' => Writer.Raise e w'
    end.
Proof. reflexivity. Qed.

(** C7. For a node whose class matches no key of the table, neither as a
    class nor by its name, [Writer.node] returns after one warning and
    nothing else: the output stream and all the rest of the writer are as
    before, and the error stream has one more line, the message
    [Untranslatable node <module>.<class> found], behind the place
    [[<name>:<line>] ] when the node has a [source]. [Writer.body] then goes
    on with the nodes that follow. *)
Theorem untranslatable_node_warns_once (n : node) (rest : list node) (w : Writer.t) :
  find_handler _node_handlers (class_of n) = None ->
  let message :=
    ("Untranslatable node " +:+ class_module (class_of n) +:+ "."
     +:+ class_name (class_of n) +:+ " found")%string in
  let line :=
    match source_of n with
    | Some (origin, position) =>
        ("[" +:+ fst (Writer.get_location origin position) +:+ ":"
         +:+ Py.str_int (snd (Writer.get_location origin position)) +:+ "] "
         +:+ message)%string
    | None => message
    end in
  let w' := Writer.set_error_stream (Writer.error_stream w ++ [line]) w in
  Writer_node n w = Writer.Ok tt w'
  /\ Writer.stream w' = Writer.stream w
  /\ Writer.error_stream w' = Writer.error_stream w ++ [line]
  /\ Writer_body (n :: rest) w = Writer_body rest w'.
Proof.
  intros H message line w'.
  assert (E : Writer_node n w = Writer.Ok tt w').
  { rewrite (Writer_node_unknown n H). unfold Writer.warn, Writer.assign.
    subst w' line message. destruct (source_of n) as [[origin position]|].
    - destruct (Writer.get_location origin position). reflexivity.
    - reflexivity. }
  split; [exact E|]. split; [reflexivity|]. split; [reflexivity|].
  rewrite Writer_body_cons, E. reflexivity.
Qed.

Lemma untranslatable_node_warns_once_witness :
  find_handler _node_handlers
    (class_of
       (Foreign {| __module__ := "myapp.templatetags.my"; __name__ := "MyNode" |}
          None))
  = None
  /\ Writer.error_stream
       (Writer.state_of
          (Writer_body
             [ Foreign {| __module__ := "myapp.templatetags.my"; __name__ := "MyNode" |}
                 None;
               TextNode "after" ] Writer.default))
     = ["Untranslatable node myapp.templatetags.my.MyNode found"%string].
Proof.
  split; [reflexivity|].
  rewrite (proj2 (proj2 (proj2
    (untranslatable_node_warns_once
       (Foreign {| __module__ := "myapp.templatetags.my"; __name__ := "MyNode" |}
          None)
       [TextNode "after"] Writer.default eq_refl)))).
  reflexivity.
Defined.

(** A node with a [source]: the line of the warning starts with the place,
    and the text after the node is written. *)
Example untranslatable_node_with_source :
  let n :=
    Foreign {| __module__ := "myapp.templatetags.my"; __name__ := "MyNode" |}
      (Some (StringOrigin ("a" +:+ Py.str1 Py.LF +:+ "b"), (3, 5))) in
  let w := Writer.state_of (Writer_body [n; TextNode "after"] Writer.default) in
  Writer.stream w = "after"%string
  /\ Writer.error_stream w
     = ["[<unknown source>:2] Untranslatable node myapp.templatetags.my.MyNode found"%string].
Proof. vm_compute. split; reflexivity. Qed.

(** A node of an unknown class called [SimpleNode] matches the key of that
    name; the handler then fails on the deleted global [node]. *)
Example foreign_SimpleNode_raises :
  Writer_node (Foreign {| __module__ := "myapp"; __name__ := "SimpleNode" |} None)
    Writer.default
  = Writer.Raise NameError Writer.default.
Proof. reflexivity. Qed.
(** *** The loop of the scenario *)

Lemma append_assoc (a b c : string) : (a +:+ b) +:+ c = a +:+ (b +:+ c).
Proof.
  induction a as [|x a IH]; [reflexivity|].
  change (String x ((a +:+ b) +:+ c) = String x (a +:+ (b +:+ c))).
  f_equal. exact IH.
Qed.

Lemma append_cons (c : ascii) (s t : string) :
  String c s +:+ t = String c (s +:+ t).
Proof. reflexivity. Qed.

(** A name that neither is [forloop] nor starts with [forloop.] reaches the
    rules as it is. *)
Lemma translate_variable_name_other var w :
  String.eqb var "forloop" = false ->
  Py.startswith var "forloop." = false ->
  Writer.translate_variable_name var w
  = translated (Writer.translate_rules (Writer.var_re w) var) w.
Proof.
  intros H1 H2. unfold Writer.translate_variable_name, Writer.bind,
    Writer.in_loop, Writer.attr, Writer.ret.
  rewrite H1, H2, andb_false_r. destruct (Writer.translate_rules _ _); reflexivity.
Qed.

(** C1, as the code has it: from a writer with the default configuration,
    the loop [for item in items] over the variable node of [item.name] is
    translated without an exception, nothing is written to the error
    stream, and the text added to the output stream is
    [{% for item in items %}{{ item.name|e }}{% endfor %}]: the handlers
    write no white space between one tag and the next. *)
Theorem item_loop_text (w : Writer.t) :
  default_configuration w ->
  exists w',
    Writer_node item_loop w = Writer.Ok tt w'
    /\ Writer.stream w'
       = Writer.stream w
         +:+ "{% for item in items %}{{ item.name|e }}{% endfor %}"
    /\ Writer.error_stream w' = Writer.error_stream w.
Proof.
  destruct w as [out err bs be vs ve cs ce autoescape spaceless jinja d rules env
                   cache libs iterators events].
  unfold default_configuration. simpl.
  intros (-> & -> & -> & -> & -> & -> & -> & ->).
  eexists. split.
  - repeat (cbv -[String.append Z.add Z.sub Writer.translate_variable_name];
            rewrite translate_variable_name_other by reflexivity).
    cbv -[String.append Z.add Z.sub]. reflexivity.
  - split; [simpl; rewrite !append_assoc; reflexivity | reflexivity].
Qed.

Lemma item_loop_text_witness :
  default_configuration Writer.default
  /\ exists w',
       Writer_node item_loop Writer.default = Writer.Ok tt w'
       /\ Writer.stream w'
          = Writer.stream Writer.default
            +:+ "{% for item in items %}{{ item.name|e }}{% endfor %}"
       /\ Writer.error_stream w' = Writer.error_stream Writer.default.
Proof.
  assert (H : default_configuration Writer.default)
    by (unfold default_configuration; simpl; repeat split; reflexivity).
  split; [exact H|]. exact (item_loop_text Writer.default H).
Defined.

(** C1, as the claim words it: the text with a space between the tags is
    not what the default writer writes. *)
Lemma item_loop_text_not_spaced :
  Writer.stream (Writer.state_of (Writer_node item_loop Writer.default))
  <> "{% for item in items %} {{ item.name|e }} {% endfor %}"%string.
Proof. vm_compute. discriminate. Qed.
(** *** The loops written by recursion, and the source's shape *)

Lemma strip_last_text_cons (x y : node) (rest : list node) :
  strip_last_text (x :: y :: rest) = x :: strip_last_text (y :: rest).
Proof.
  unfold strip_last_text. simpl.
  destruct ((y :: rest) !! length rest) as [[]|]; reflexivity.
Qed.

Lemma Writer_node_TextNode (s : string) :
  Writer_node (TextNode s) = text_node (TextNode s).
Proof. reflexivity. Qed.

Lemma spaceless_body_rest (nodelist : list node) (w : Writer.t) :
  spaceless_body Writer_node false nodelist w
  = Writer_body (strip_last_text nodelist) w.
Proof.
  revert w. induction nodelist as [|x rest IH]; intros w; [reflexivity|].
  destruct rest as [|y rest].
  - destruct x; reflexivity.
  - rewrite strip_last_text_cons.
    change (Writer_body (x :: strip_last_text (y :: rest)) w)
      with (Writer.bind (Writer_node x)
              (fun _ => Writer_body (strip_last_text (y :: rest))) w).
    change (spaceless_body Writer_node false (x :: y :: rest) w)
      with (Writer.bind (match x with
                         | TextNode s => Writer_node x
                         | _ => Writer_node x
                         end)
              (fun _ => spaceless_body Writer_node false (y :: rest)) w).
    unfold Writer.bind.
    replace (match x with TextNode _ => Writer_node x | _ => Writer_node x end)
      with (Writer_node x) by (destruct x; reflexivity).
    destruct (Writer_node x w); [apply IH | reflexivity].
Qed.

(** The loop of [spaceless] that strips on the way writes what
    [writer.body] writes on the list the source builds: the copy of the
    list of the node with [nodelist[0]] and then [nodelist[-1]] replaced. *)
Lemma spaceless_body_eq (nodelist : list node) (w : Writer.t) :
  spaceless_body Writer_node true nodelist w
  = Writer_body (spaceless_nodelist nodelist) w.
Proof.
  destruct nodelist as [|x rest]; [reflexivity|].
  destruct rest as [|y rest].
  - destruct x; reflexivity.
  - unfold spaceless_nodelist.
    assert (E : exists x', strip_first_text (x :: y :: rest) = x' :: y :: rest
                /\ Writer.bind (match x with
                                | TextNode s => text_node (TextNode (Py.lstrip s))
                                | _ => Writer_node x
                                end)
                     (fun _ => spaceless_body Writer_node false (y :: rest))
                   = Writer.bind (Writer_node x')
                       (fun _ => spaceless_body Writer_node false (y :: rest))).
    { destruct x; eexists; (split; [reflexivity|]); reflexivity. }
    destruct E as (x' & -> & E).
    rewrite strip_last_text_cons.
    change (Writer_body (x' :: strip_last_text (y :: rest)) w)
      with (Writer.bind (Writer_node x')
              (fun _ => Writer_body (strip_last_text (y :: rest))) w).
    transitivity (Writer.bind (Writer_node x')
                    (fun _ => spaceless_body Writer_node false (y :: rest)) w).
    + rewrite <- E. destruct x; reflexivity.
    + unfold Writer.bind.
      destruct (Writer_node x' w); [apply spaceless_body_rest | reflexivity].
Qed.

(** The walk of [block] up the [parent] chain: the body written is the one
    of the block the [while] loop ends at, and reading [parent] of a node
    that has none raises. *)
Lemma block_root_body_eq (n : node) :
  block_root_body Writer_node n
  = match block_root n with
    | Some (BlockNode _ nodelist _) => Writer_body nodelist
    | _ => no_attribute
    end.
Proof.
  induction n; try reflexivity.
  match goal with
  | X : option_all _ _ _ |- _ => destruct X as [p Hp |]; simpl
  end.
  - exact Hp.
  - reflexivity.
Qed.
(** *** Every handler is built from a few methods of the writer

    A family [P] of calls that holds the methods which touch the writer
    ([write], [warn], [enter_loop], [leave_loop], the assignments of the two
    flags, [get_simple_tag_name]), the step of the iterator of a cycle node
    and the reading of any attribute but the streams, and that is closed
    under sequencing, holds the translation of every node. *)

Section Closure.

Variable P : forall A : Type, Writer.M A -> Prop.

Hypothesis P_ret : forall A (a : A), P A (Writer.ret a).
Hypothesis P_raise : forall A (e : exn), P A (Writer.raise e).
Hypothesis P_bind : forall A B (m : Writer.M A) (f : A -> Writer.M B),
  P A m -> (forall a, P B (f a)) -> P B (Writer.bind m f).
Hypothesis P_attr : forall A (f : Writer.t -> A),
  (forall s e w, f (Writer.set_stream s (Writer.set_error_stream e w)) = f w) ->
  P A (Writer.attr f).
Hypothesis P_write : forall s, P unit (Writer.write s).
Hypothesis P_warn : forall message source, P unit (Writer.warn message source).
Hypothesis P_enter_loop : P unit Writer.enter_loop.
Hypothesis P_leave_loop : P unit Writer.leave_loop.
Hypothesis P_set_autoescape :
  forall b, P unit (Writer.assign (Writer.set_autoescape b)).
Hypothesis P_set_spaceless :
  forall b, P unit (Writer.assign (Writer.set_spaceless b)).
Hypothesis P_get_simple_tag_name :
  forall tag, P (option string) (Writer.get_simple_tag_name tag).
Hypothesis P_advance : forall this, P unit (Writer.assign (advance this)).

Lemma closed_when (c : bool) (m : Writer.M unit) :
  P unit m -> P unit (Writer.when c m).
Proof. intros H. destruct c; [exact H | apply P_ret]. Qed.

Lemma closed_for_each {A} (f : A -> Writer.M unit) (l : list A) :
  Forall (fun x => P unit (f x)) l -> P unit (Writer.for_each f l).
Proof.
  induction 1 as [|x l Hx Hl IH]; simpl.
  - apply P_ret.
  - apply P_bind; [exact Hx | intros _; exact IH].
Qed.

Lemma closed_body {A} (f : A -> Writer.M unit) (l : list A) :
  Forall (fun x => P unit (f x)) l -> P unit (Writer.body f l).
Proof. apply closed_for_each. Qed.

Lemma closed_for_enumerate_from {A} (f : nat -> A -> Writer.M unit) (l : list A) :
  Forall (fun x => forall idx, P unit (f idx x)) l ->
  forall idx, P unit (Writer.for_enumerate_from f idx l).
Proof.
  induction 1 as [|x l Hx Hl IH]; intros idx; simpl.
  - apply P_ret.
  - apply P_bind; [apply Hx | intros _; apply IH].
Qed.

Lemma closed_for_enumerate {A} (f : nat -> A -> Writer.M unit) (l : list A) :
  Forall (fun x => forall idx, P unit (f idx x)) l ->
  P unit (Writer.for_enumerate f l).
Proof. intros H. apply closed_for_enumerate_from, H. Qed.

Lemma closed_for_fold {A S} (f : S -> A -> Writer.M S) (l : list A) :
  Forall (fun x => forall st, P S (f st x)) l ->
  forall st, P S (for_fold f st l).
Proof.
  induction 1 as [|x l Hx Hl IH]; intros st; simpl.
  - apply P_ret.
  - apply P_bind; [apply Hx | intros st'; apply IH].
Qed.

(** One step through a call. *)
Ltac closed_step :=
  cbv beta zeta;
  lazymatch goal with
  | |- P _ (Writer.bind _ _) => apply P_bind; [| intros ?]
  | |- P _ (Writer.ret _) => apply P_ret
  | |- P _ (Writer.raise _) => apply P_raise
  | |- P _ no_attribute => apply P_raise
  | |- P _ (Writer.attr _) => apply P_attr; intros; reflexivity
  | |- P _ Writer.in_loop => apply P_attr; intros; reflexivity
  | |- P _ (Writer.write _) => apply P_write
  | |- P _ (Writer.warn _ _) => apply P_warn
  | |- P _ Writer.enter_loop => apply P_enter_loop
  | |- P _ Writer.leave_loop => apply P_leave_loop
  | |- P _ (Writer.assign (Writer.set_autoescape _)) => apply P_set_autoescape
  | |- P _ (Writer.assign (Writer.set_spaceless _)) => apply P_set_spaceless
  | |- P _ (Writer.get_simple_tag_name _) => apply P_get_simple_tag_name
  | |- P _ (Writer.assign (advance _)) => apply P_advance
  | |- P _ (next_raw_cycle_var _ _) => unfold next_raw_cycle_var
  | |- P _ (Writer.when _ _) => apply closed_when
  | |- P _ (Writer.for_each _ _) => apply closed_for_each
  | |- P _ (Writer.body _ _) => apply closed_body
  | |- P _ (Writer.for_enumerate _ _) => apply closed_for_enumerate
  | |- P _ (for_fold _ _ _) => apply closed_for_fold
  | |- P _ Writer._post_open => unfold Writer._post_open
  | |- P _ Writer._pre_close => unfold Writer._pre_close
  | |- P _ Writer.start_variable => unfold Writer.start_variable
  | |- P _ (Writer.end_variable _) => unfold Writer.end_variable
  | |- P _ Writer.start_block => unfold Writer.start_block
  | |- P _ Writer.end_block => unfold Writer.end_block
  | |- P _ (Writer.print_expr _) => unfold Writer.print_expr
  | |- P _ (Writer.tag _) => unfold Writer.tag
  | |- P _ (Writer.translate_variable_name _) =>
      unfold Writer.translate_variable_name
  | |- P _ (Writer.variable _) => unfold Writer.variable
  | |- P _ (Writer.literal _) => unfold Writer.literal
  | |- P _ (if ?c then _ else _) => destruct c
  | |- P _ (match ?x with _ => _ end) => destruct x
  | |- P _ ((match ?x with _ => _ end) _) => destruct x
  | |- Forall _ _ => first [assumption | apply Forall_forall; intros ? _]
  | |- forall _, _ => intros ?
  end.

Ltac closed_steps := repeat closed_step.

Lemma closed_variable_handler v : P unit (variable v).
Proof. unfold variable. closed_steps. Qed.

Lemma closed_node_Variable v : P unit (node_Variable v).
Proof. rewrite node_Variable_eq. apply closed_variable_handler. Qed.

Lemma closed_filters_from filters :
  forall want_pipe, P unit (Writer.filters_from node_Variable want_pipe filters).
Proof.
  induction filters as [|[filter args] rest IH]; intros want_pipe; simpl.
  - apply P_ret.
  - destruct (Writer.get_filter_name filter) as [name|].
    + closed_steps; first [apply closed_node_Variable | apply IH].
    + closed_steps. apply IH.
Qed.

Lemma closed_filters filters is_block :
  P unit (Writer.filters node_Variable filters is_block).
Proof. apply closed_filters_from. Qed.

Lemma closed_filter_expression fe : P unit (filter_expression fe).
Proof.
  unfold filter_expression. apply P_bind; [|intros _; apply closed_filters].
  destruct (FilterExpression.var fe); [apply closed_node_Variable | | |];
    [closed_steps | closed_steps |].
  unfold node_object, Writer_node_of.
  destruct (find_handler _ _) as [[]|]; closed_steps.
Qed.

Lemma closed_node_FilterExpression fe : P unit (node_FilterExpression fe).
Proof. rewrite node_FilterExpression_eq. apply closed_filter_expression. Qed.

Lemma closed_node_bit b : P unit (node_bit b).
Proof.
  destruct b as [value | [value | id first second]].
  - apply closed_node_FilterExpression.
  - unfold node_bit, Writer_node_of. simpl. closed_steps.
  - rewrite node_bit_operator. closed_steps.
Qed.

(** The step, with the values inside a node. *)
Ltac handler_step :=
  cbv beta zeta;
  lazymatch goal with
  | |- P _ (node_Variable _) => apply closed_node_Variable
  | |- P _ (node_FilterExpression _) => apply closed_node_FilterExpression
  | |- P _ (node_bit _) => apply closed_node_bit
  | |- P _ (Writer.filters node_Variable _ _) => apply closed_filters
  | _ => closed_step
  end.

Ltac handler_steps := repeat handler_step.

Section Handlers_closed.

Variable writer_node : node -> Writer.M unit.

Lemma closed_text_node n : P unit (text_node n).
Proof. destruct n; simpl; handler_steps. Qed.

Lemma closed_variable_node n : P unit (variable_node n).
Proof. unfold variable_node. destruct n; handler_steps. Qed.

Lemma closed_debug_tag n : P unit (debug_tag n).
Proof. destruct n; simpl; handler_steps. Qed.

Lemma closed_include n : P unit (include n).
Proof. destruct n; simpl; handler_steps. Qed.

Lemma closed_cycle n : P unit (cycle n).
Proof. destruct n; simpl; handler_steps. Qed.

Lemma closed_template_tag n : P unit (template_tag n).
Proof. destruct n; simpl; handler_steps. Qed.

Lemma closed_url_tag n : P unit (url_tag n).
Proof. destruct n; simpl; handler_steps. Qed.

Lemma closed_width_ratio n : P unit (width_ratio n).
Proof. destruct n; simpl; handler_steps. Qed.

Lemma closed_regroup n : P unit (regroup n).
Proof. destruct n; simpl; handler_steps. Qed.

Lemma closed_get_available_languages n : P unit (get_available_languages n).
Proof. destruct n; simpl; handler_steps. Qed.

Lemma closed_get_current_language n : P unit (get_current_language n).
Proof. destruct n; simpl; handler_steps. Qed.

Lemma closed_get_current_language_bidi n : P unit (get_current_language_bidi n).
Proof. destruct n; simpl; handler_steps. Qed.

Lemma closed_simple_gettext n : P unit (simple_gettext n).
Proof. destruct n; simpl; handler_steps. Qed.

Lemma closed_dump_token_list tokens locals :
  P block_locals (dump_token_list tokens locals).
Proof. unfold dump_token_list. handler_steps. Qed.

Lemma closed_translate_block n : P unit (translate_block n).
Proof.
  destruct n; simpl; handler_steps;
    try apply closed_dump_token_list; handler_steps.
Qed.

Lemma closed_simple_tag n : P unit (simple_tag n).
Proof. unfold simple_tag. handler_steps. Qed.

Lemma closed_inclusion_tag n : P unit (inclusion_tag n).
Proof. unfold inclusion_tag. handler_steps. Qed.

Lemma closed_static_tag n : P unit (static_tag n).
Proof. destruct n; simpl; handler_steps. Qed.

Lemma closed_csrf_tag n : P unit (csrf_tag n).
Proof. unfold csrf_tag. handler_steps. Qed.

Lemma closed_verbatim_tag n : P unit (verbatim_tag n).
Proof. unfold verbatim_tag. handler_steps. Qed.

Lemma closed_lorem_tag n : P unit (lorem_tag n).
Proof. destruct n; simpl; handler_steps. Qed.

Lemma closed_for_loop loopvars is_reversed sequence nodelist_loop nodelist_empty :
  Forall (fun x => P unit (writer_node x)) nodelist_loop ->
  Forall (fun x => P unit (writer_node x)) nodelist_empty ->
  P unit (for_loop writer_node
            (ForNode loopvars is_reversed sequence nodelist_loop nodelist_empty)).
Proof. intros H1 H2. simpl. handler_steps. Qed.

Lemma closed_if_condition conditions_nodelists :
  Forall (fun x => Forall (fun y => P unit (writer_node y)) (snd x))
    conditions_nodelists ->
  P unit (if_condition writer_node (IfNode conditions_nodelists)).
Proof.
  intros H. simpl. apply P_bind; [|intros _; handler_steps].
  apply closed_for_enumerate.
  eapply Forall_impl; [exact H|]. intros [condition nodelist] Hn idx.
  simpl in Hn. handler_steps.
Qed.

Lemma closed_if_equal var1 var2 nodelist_true nodelist_false negate :
  Forall (fun x => P unit (writer_node x)) nodelist_true ->
  Forall (fun x => P unit (writer_node x)) nodelist_false ->
  P unit (if_equal writer_node
            (IfEqualNode var1 var2 nodelist_true nodelist_false negate)).
Proof. intros H1 H2. simpl. handler_steps. Qed.

Lemma closed_block name nodelist parent :
  P unit (block_root_body writer_node (BlockNode name nodelist parent)) ->
  P unit (block writer_node (BlockNode name nodelist parent)).
Proof.
  intros H. unfold block.
  apply P_bind; [handler_steps|intros _].
  apply P_bind; [exact H|intros _]. handler_steps.
Qed.

Lemma closed_extends parent_name nodelist :
  Forall (fun x => P unit (writer_node x)) nodelist ->
  P unit (extends writer_node (ExtendsNode parent_name nodelist)).
Proof. intros H. simpl. handler_steps. Qed.

Lemma closed_filter filter_expr nodelist :
  Forall (fun x => P unit (writer_node x)) nodelist ->
  P unit (filter writer_node (FilterNode filter_expr nodelist)).
Proof. intros H. simpl. handler_steps. Qed.

Lemma closed_autoescape_control setting nodelist :
  Forall (fun x => P unit (writer_node x)) nodelist ->
  P unit (autoescape_control writer_node (AutoEscapeControlNode setting nodelist)).
Proof. intros H. simpl. handler_steps. Qed.

Lemma closed_spaceless_body nodelist :
  Forall (fun x => P unit (writer_node x)) nodelist ->
  forall first, P unit (spaceless_body writer_node first nodelist).
Proof.
  induction 1 as [|x rest Hx Hrest IH]; intros first; simpl.
  - apply P_ret.
  - apply P_bind; [|intros _; apply IH].
    destruct x; try exact Hx.
    destruct (first || bool_decide (rest = [])); [apply P_write | exact Hx].
Qed.

Lemma closed_spaceless nodelist source :
  Forall (fun x => P unit (writer_node x)) nodelist ->
  P unit (spaceless writer_node (SpacelessNode nodelist source)).
Proof.
  intros H. simpl.
  apply P_bind; [handler_steps|intros original].
  apply P_bind; [handler_steps|intros _].
  apply P_bind; [handler_steps|intros _].
  apply P_bind; [apply closed_spaceless_body, H|intros _]. handler_steps.
Qed.

Lemma closed_with_block extra_context nodelist :
  Forall (fun x => P unit (writer_node x)) nodelist ->
  P unit (with_block writer_node (WithNode extra_context nodelist)).
Proof. intros H. simpl. handler_steps. Qed.

End Handlers_closed.

Lemma closed_Foreign cls source : P unit (Writer_node (Foreign cls source)).
Proof.
  rewrite Writer_node_eq. unfold Writer_node_of. simpl class_of.
  rewrite find_handler_Foreign.
  destruct (String.eqb _ "Operator"); [apply P_raise|].
  destruct (String.eqb _ "SimpleNode"); [apply closed_simple_tag|].
  destruct (String.eqb _ "InclusionNode"); [apply closed_inclusion_tag|].
  apply P_warn.
Qed.

Lemma closed_Writer_node_and_root n :
  P unit (Writer_node n) /\ P unit (block_root_body Writer_node n).
Proof.
  induction n;
    repeat match goal with
           | H : list_all node _ _ |- _ =>
               apply list_all_Forall, Forall_and_l in H
           | H : list_all (_ * _) _ _ |- _ =>
               apply branches_all_Forall in H
           end;
    (split;
     [ try (erewrite Writer_node_known by reflexivity; unfold call)
     | try (simpl; apply P_raise) ]).
  all: try solve
    [ apply closed_text_node | apply closed_variable_node | apply P_ret
    | apply closed_debug_tag | apply closed_for_loop; assumption
    | apply closed_if_equal; assumption | apply closed_extends; assumption
    | apply closed_include | apply closed_cycle
    | apply closed_filter; assumption
    | apply closed_autoescape_control; assumption
    | apply closed_spaceless; assumption | apply closed_template_tag
    | apply closed_url_tag | apply closed_width_ratio
    | apply closed_with_block; assumption | apply closed_regroup
    | apply closed_get_available_languages | apply closed_get_current_language
    | apply closed_get_current_language_bidi | apply closed_simple_gettext
    | apply closed_translate_block | apply closed_simple_tag
    | apply closed_inclusion_tag | apply closed_static_tag
    | apply closed_csrf_tag | apply closed_verbatim_tag | apply closed_lorem_tag
    | apply closed_Foreign ].
  - (* IfNode *)
    apply closed_if_condition. eapply Forall_impl; [eassumption|].
    intros x Hx. apply (Forall_and_l _ _ _ Hx).
  - (* BlockNode, as a node *)
    apply closed_block.
    match goal with
    | X : option_all _ _ _ |- _ => destruct X as [p [_ Hp] |]; simpl
    end.
    + exact Hp.
    + apply closed_body. assumption.
  - (* BlockNode, as the end of a chain of parents *)
    match goal with
    | X : option_all _ _ _ |- _ => destruct X as [p [_ Hp] |]; simpl
    end.
    + exact Hp.
    + apply closed_body. assumption.
Qed.

Lemma closed_Writer_node n : P unit (Writer_node n).
Proof. apply closed_Writer_node_and_root. Qed.

Lemma closed_Writer_body nodes : P unit (Writer_body nodes).
Proof.
  apply closed_body, Forall_forall. intros n _. apply closed_Writer_node.
Qed.

End Closure.
(** *** The streams are only written to *)

Lemma append_nil_r (s : string) : s +:+ "" = s.
Proof.
  induction s as [|c s IH]; [reflexivity|].
  change (String c (s +:+ "") = String c s). f_equal. exact IH.
Qed.

Lemma write_only_ret {A} (a : A) : write_only (Writer.ret a).
Proof. intros p q w. reflexivity. Qed.

Lemma write_only_raise {A} (e : exn) : write_only (@Writer.raise A e).
Proof. intros p q w. reflexivity. Qed.

Lemma write_only_bind {A B} (m : Writer.M A) (f : A -> Writer.M B) :
  write_only m -> (forall a, write_only (f a)) -> write_only (Writer.bind m f).
Proof.
  intros Hm Hf p q w. unfold Writer.bind. rewrite Hm.
  destruct (m w) as [a w1 | e w1]; simpl; [apply Hf | reflexivity].
Qed.

Lemma write_only_attr {A} (f : Writer.t -> A) :
  (forall s e w, f (Writer.set_stream s (Writer.set_error_stream e w)) = f w) ->
  write_only (Writer.attr f).
Proof.
  intros H p q w. unfold Writer.attr, written_before. rewrite H. reflexivity.
Qed.

Lemma write_only_write (s : string) : write_only (Writer.write s).
Proof.
  intros p q w. unfold Writer.write, Writer.assign, written_before, after.
  f_equal. unfold Writer.set_stream, Writer.set_error_stream. simpl.
  rewrite append_assoc. reflexivity.
Qed.

Lemma write_only_warn message source : write_only (Writer.warn message source).
Proof.
  intros p q w. unfold Writer.warn, Writer.assign, written_before, after.
  f_equal. unfold Writer.set_stream, Writer.set_error_stream. simpl.
  rewrite (assoc_L (++)). reflexivity.
Qed.

Lemma write_only_get_simple_tag_name tag :
  write_only (Writer.get_simple_tag_name tag).
Proof.
  intros p q w. destruct tag; try reflexivity;
    unfold Writer.get_simple_tag_name, Writer.bind, Writer.attr, Writer.when,
      Writer.assign, Writer.ret; simpl;
    destruct (Writer._resolved_simple_tags w); reflexivity.
Qed.

Lemma write_only_Writer_node (n : node) : write_only (Writer_node n).
Proof.
  apply (closed_Writer_node (fun A => @write_only A)).
  - intros A a. apply write_only_ret.
  - intros A e. apply write_only_raise.
  - intros A B m f. apply write_only_bind.
  - intros A f. apply write_only_attr.
  - apply write_only_write.
  - apply write_only_warn.
  - intros p q w. reflexivity.
  - intros p q w. reflexivity.
  - intros b p q w. reflexivity.
  - intros b p q w. reflexivity.
  - apply write_only_get_simple_tag_name.
  - intros this p q w. reflexivity.
Qed.

Lemma write_only_Writer_body (nodes : list node) : write_only (Writer_body nodes).
Proof.
  induction nodes as [|n rest IH].
  - apply write_only_ret.
  - apply (write_only_bind (Writer_node n) (fun _ => Writer_body rest)).
    + apply write_only_Writer_node.
    + intros _. exact IH.
Qed.

(** X1. No handler looks at what the streams hold. Had the output stream
    held the text [p] and the error stream the lines [q] before their
    contents, translating a node, or a list of nodes, would end in the same
    way, returning or raising the same exception, and leave the same writer,
    with [p] and [q] before the contents of its streams: what has been
    written is never changed, and what a node adds does not depend on it. *)
Theorem translation_is_write_only (p : string) (q : list string) (w : Writer.t) :
  (forall n,
     Writer_node n (written_before p q w)
     = after (written_before p q) (Writer_node n w))
  /\ (forall nodes,
        Writer_body nodes (written_before p q w)
        = after (written_before p q) (Writer_body nodes w)).
Proof.
  split.
  - intros n. apply write_only_Writer_node.
  - intros nodes. apply write_only_Writer_body.
Qed.

Lemma written_before_streams (w : Writer.t) :
  written_before (Writer.stream w) (Writer.error_stream w)
    (Writer.set_stream "" (Writer.set_error_stream [] w))
  = w.
Proof.
  destruct w. unfold written_before, Writer.set_stream, Writer.set_error_stream.
  simpl. rewrite append_nil_r, app_nil_r. reflexivity.
Qed.

(** The streams grow: the text and the lines that were there stay first,
    whether the translation returns or raises. *)
Lemma streams_grow (n : node) (w : Writer.t) :
  exists out errs,
    Writer.stream (Writer.state_of (Writer_node n w)) = Writer.stream w +:+ out
    /\ Writer.error_stream (Writer.state_of (Writer_node n w))
       = Writer.error_stream w ++ errs.
Proof.
  set (w0 := Writer.set_stream "" (Writer.set_error_stream [] w)).
  exists (Writer.stream (Writer.state_of (Writer_node n w0))),
    (Writer.error_stream (Writer.state_of (Writer_node n w0))).
  rewrite <- (written_before_streams w) at 1 3.
  fold w0. rewrite write_only_Writer_node.
  destruct (Writer_node n w0); split; reflexivity.
Qed.

(** *** The table of the simple tags *)

(** X3. The table of the simple tags is built at most once. Whatever the
    node, and whether its translation returns or raises, the tag libraries
    are left as they were, and the table is either left as it was or, if
    there was none, is the one built from the libraries: a table that exists
    is never rebuilt or changed. *)
Theorem simple_tags_resolved_once (n : node) (w : Writer.t) :
  Writer.template_libraries (Writer.state_of (Writer_node n w))
  = Writer.template_libraries w
  /\ (Writer._resolved_simple_tags (Writer.state_of (Writer_node n w))
      = Writer._resolved_simple_tags w
      \/ Writer._resolved_simple_tags w = None
         /\ Writer._resolved_simple_tags (Writer.state_of (Writer_node n w))
            = Some (Writer.resolve_simple_tags (Writer.template_libraries w))).
Proof.
  revert w.
  apply (closed_Writer_node
           (fun A (m : Writer.M A) =>
              forall w,
                Writer.template_libraries (Writer.state_of (m w))
                = Writer.template_libraries w
                /\ (Writer._resolved_simple_tags (Writer.state_of (m w))
                    = Writer._resolved_simple_tags w
                    \/ Writer._resolved_simple_tags w = None
                       /\ Writer._resolved_simple_tags (Writer.state_of (m w))
                          = Some (Writer.resolve_simple_tags
                                    (Writer.template_libraries w))))).
  - intros A a w. simpl. auto.
  - intros A e w. simpl. auto.
  - intros A B m f Hm Hf w. unfold Writer.bind.
    destruct (Hm w) as [L1 C1]. destruct (m w) as [a w1 | e w1]; simpl in *.
    + destruct (Hf a w1) as [L2 C2]. rewrite L2, L1. split; [reflexivity|].
      destruct C1 as [C1 | [C1 C1']], C2 as [C2 | [C2 C2']].
      * left. congruence.
      * right. split; congruence.
      * right. split; congruence.
      * congruence.
    + auto.
  - intros A f _ w. simpl. auto.
  - intros s w. simpl. auto.
  - intros message source w. simpl. auto.
  - intros w. simpl. auto.
  - intros w. simpl. auto.
  - intros b w. simpl. auto.
  - intros b w. simpl. auto.
  - intros tag w. destruct tag; simpl; auto;
      unfold Writer.get_simple_tag_name, Writer.bind, Writer.attr, Writer.when,
        Writer.assign, Writer.ret; simpl;
      destruct (Writer._resolved_simple_tags w) eqn:E; simpl; auto.
  - intros this w. simpl. auto.
Qed.

(** *** A whole template *)

(** X2. When the translation of a list of nodes returns, whatever the
    nodes, the two flags [autoescape] and [spaceless], the delimiters, the
    rewrite rules, the Jinja environment and the loop depth are what they
    were before. *)
Theorem body_restores_the_writer (nodes : list node) (w w' : Writer.t) :
  Writer_body nodes w = Writer.Ok tt w' ->
  Writer.autoescape w' = Writer.autoescape w
  /\ Writer.spaceless w' = Writer.spaceless w
  /\ frame w' = frame w
  /\ Writer._loop_depth w' = Writer._loop_depth w.
Proof.
  intros H.
  destruct (scoped_returns _ _ _ _ (scoped_Writer_body nodes) H) as [F D].
  split; [|split; [|split; assumption]];
    unfold frame in F; congruence.
Qed.

Lemma body_restores_the_writer_witness :
  exists w',
    Writer_body
      [SpacelessNode
         [AutoEscapeControlNode false
            [ForNode ["x"%string] false (name_expression "xs")
               [VariableNode (name_expression "x")] []]] None]
      Writer.default
    = Writer.Ok tt w'
    /\ Writer.autoescape w' = Writer.autoescape Writer.default
    /\ Writer.spaceless w' = Writer.spaceless Writer.default
    /\ frame w' = frame Writer.default
    /\ Writer._loop_depth w' = Writer._loop_depth Writer.default.
Proof.
  eexists. split; [vm_compute; reflexivity|].
  apply (body_restores_the_writer
           [SpacelessNode
              [AutoEscapeControlNode false
                 [ForNode ["x"%string] false (name_expression "xs")
                    [VariableNode (name_expression "x")] []]] None]).
  vm_compute. reflexivity.
Defined.

(** X13. [translate] of [convert_templates] is [Writer.body] with the
    output going to the file. When it returns, the text of the file is what
    [Writer.body] adds to the stream of the writer when called on it
    directly, and the writer it leaves is the one [Writer.body] leaves but
    for the output stream, which it puts back. When the translation raises,
    the stream is not put back: the writer is left writing to the file. *)
Theorem translate_is_body_on_the_file (nodelist : list node) (w : Writer.t) :
  (forall text w',
     translate nodelist w = Writer.Ok text w' ->
     Writer.stream w' = Writer.stream w
     /\ Writer_body nodelist w
        = Writer.Ok tt (Writer.set_stream (Writer.stream w +:+ text) w'))
  /\ (forall e w',
        translate nodelist w = Writer.Raise e w' ->
        Writer_body nodelist w
        = Writer.Raise e
            (Writer.set_stream (Writer.stream w +:+ Writer.stream w') w')).
Proof.
  set (w0 := Writer.set_stream "" w).
  assert (E : w = written_before (Writer.stream w) [] w0).
  { destruct w. unfold w0, written_before, Writer.set_stream,
      Writer.set_error_stream. simpl. rewrite append_nil_r. reflexivity. }
  assert (B : Writer_body nodelist w
              = after (written_before (Writer.stream w) []) (Writer_body nodelist w0)).
  { rewrite E at 1. apply write_only_Writer_body. }
  rewrite B.
  unfold translate, Writer.bind, Writer.attr, Writer.assign, Writer.ret.
  fold w0. destruct (Writer_body nodelist w0) as [[] w1 | e1 w1]; simpl.
  - split; [|discriminate]. intros text w' H. injection H as <- <-.
    split; [reflexivity|]. destruct w1. reflexivity.
  - split; [discriminate|]. intros e w' H. injection H as <- <-.
    destruct w1. reflexivity.
Qed.

Lemma translate_is_body_on_the_file_witness :
  (exists text w',
     translate [TextNode "a"; VariableNode (name_expression "x")]
       (Writer.set_stream "before" Writer.default)
     = Writer.Ok text w'
     /\ Writer.stream w' = "before"%string
     /\ Writer_body [TextNode "a"; VariableNode (name_expression "x")]
          (Writer.set_stream "before" Writer.default)
        = Writer.Ok tt (Writer.set_stream ("before" +:+ text) w'))
  /\ (exists e w',
        translate [TextNode "a"; VariableNode (filtered_expression "x" "upper")]
          (Writer.set_stream "before" Writer.default)
        = Writer.Raise e w'
        /\ Writer_body [TextNode "a"; VariableNode (filtered_expression "x" "upper")]
             (Writer.set_stream "before" Writer.default)
           = Writer.Raise e (Writer.set_stream ("before" +:+ Writer.stream w') w')).
Proof.
  split.
  - eexists. eexists. split; [vm_compute; reflexivity|].
    apply (proj1 (translate_is_body_on_the_file
                    [TextNode "a"; VariableNode (name_expression "x")]
                    (Writer.set_stream "before" Writer.default))).
    vm_compute. reflexivity.
  - eexists. eexists. split; [vm_compute; reflexivity|].
    apply (proj2 (translate_is_body_on_the_file
                    [TextNode "a"; VariableNode (filtered_expression "x" "upper")]
                    (Writer.set_stream "before" Writer.default))).
    vm_compute. reflexivity.
Defined.
(** *** Conditions, in reading order *)

(** X5. The bits of a condition, for every tree of operators: a value gives
    itself; the prefix operator [not] comes first and is followed by the
    bits of its operand; any other operator stands after the bits of its
    first operand and before those of its second. So the bits are the
    condition read from left to right, at every depth. *)
Theorem if_condition_to_bits_in_order :
  (forall value, if_condition_to_bits (Literal value) = [BitValue value])
  /\ (forall id first second,
        if_condition_to_bits (Operator id first second)
        = (if is_not id then [BitCondition (Operator id first second)] else [])
          ++ if_condition_to_bits first
          ++ (if is_not id then [] else [BitCondition (Operator id first second)])
          ++ match second with
             | Some second => if_condition_to_bits second
             | None => []
             end).
Proof.
  split; [reflexivity|]. intros id first second.
  unfold if_condition_to_bits. simpl.
  destruct (is_not id), second as [second|]; simpl;
    repeat rewrite ?rev_app_distr, ?app_nil_r; simpl;
    rewrite <- ?app_assoc; reflexivity.
Qed.

(** *** The rewrite rules *)

(** X7. The rewrite rules are tried in order, and the first one whose
    match pattern is found in the name is applied, whatever its exclusion
    pattern and whatever the rules behind it: the outcome is that of its
    substitution, the new name or the exception of [reg.sub]; a name in
    which no match pattern is found is left as it is. *)
Theorem first_matching_rule_is_applied (var : string) :
  (forall before reg rep unless rest,
     Forall (fun rule : Rule => search (fst (fst rule)) var = false) before ->
     search reg var = true ->
     Writer.translate_rules (before ++ (reg, rep, unless) :: rest) var
     = sub reg rep var)
  /\ (forall rules,
        Forall (fun rule : Rule => search (fst (fst rule)) var = false) rules ->
        Writer.translate_rules rules var = Some var).
Proof.
  split.
  - intros before reg rep unless rest Hb Hr.
    induction Hb as [|[[reg' rep'] unless'] before Hx Hb IH]; simpl.
    + rewrite Hr, orb_true_r. reflexivity.
    + simpl in Hx. rewrite Hx. simpl. exact IH.
  - intros rules H.
    induction H as [|[[reg' rep'] unless'] rules Hx H IH]; simpl.
    + reflexivity.
    + simpl in Hx. rewrite Hx. simpl. exact IH.
Qed.

Lemma first_matching_rule_is_applied_witness :
  Writer.translate_rules
    ([(literal_pattern "x", "y"%string, None)]
       ++ (literal_pattern "user", "u"%string, Some (literal_pattern "name"))
       :: [(literal_pattern "u", "v"%string, None)])
    "user.name"
  = sub (literal_pattern "user") "u" "user.name"
  /\ Writer.translate_rules [(literal_pattern "x", "y"%string, None)] "user.name"
     = Some "user.name"%string.
Proof.
  split.
  - apply (proj1 (first_matching_rule_is_applied "user.name")).
    + repeat constructor.
    + reflexivity.
  - apply (proj2 (first_matching_rule_is_applied "user.name")).
    repeat constructor.
Defined.

(** *** The nodes without a handler *)

(** X14. [Writer.node] finds no handler, and warns, for the nodes of a
    class that is not in the table and is called neither [Operator] nor
    [SimpleNode] nor [InclusionNode], and for no other node: the three
    names are keys of the table, and a class that bears one of them is
    handled whatever its module. *)
Theorem no_handler_iff_foreign (n : node) :
  find_handler _node_handlers (class_of n) = None
  <-> exists cls source,
        n = Foreign cls source
        /\ __name__ cls <> "Operator"%string
        /\ __name__ cls <> "SimpleNode"%string
        /\ __name__ cls <> "InclusionNode"%string.
Proof.
  split.
  - apply find_handler_None.
  - intros (cls & source & -> & H1 & H2 & H3). simpl class_of.
    rewrite find_handler_Foreign.
    destruct (String.eqb_spec (__name__ cls) "Operator"); [contradiction|].
    destruct (String.eqb_spec (__name__ cls) "SimpleNode"); [contradiction|].
    destruct (String.eqb_spec (__name__ cls) "InclusionNode"); [contradiction|].
    reflexivity.
Qed.

Lemma no_handler_iff_foreign_witness :
  find_handler _node_handlers
    (class_of (Foreign {| __module__ := "myapp.tags"; __name__ := "MyNode" |} None))
  = None.
Proof.
  apply (proj2 (no_handler_iff_foreign
                  (Foreign {| __module__ := "myapp.tags"; __name__ := "MyNode" |} None))).
  eexists. eexists. split; [reflexivity|].
  repeat split; discriminate.
Defined.
(** *** Line numbers *)

Lemma count_newlines_nonneg (s : string) : 0 <= Py.count_newlines s.
Proof.
  assert (H : forall k s, (String.length s <= k)%nat -> 0 <= Py.count_newlines s).
  { clear s. induction k as [|k IH]; intros s Hs.
    - destruct s; [simpl; lia | simpl in Hs; lia].
    - destruct s as [|c r]; [simpl; lia|]. simpl in Hs.
      assert (Hr : 0 <= Py.count_newlines r) by (apply IH; lia).
      cbn [Py.count_newlines]. destruct (Ascii.eqb c Py.CR).
      + destruct r as [|d r']; [lia|].
        destruct (Ascii.eqb d Py.LF); [|lia].
        assert (0 <= Py.count_newlines r') by (apply IH; simpl in Hs; lia). lia.
      + destruct (Ascii.eqb c Py.LF); lia. }
  apply (H (String.length s)). lia.
Qed.

Lemma count_newlines_cons (c : ascii) (r : string) :
  Py.count_newlines (String c r)
  = if Ascii.eqb c Py.CR then
      match r with
      | String d r' =>
          if Ascii.eqb d Py.LF then 1 + Py.count_newlines r'
          else 1 + Py.count_newlines r
      | EmptyString => 1
      end
    else if Ascii.eqb c Py.LF then 1 + Py.count_newlines r
    else Py.count_newlines r.
Proof. destruct r; reflexivity. Qed.

Lemma count_newlines_slice_step (s : string) (n : nat) :
  Py.count_newlines (Py.slice_to_nat n s)
  <= Py.count_newlines (Py.slice_to_nat (S n) s).
Proof.
  assert (H : forall k s, (String.length s <= k)%nat ->
              forall n, Py.count_newlines (Py.slice_to_nat n s)
                        <= Py.count_newlines (Py.slice_to_nat (S n) s)).
  { clear s n. induction k as [|k IH]; intros s Hs n.
    - destruct s; [destruct n; simpl; lia | simpl in Hs; lia].
    - destruct s as [|c r]; [destruct n; simpl; lia|]. simpl in Hs.
      destruct n as [|m].
      + change (Py.slice_to_nat 0 (String c r)) with EmptyString.
        change (Py.count_newlines EmptyString) with 0.
        apply count_newlines_nonneg.
      + change (Py.slice_to_nat (S m) (String c r))
          with (String c (Py.slice_to_nat m r)).
        change (Py.slice_to_nat (S (S m)) (String c r))
          with (String c (Py.slice_to_nat (S m) r)).
        assert (Hr : Py.count_newlines (Py.slice_to_nat m r)
                     <= Py.count_newlines (Py.slice_to_nat (S m) r))
          by (apply IH; lia).
        rewrite (count_newlines_cons c (Py.slice_to_nat m r)),
          (count_newlines_cons c (Py.slice_to_nat (S m) r)).
        destruct (Ascii.eqb c Py.CR).
        * destruct r as [|d r'].
          -- destruct m; simpl; lia.
          -- destruct m as [|m'].
             ++ change (Py.slice_to_nat 0 (String d r')) with EmptyString.
                change (Py.slice_to_nat 1 (String d r')) with (String d EmptyString).
                cbv beta iota.
                destruct (Ascii.eqb d Py.LF); [simpl; lia|].
                pose proof (count_newlines_nonneg (String d EmptyString)). lia.
             ++ change (Py.slice_to_nat (S m') (String d r'))
                  with (String d (Py.slice_to_nat m' r')) in *.
                change (Py.slice_to_nat (S (S m')) (String d r'))
                  with (String d (Py.slice_to_nat (S m') r')) in *.
                cbv beta iota.
                destruct (Ascii.eqb d Py.LF).
                ** assert (Py.count_newlines (Py.slice_to_nat m' r')
                           <= Py.count_newlines (Py.slice_to_nat (S m') r'))
                     by (apply IH; simpl in Hs; lia).
                   lia.
                ** lia.
        * destruct (Ascii.eqb c Py.LF); lia. }
  apply (H (String.length s)). lia.
Qed.

Lemma count_newlines_slice_mono (s : string) (n m : nat) :
  (n <= m)%nat ->
  Py.count_newlines (Py.slice_to_nat n s) <= Py.count_newlines (Py.slice_to_nat m s).
Proof.
  induction 1 as [|m Hm IH]; [lia|].
  pose proof (count_newlines_slice_step s m). lia.
Qed.

Lemma slice_to_nat_app (a t : string) (k : nat) :
  Py.slice_to_nat (String.length a + k) (a +:+ t) = a +:+ Py.slice_to_nat k t.
Proof.
  induction a as [|c a IH]; [reflexivity|].
  change (String c (Py.slice_to_nat (String.length a + k) (a +:+ t))
          = String c (a +:+ Py.slice_to_nat k t)).
  f_equal. exact IH.
Qed.

Lemma slice_to_app (a t : string) (k : nat) :
  Py.slice_to (Z.of_nat (String.length a) + Z.of_nat k) (a +:+ t)
  = a +:+ Py.slice_to_nat k t.
Proof.
  unfold Py.slice_to.
  destruct (Z.leb_spec 0 (Z.of_nat (String.length a) + Z.of_nat k)); [|lia].
  rewrite <- Nat2Z.inj_add, Nat2Z.id. apply slice_to_nat_app.
Qed.

(** The line ends of a text in two parts are those of the parts, unless a
    line end of two characters is cut in the middle. *)
Lemma count_newlines_app (a t : string) :
  Py.endswith a (Py.str1 Py.CR) = false
  \/ match t with
     | String d _ => Ascii.eqb d Py.LF = false
     | EmptyString => True
     end ->
  Py.count_newlines (a +:+ t) = Py.count_newlines a + Py.count_newlines t.
Proof.
  intros H.
  assert (G : forall k a, (String.length a <= k)%nat ->
              Py.endswith a (Py.str1 Py.CR) = false
              \/ match t with
                 | String d _ => Ascii.eqb d Py.LF = false
                 | EmptyString => True
                 end ->
              Py.count_newlines (a +:+ t)
              = Py.count_newlines a + Py.count_newlines t).
  { clear a H. induction k as [|k IH]; intros a Ha H.
    - destruct a; [reflexivity | simpl in Ha; lia].
    - destruct a as [|c r]; [reflexivity|]. simpl in Ha.
      assert (Hr : Py.endswith r (Py.str1 Py.CR) = false
                   \/ match t with
                      | String d _ => Ascii.eqb d Py.LF = false
                      | EmptyString => True
                      end).
      { destruct H as [H | H]; [left | right; exact H].
        simpl in H. apply orb_false_elim in H. apply H. }
      rewrite append_cons, !count_newlines_cons.
      destruct (Ascii.eqb c Py.CR) eqn:Ec.
      + destruct r as [|d r'].
        * change ("" +:+ t) with t.
          destruct H as [H | H].
          -- apply Ascii.eqb_eq in Ec. subst c. discriminate H.
          -- destruct t as [|d t']; [reflexivity|]. rewrite H. lia.
        * rewrite append_cons. destruct (Ascii.eqb d Py.LF) eqn:Ed.
          -- rewrite (IH r'); [lia | simpl in Ha; lia |].
             destruct Hr as [Hr | Hr]; [left | right; exact Hr].
             simpl in Hr. apply orb_false_elim in Hr. apply Hr.
          -- rewrite <- append_cons. rewrite (IH (String d r')); [lia | lia | exact Hr].
      + rewrite (IH r); [|lia | exact Hr].
        destruct (Ascii.eqb c Py.LF); lia. }
  apply (G (String.length a) a); [lia | exact H].
Qed.

Lemma get_location_line (origin : Origin) (p x : Z) :
  snd (Writer.get_location origin (p, x))
  = Py.count_newlines (Py.slice_to p (origin_text origin)) + 1.
Proof. destruct origin; reflexivity. Qed.

Lemma line_after (origin : Origin) (before t : string) (k : nat) (x : Z) :
  origin_text origin = before +:+ t ->
  snd (Writer.get_location origin
         (Z.of_nat (String.length before) + Z.of_nat k, x))
  = Py.count_newlines (before +:+ Py.slice_to_nat k t) + 1.
Proof.
  intros Ht. rewrite get_location_line, Ht, slice_to_app. reflexivity.
Qed.

Lemma line_before (origin : Origin) (before t : string) (x : Z) :
  origin_text origin = before +:+ t ->
  snd (Writer.get_location origin (Z.of_nat (String.length before), x))
  = Py.count_newlines before + 1.
Proof.
  intros Ht. pose proof (line_after origin before t 0 x Ht) as H.
  change (Z.of_nat 0) with 0 in H. rewrite Z.add_0_r in H. rewrite H.
  destruct t; simpl Py.slice_to_nat; rewrite append_nil_r; reflexivity.
Qed.

(** X6. The line number [get_location] gives for a place in a text is at
    least 1, and it does not decrease when the place moves forward: from an
    offset [p] to an offset [q] with [0 <= p <= q], the second line number
    is at least the first. Every line end counts, and counts once: the line
    number right after a carriage return is one more than the line number
    before it, and when a line feed follows, the line number after the two
    characters is still that one; the line number right after a line feed
    that follows no carriage return is one more than before it. *)
Theorem line_numbers_are_monotone :
  (forall origin p q a b,
     0 <= p <= q ->
     1 <= snd (Writer.get_location origin (p, a))
     /\ snd (Writer.get_location origin (p, a))
        <= snd (Writer.get_location origin (q, b)))
  /\ (forall origin before rest a,
        origin_text origin = before +:+ String Py.CR rest ->
        snd (Writer.get_location origin (Z.of_nat (String.length before) + 1, a))
        = snd (Writer.get_location origin (Z.of_nat (String.length before), a)) + 1
        /\ (forall rest',
              rest = String Py.LF rest' ->
              snd (Writer.get_location origin
                     (Z.of_nat (String.length before) + 2, a))
              = snd (Writer.get_location origin
                       (Z.of_nat (String.length before), a)) + 1))
  /\ (forall origin before rest a,
        origin_text origin = before +:+ String Py.LF rest ->
        Py.endswith before (Py.str1 Py.CR) = false ->
        snd (Writer.get_location origin (Z.of_nat (String.length before) + 1, a))
        = snd (Writer.get_location origin (Z.of_nat (String.length before), a)) + 1).
Proof.
  split; [|split].
  - intros origin p q a b [Hp Hq]. rewrite !get_location_line.
    unfold Py.slice_to.
    destruct (Z.leb_spec 0 p); try lia; destruct (Z.leb_spec 0 q); try lia.
    pose proof (count_newlines_nonneg
                  (Py.slice_to_nat (Z.to_nat p) (origin_text origin))).
    pose proof (count_newlines_slice_mono (origin_text origin)
                  (Z.to_nat p) (Z.to_nat q)).
    lia.
  - intros origin before rest a Ht.
    rewrite (line_before origin before _ a Ht). split.
    + pose proof (line_after origin before _ 1 a Ht) as H1.
      change (Z.of_nat 1) with 1 in H1. rewrite H1.
      change (Py.slice_to_nat 1 (String Py.CR rest)) with (Py.str1 Py.CR).
      rewrite count_newlines_app by (right; reflexivity). reflexivity.
    + intros rest' ->. pose proof (line_after origin before _ 2 a Ht) as H2.
      change (Z.of_nat 2) with 2 in H2. rewrite H2.
      change (Py.slice_to_nat 2 (String Py.CR (String Py.LF rest')))
        with (String Py.CR (Py.str1 Py.LF)).
      rewrite count_newlines_app by (right; reflexivity). reflexivity.
  - intros origin before rest a Ht Hb.
    rewrite (line_before origin before _ a Ht).
    pose proof (line_after origin before _ 1 a Ht) as H1.
    change (Z.of_nat 1) with 1 in H1. rewrite H1.
    change (Py.slice_to_nat 1 (String Py.LF rest)) with (Py.str1 Py.LF).
    rewrite count_newlines_app by (left; exact Hb). reflexivity.
Qed.

Lemma line_numbers_are_monotone_witness :
  (0 <= 2 <= 3
   /\ 1 <= snd (Writer.get_location
                  (StringOrigin ("a" +:+ Py.str1 Py.CR +:+ Py.str1 Py.LF +:+ "b"))
                  (2, 0))
   /\ snd (Writer.get_location
             (StringOrigin ("a" +:+ Py.str1 Py.CR +:+ Py.str1 Py.LF +:+ "b")) (2, 0))
      <= snd (Writer.get_location
                (StringOrigin ("a" +:+ Py.str1 Py.CR +:+ Py.str1 Py.LF +:+ "b"))
                (3, 0)))
  /\ (origin_text (StringOrigin ("a" +:+ Py.str1 Py.CR +:+ Py.str1 Py.LF +:+ "b"))
      = "a" +:+ String Py.CR (String Py.LF "b")
      /\ snd (Writer.get_location
                (StringOrigin ("a" +:+ Py.str1 Py.CR +:+ Py.str1 Py.LF +:+ "b"))
                (3, 0))
         = snd (Writer.get_location
                  (StringOrigin ("a" +:+ Py.str1 Py.CR +:+ Py.str1 Py.LF +:+ "b"))
                  (1, 0)) + 1)
  /\ (origin_text (StringOrigin ("a" +:+ Py.str1 Py.LF +:+ "b"))
      = "a" +:+ String Py.LF "b"
      /\ Py.endswith "a" (Py.str1 Py.CR) = false
      /\ snd (Writer.get_location
                (StringOrigin ("a" +:+ Py.str1 Py.LF +:+ "b")) (2, 0))
         = snd (Writer.get_location
                  (StringOrigin ("a" +:+ Py.str1 Py.LF +:+ "b")) (1, 0)) + 1).
Proof.
  split; [|split].
  - split; [lia|].
    apply (proj1 line_numbers_are_monotone
             (StringOrigin ("a" +:+ Py.str1 Py.CR +:+ Py.str1 Py.LF +:+ "b"))
             2 3 0 0).
    lia.
  - split; [reflexivity|].
    apply (proj2 (proj1 (proj2 line_numbers_are_monotone)
                    (StringOrigin
                       ("a" +:+ Py.str1 Py.CR +:+ Py.str1 Py.LF +:+ "b"))
                    "a"%string (String Py.LF "b") 0 eq_refl)
             "b"%string eq_refl).
  - split; [reflexivity|]. split; [reflexivity|].
    apply (proj2 (proj2 line_numbers_are_monotone)
             (StringOrigin ("a" +:+ Py.str1 Py.LF +:+ "b"))
             "a"%string "b"%string 0 eq_refl eq_refl).
Defined.

(** The line numbers along a text with a line end of two characters: the
    place between the two is on the second line already. *)
Example line_number_inside_a_line_end :
  map (fun p =>
         snd (Writer.get_location
                (StringOrigin ("a" +:+ Py.str1 Py.CR +:+ Py.str1 Py.LF +:+ "b"))
                (p, 0)))
    [0; 1; 2; 3; 4]
  = [1; 1; 2; 2; 2].
Proof. vm_compute. reflexivity. Qed.

(** *** The name of a block *)

Lemma append_not_empty (t : string) (c : ascii) : t +:+ Py.str1 c <> EmptyString.
Proof. destruct t; discriminate. Qed.

Lemma contains_char_replace (a b : ascii) (s : string) :
  a <> b -> Py.contains_char a (Py.replace_char a b s) = false.
Proof.
  intros Hab. induction s as [|c r IH]; [reflexivity|]. simpl.
  rewrite IH, orb_false_r.
  destruct (Ascii.eqb_spec c a) as [->|Hc].
  - apply Ascii.eqb_neq. exact Hab.
  - apply Ascii.eqb_neq. congruence.
Qed.

Lemma contains_char_rstrip_by (p : ascii -> bool) (c : ascii) (s : string) :
  Py.contains_char c s = false -> Py.contains_char c (Py.rstrip_by p s) = false.
Proof.
  induction s as [|x r IH]; [reflexivity|]. simpl.
  intros H. apply orb_false_elim in H as [Hx Hr]. specialize (IH Hr).
  destruct (Py.rstrip_by p r) as [|y r'].
  - destruct (p x); [reflexivity|]. simpl. rewrite Hx. reflexivity.
  - change (Py.contains_char c (String x (String y r')))
      with (Ascii.eqb c x || Py.contains_char c (String y r')).
    rewrite Hx, IH. reflexivity.
Qed.

Lemma rstrip_by_end (p : ascii -> bool) (s t : string) (c : ascii) :
  Py.rstrip_by p s = t +:+ Py.str1 c -> p c = false.
Proof.
  revert t. induction s as [|x r IH]; intros t H.
  - simpl in H. symmetry in H. apply append_not_empty in H. contradiction.
  - simpl in H. destruct (Py.rstrip_by p r) as [|y r'] eqn:E.
    + destruct (p x) eqn:Ex.
      * symmetry in H. apply append_not_empty in H. contradiction.
      * destruct t as [|z t'].
        -- injection H as ->. exact Ex.
        -- rewrite append_cons in H. injection H as _ H.
           symmetry in H. apply append_not_empty in H. contradiction.
    + destruct t as [|z t'].
      * discriminate.
      * rewrite append_cons in H. injection H as _ H. apply (IH t'). exact H.
Qed.

Lemma block_root_body_chain (name : string) (nodelist : list node)
    (ancestors : list (string * list node)) :
  block_root_body Writer_node (BlockNode name nodelist (block_chain ancestors))
  = Writer_body (default nodelist (last (map snd ancestors))).
Proof.
  revert name nodelist.
  induction ancestors as [|[name' nodelist'] rest IH]; intros name nodelist.
  - reflexivity.
  - change (block_root_body Writer_node
              (BlockNode name nodelist (block_chain ((name', nodelist') :: rest))))
      with (block_root_body Writer_node
              (BlockNode name' nodelist' (block_chain rest))).
    rewrite IH. cbn [map snd]. rewrite last_cons.
    destruct (last (map snd rest)); reflexivity.
Qed.

(** X8. The name a block is given in the output holds no hyphen and does
    not end with an underscore, whatever the name of the block in the
    template. Between [block] and [endblock] the handler translates the
    body of the block at the end of the chain of parents: the body of the
    block itself when it has no parent, and the body of its farthest
    ancestor otherwise, the bodies of the block and of the ancestors between
    them being left out. *)
Theorem block_name_is_sanitised (name : string) (nodelist : list node)
    (ancestors : list (string * list node)) :
  exists name',
    Writer_node (BlockNode name nodelist (block_chain ancestors))
    = (Writer.tag ("block " +:+ name') ;;
       Writer_body (default nodelist (last (map snd ancestors))) ;;
       Writer.tag "endblock")
    /\ Py.contains_char "-" name' = false
    /\ (forall t, name' <> t +:+ "_").
Proof.
  exists (Py.rstrip_char "_" (Py.replace_char "-" "_" name)).
  split; [|split].
  - rewrite <- (block_root_body_chain name). reflexivity.
  - apply contains_char_rstrip_by, contains_char_replace. discriminate.
  - intros t H. apply rstrip_by_end in H. discriminate.
Qed.

(** A block with a parent and a grandparent: the text between the tags is
    that of the grandparent. *)
Example block_with_ancestors :
  Writer.stream
    (Writer.state_of
       (Writer_node
          (BlockNode "side-bar" [TextNode "own"]
             (block_chain
                [("side-bar"%string, [TextNode "parent"]);
                 ("side-bar"%string, [TextNode "grandparent"])]))
          Writer.default))
  = "{% block side_bar %}grandparent{% endblock %}"%string.
Proof. reflexivity. Qed.

(** Hyphens become underscores before the underscores at the end go. *)
Example block_names :
  map (fun name => Py.rstrip_char "_" (Py.replace_char "-" "_" name))
    ["side-bar"; "main_"; "a-b--"; "--"]%string
  = ["side_bar"; "main"; "a_b"; ""]%string.
Proof. vm_compute. reflexivity. Qed.
(** *** The name of a simple tag *)

Lemma foldl_insert_lookup (entries : list (string * Named))
    (acc : gmap string string) (key : string) :
  foldl
    (fun acc '(func_name, func) =>
       <[__module__ func +:+ "." +:+ __name__ func := func_name]> acc)
    acc entries !! key
  = match last (List.filter
                  (fun entry : string * Named =>
                     String.eqb
                       (__module__ (snd entry) +:+ "." +:+ __name__ (snd entry))
                       key) entries) with
    | Some entry => Some (fst entry)
    | None => acc !! key
    end.
Proof.
  revert acc. induction entries as [|[func_name func] rest IH]; intros acc.
  - reflexivity.
  - simpl foldl. rewrite IH. simpl List.filter.
    destruct (String.eqb_spec (__module__ func +:+ "." +:+ __name__ func) key)
      as [E|E].
    + rewrite last_cons.
      destruct (last _) as [entry|]; [reflexivity|].
      rewrite E. simpl. apply lookup_insert_eq.
    + destruct (last _) as [entry|]; [reflexivity|].
      apply lookup_insert_ne. exact E.
Qed.

Lemma resolve_simple_tags_concat (libraries : list Library) :
  Writer.resolve_simple_tags libraries
  = foldl
      (fun acc '(func_name, func) =>
         <[__module__ func +:+ "." +:+ __name__ func := func_name]> acc)
      ∅ (concat libraries).
Proof.
  unfold Writer.resolve_simple_tags. generalize (∅ : gmap string string).
  induction libraries as [|library rest IH]; intros acc; simpl.
  - reflexivity.
  - rewrite foldl_app. apply IH.
Qed.

(** X4. On its first call, when there is no table yet, [get_simple_tag_name]
    builds the table from all the tag libraries, keeps it, and returns for a
    simple tag the name under which its function, known by its module and
    its name, was registered last, the libraries and their tags taken in
    order; it returns [None], and does not raise, when no library registers
    the function. *)
Theorem simple_tag_name_is_last_registration (func : Named)
    (args : list FilterExpression.t) (kwargs : list (string * FilterExpression.t))
    (target_var : option string) (w : Writer.t) :
  Writer._resolved_simple_tags w = None ->
  Writer.get_simple_tag_name (SimpleNode func args kwargs target_var) w
  = Writer.Ok
      (fst <$>
       last (List.filter
               (fun entry : string * Named =>
                  String.eqb
                    (__module__ (snd entry) +:+ "." +:+ __name__ (snd entry))
                    (__module__ func +:+ "." +:+ __name__ func))
               (concat (Writer.template_libraries w))))
      (Writer.set_resolved_simple_tags
         (Some (Writer.resolve_simple_tags (Writer.template_libraries w))) w).
Proof.
  intros H. unfold Writer.get_simple_tag_name, Writer.bind, Writer.attr,
    Writer.when, Writer.assign, Writer.ret.
  rewrite H. simpl. f_equal.
  rewrite resolve_simple_tags_concat, foldl_insert_lookup.
  destruct (last _) as [entry|]; reflexivity.
Qed.

Lemma simple_tag_name_is_last_registration_witness :
  Writer.get_simple_tag_name
    (SimpleNode {| __module__ := "app.tags"; __name__ := "hello" |} [] [] None)
    (Writer.__init__ "{%" "%}" "{{" "}}" "{#" "#}" true false None None None
       [ [("hello"%string, {| __module__ := "app.tags"; __name__ := "hello" |})];
         [("other"%string, {| __module__ := "app.tags"; __name__ := "other" |});
          ("hi"%string, {| __module__ := "app.tags"; __name__ := "hello" |})] ] ∅)
  = Writer.Ok (Some "hi"%string)
      (Writer.set_resolved_simple_tags
         (Some (Writer.resolve_simple_tags
                  [ [("hello"%string, {| __module__ := "app.tags"; __name__ := "hello" |})];
                    [("other"%string, {| __module__ := "app.tags"; __name__ := "other" |});
                     ("hi"%string, {| __module__ := "app.tags"; __name__ := "hello" |})] ]))
         (Writer.__init__ "{%" "%}" "{{" "}}" "{#" "#}" true false None None None
            [ [("hello"%string, {| __module__ := "app.tags"; __name__ := "hello" |})];
              [("other"%string, {| __module__ := "app.tags"; __name__ := "other" |});
               ("hi"%string, {| __module__ := "app.tags"; __name__ := "hello" |})] ] ∅)).
Proof.
  apply (simple_tag_name_is_last_registration
           {| __module__ := "app.tags"; __name__ := "hello" |} [] [] None
           (Writer.__init__ "{%" "%}" "{{" "}}" "{#" "#}" true false None None None
              [ [("hello"%string, {| __module__ := "app.tags"; __name__ := "hello" |})];
                [("other"%string, {| __module__ := "app.tags"; __name__ := "other" |});
                 ("hi"%string, {| __module__ := "app.tags"; __name__ := "hello" |})] ] ∅)).
  reflexivity.
Defined.
(** *** The filters of an expression *)

Lemma concat_empty_cons (x : string) (l : list string) :
  String.concat "" (x :: l) = x +:+ String.concat "" l.
Proof. destruct l; [symmetry; apply append_nil_r | reflexivity]. Qed.

Lemma concat_pipe_cons (x : string) (l : list string) :
  String.concat "|" (x :: l) = x +:+ String.concat "" (map (String.append "|") l).
Proof.
  revert x. induction l as [|y l IH]; intros x.
  - symmetry. apply append_nil_r.
  - change (String.concat "|" (x :: y :: l))
      with (x +:+ "|" +:+ String.concat "|" (y :: l)).
    rewrite IH. simpl map. rewrite concat_empty_cons, append_assoc. reflexivity.
Qed.

Lemma stream_set_stream s w : Writer.stream (Writer.set_stream s w) = s.
Proof. reflexivity. Qed.

Lemma stream_set_error_stream e w :
  Writer.stream (Writer.set_error_stream e w) = Writer.stream w.
Proof. reflexivity. Qed.

Lemma error_stream_set_stream s w :
  Writer.error_stream (Writer.set_stream s w) = Writer.error_stream w.
Proof. reflexivity. Qed.

Lemma error_stream_set_error_stream e w :
  Writer.error_stream (Writer.set_error_stream e w) = e.
Proof. reflexivity. Qed.

(** One filter with a name and no argument. *)
Lemma filters_from_named_step (node : Var.t -> Writer.M unit)
    (env : Jinja.Environment) (name : string)
    (rest : list (FilterFunc * list FilterArg)) (want_pipe : bool) (w : Writer.t) :
  Writer.env w = Some env ->
  exists w1,
    Writer.filters_from node want_pipe ((named_filter name, []) :: rest) w
    = Writer.filters_from node true rest w1
    /\ Writer.env w1 = Some env
    /\ Writer.stream w1
       = (if want_pipe then Writer.stream w +:+ "|" else Writer.stream w) +:+ name
    /\ Writer.error_stream w1
       = Writer.error_stream w
         ++ (if bool_decide (name ∉ Jinja.filters env)
             then ["Filter " +:+ name +:+ " probably doesn't exist in Jinja"]
             else []).
Proof.
  intros Hw.
  change (Writer.filters_from node want_pipe ((named_filter name, []) :: rest) w)
    with ((env ← Writer.attr Writer.env;
           match env with
           | None => Writer.raise AttributeError
           | Some env =>
               Writer.when (Writer.not_in (Some name) (Jinja.filters env))
                 (Writer.warn
                    ("Filter " +:+ name +:+ " probably doesn't exist in Jinja")
                    None) ;;
               (if negb want_pipe then Writer.ret tt else Writer.write "|") ;;
               Writer.write name ;;
               Writer.ret tt ;;
               Writer.filters_from node true rest
           end) w).
  unfold Writer.bind at 1. unfold Writer.attr at 1. rewrite Hw.
  unfold Writer.not_in.
  destruct (bool_decide (name ∉ Jinja.filters env)), want_pipe;
    unfold Writer.bind, Writer.when, Writer.warn, Writer.write, Writer.assign,
      Writer.ret; cbv beta iota delta [negb];
    (eexists; split; [reflexivity|]);
    (split; [exact Hw|]);
    rewrite ?stream_set_stream, ?stream_set_error_stream,
      ?error_stream_set_stream, ?error_stream_set_error_stream, ?app_nil_r;
    split; reflexivity.
Qed.

Lemma filters_from_named (node : Var.t -> Writer.M unit)
    (env : Jinja.Environment) (names : list string) :
  forall want_pipe w,
    Writer.env w = Some env ->
    exists w',
      Writer.filters_from node want_pipe
        (map (fun name => (named_filter name, [])) names) w
      = Writer.Ok tt w'
      /\ Writer.stream w'
         = Writer.stream w
           +:+ (if want_pipe
                then String.concat "" (map (String.append "|") names)
                else String.concat "|" names)
      /\ Writer.error_stream w'
         = Writer.error_stream w
           ++ map (fun name =>
                     "Filter " +:+ name +:+ " probably doesn't exist in Jinja")
                (List.filter
                   (fun name => bool_decide (name ∉ Jinja.filters env)) names).
Proof.
  induction names as [|name rest IH]; intros want_pipe w Hw.
  - exists w. split; [reflexivity|]. split.
    + destruct want_pipe; simpl; rewrite append_nil_r; reflexivity.
    + simpl. rewrite app_nil_r. reflexivity.
  - destruct (filters_from_named_step node env name
                (map (fun name => (named_filter name, [])) rest) want_pipe w Hw)
      as (w1 & E1 & V1 & S1 & R1).
    destruct (IH true w1 V1) as (w' & E' & S' & R').
    exists w'. split; [|split].
    + simpl map. rewrite E1. exact E'.
    + rewrite S', S1. destruct want_pipe.
      * simpl map. rewrite concat_empty_cons, !append_assoc. reflexivity.
      * rewrite concat_pipe_cons, !append_assoc. reflexivity.
    + rewrite R', R1. simpl List.filter.
      destruct (bool_decide (name ∉ Jinja.filters env)); simpl;
        rewrite <- ?app_assoc, ?app_nil_r; reflexivity.
Qed.

(** X9. With a Jinja environment, filters that have a name and no
    argument are written in order, each with its name: after a pipe each
    for an expression, with pipes between them for a [filter] block; the
    call returns, and prints one warning, in order, for each name the
    environment does not know. *)
Theorem filters_are_joined_by_pipes (node : Var.t -> Writer.M unit)
    (names : list string) (is_block : bool) (env : Jinja.Environment)
    (w : Writer.t) :
  Writer.env w = Some env ->
  exists w',
    Writer.filters node (map (fun name => (named_filter name, [])) names) is_block w
    = Writer.Ok tt w'
    /\ Writer.stream w'
       = Writer.stream w
         +:+ (if is_block then String.concat "|" names
              else String.concat "" (map (String.append "|") names))
    /\ Writer.error_stream w'
       = Writer.error_stream w
         ++ map (fun name => "Filter " +:+ name +:+ " probably doesn't exist in Jinja")
              (List.filter (fun name => bool_decide (name ∉ Jinja.filters env))
                 names).
Proof.
  intros Hw. unfold Writer.filters.
  destruct (filters_from_named node env names (negb is_block) w Hw)
    as (w' & E & S & R).
  exists w'. split; [exact E|]. split; [|exact R].
  rewrite S. destruct is_block; reflexivity.
Qed.

Lemma filters_are_joined_by_pipes_witness :
  exists w',
    Writer.filters node_Variable
      (map (fun name => (named_filter name, [])) ["lower"; "title"]%string)
      false
      (Writer.__init__ "{%" "%}" "{{" "}}" "{#" "#}" true false None
         (Some {| Jinja.filters := {["lower"%string]}; Jinja.globals := ∅ |})
         None [] ∅)
    = Writer.Ok tt w'
    /\ Writer.stream w' = "|lower|title"%string
    /\ Writer.error_stream w' = ["Filter title probably doesn't exist in Jinja"%string].
Proof.
  destruct (filters_are_joined_by_pipes node_Variable ["lower"; "title"]%string false
              {| Jinja.filters := {["lower"%string]}; Jinja.globals := ∅ |}
              (Writer.__init__ "{%" "%}" "{{" "}}" "{#" "#}" true false None
                 (Some {| Jinja.filters := {["lower"%string]}; Jinja.globals := ∅ |})
                 None [] ∅)
              eq_refl) as (w' & H & Hs & He).
  exists w'. split; [exact H|]. split; [exact Hs | exact He].
Defined.
(** *** The text of a printed expression *)

Lemma bind_ok {A B} (m : Writer.M A) (k : A -> Writer.M B) w a w1 :
  m w = Writer.Ok a w1 -> Writer.bind m k w = k a w1.
Proof. intros H. unfold Writer.bind. rewrite H. reflexivity. Qed.

Lemma put_put (s t : string) (w : Writer.t) : put t (put s w) = put (s +:+ t) w.
Proof.
  unfold put. rewrite stream_set_stream, append_assoc. reflexivity.
Qed.

Lemma write_put (s : string) (w : Writer.t) :
  Writer.write s w = Writer.Ok tt (put s w).
Proof. reflexivity. Qed.

Lemma start_variable_put (w : Writer.t) :
  Writer.start_variable w
  = Writer.Ok tt
      (put (Writer.variable_start_string w
            +:+ (if Writer.spaceless w then "- " else " ")) w).
Proof.
  rewrite <- put_put. unfold Writer.start_variable, Writer._post_open.
  unfold Writer.bind, Writer.attr. rewrite write_put.
  change (Writer.spaceless (put (Writer.variable_start_string w) w))
    with (Writer.spaceless w).
  destruct (Writer.spaceless w); reflexivity.
Qed.

Lemma end_variable_put (always_safe : bool) (w : Writer.t) :
  Writer.end_variable always_safe w
  = Writer.Ok tt
      (put ((if negb always_safe && Writer.autoescape w
                && negb (Writer.use_jinja_autoescape w)
             then "|e" else "")
            +:+ (if Writer.spaceless w then " -" else " ")
            +:+ Writer.variable_end_string w) w).
Proof.
  rewrite <- !put_put.
  unfold Writer.end_variable, Writer._pre_close, Writer.when.
  unfold Writer.bind at 1 2, Writer.attr at 1 2.
  destruct (negb always_safe && Writer.autoescape w
            && negb (Writer.use_jinja_autoescape w));
    unfold Writer.bind, Writer.attr, Writer.ret; rewrite ?write_put.
  - change (Writer.spaceless (put "|e" w)) with (Writer.spaceless w).
    destruct (Writer.spaceless w); reflexivity.
  - destruct (Writer.spaceless w); unfold put at 3; simpl;
      rewrite append_nil_r; destruct w; reflexivity.
Qed.

(** *** The cycle node *)






Lemma cycle_iterators_put s w :
  Writer.cycle_iterators (put s w) = Writer.cycle_iterators w.
Proof. reflexivity. Qed.


Lemma stream_put s w : Writer.stream (put s w) = Writer.stream w +:+ s.
Proof. reflexivity. Qed.

Lemma stream_advance this w : Writer.stream (advance this w) = Writer.stream w.
Proof. reflexivity. Qed.

Lemma error_stream_put s w :
  Writer.error_stream (put s w) = Writer.error_stream w.
Proof. reflexivity. Qed.

Lemma error_stream_advance this w :
  Writer.error_stream (advance this w) = Writer.error_stream w.
Proof. reflexivity. Qed.

Lemma spaceless_put s w : Writer.spaceless (put s w) = Writer.spaceless w.
Proof. reflexivity. Qed.

Lemma spaceless_advance this w :
  Writer.spaceless (advance this w) = Writer.spaceless w.
Proof. reflexivity. Qed.

Lemma autoescape_put s w : Writer.autoescape (put s w) = Writer.autoescape w.
Proof. reflexivity. Qed.

Lemma autoescape_advance this w :
  Writer.autoescape (advance this w) = Writer.autoescape w.
Proof. reflexivity. Qed.

Lemma use_jinja_autoescape_put s w :
  Writer.use_jinja_autoescape (put s w) = Writer.use_jinja_autoescape w.
Proof. reflexivity. Qed.

Lemma use_jinja_autoescape_advance this w :
  Writer.use_jinja_autoescape (advance this w) = Writer.use_jinja_autoescape w.
Proof. reflexivity. Qed.

Lemma variable_end_string_put s w :
  Writer.variable_end_string (put s w) = Writer.variable_end_string w.
Proof. reflexivity. Qed.

Lemma variable_end_string_advance this w :
  Writer.variable_end_string (advance this w) = Writer.variable_end_string w.
Proof. reflexivity. Qed.



(** The fields of a writer after texts have been added and values read. *)
Ltac fields :=
  repeat first
    [ rewrite stream_put | rewrite stream_advance | rewrite error_stream_put
    | rewrite error_stream_advance | rewrite cycle_iterators_put
    | rewrite spaceless_put | rewrite spaceless_advance
    | rewrite autoescape_put | rewrite autoescape_advance
    | rewrite use_jinja_autoescape_put | rewrite use_jinja_autoescape_advance
    | rewrite variable_end_string_put | rewrite variable_end_string_advance ].





(** The texts: in the body of a loop, with the default configuration and
    inside an [autoescape off] region, and outside a loop. *)
Example cycle_texts :
  Writer.stream
    (Writer.state_of
       (Writer_node
          (ForNode ["x"%string] false (name_expression "xs") [cycle_a_b None 1] [])
          Writer.default))
  = "{% for x in xs %}{{ loop.cycle('a', 'b')|e }}{% endfor %}"%string
  /\ Writer.stream
       (Writer.state_of
          (Writer_node
             (ForNode ["x"%string] false (name_expression "xs")
                [AutoEscapeControlNode false [cycle_a_b None 1]] [])
             Writer.default))
     = "{% for x in xs %}{{ loop.cycle('a', 'b') }}{% endfor %}"%string
  /\ (let w := Writer.state_of (Writer_node (cycle_a_b None 1) Writer.default) in
      Writer.stream w = ""%string
      /\ Writer.error_stream w
         = ["Untranslatable free cycle (cycle outside loop)"%string]).
Proof. vm_compute. repeat split; reflexivity. Qed.

(** The node the [cycle] tag of Django builds holds expressions, not texts:
    inside a loop the handler raises when it asks for the first value, the
    opening of the call being written already, and the value counts as
    read. *)
Example cycle_of_expressions_raises :
  exists w',
    Writer_node
      (CycleNode None
         [CycleExpression (name_expression "a");
          CycleExpression (name_expression "b")] None 1)
      (Writer.set_loop_depth 1 Enter Writer.default)
    = Writer.Raise TypeError w'
    /\ Writer.stream w' = "{{ loop.cycle("%string
    /\ Writer.cycle_iterators w' !! 1%positive = Some 1%nat.
Proof. eexists. split; [reflexivity|]. vm_compute. split; reflexivity. Qed.

(** *** The variable node of [block.super] *)

Lemma node_Variable_name (x name : string) (w : Writer.t) :
  Writer.translate_variable_name x w = Writer.Ok name w ->
  node_Variable (name_variable x) w = Writer.Ok tt (put name w).
Proof.
  intros H. rewrite node_Variable_eq. unfold variable, name_variable.
  cbv beta iota delta [Var.translate Var.literal Var.var Writer.when].
  unfold Writer.variable, Writer.bind, Writer.ret. cbv beta iota.
  rewrite H. reflexivity.
Qed.

Lemma frame_fields (w w' : Writer.t) :
  frame w' = frame w ->
  Writer.variable_end_string w' = Writer.variable_end_string w
  /\ Writer.autoescape w' = Writer.autoescape w
  /\ Writer.spaceless w' = Writer.spaceless w
  /\ Writer.use_jinja_autoescape w' = Writer.use_jinja_autoescape w.
Proof. unfold frame. intros H. injection H as _ _ _ Hve _ _ Ha Hs Hj _ _. auto. Qed.

(** C10. A variable node whose expression is the variable [block.super]
    without filters: the handler returns, writes nothing to the error
    stream and adds to the output stream the opening delimiter, the text
    [super()], the filter [|e] when autoescape is on and not left to Jinja,
    and the closing delimiter, whatever the rewrite rules and the loop
    depth. With one filter or more the name goes through the rewrite rules
    as any other name: what follows the opening delimiter is the name the
    rules give for [block.super], and then come the filters; for filters
    that have a name and no argument, and a writer with a Jinja
    environment, the text is the name, each filter after a pipe, and the
    end of the expression. *)
Theorem block_super_special_case :
  (forall token v w,
     Var.var v = "block.super"%string ->
     exists w',
       Writer_node
         (VariableNode
            {| FilterExpression.token := token;
               FilterExpression.var := FVariable v;
               FilterExpression.filters := [] |}) w
       = Writer.Ok tt w'
       /\ Writer.stream w'
          = Writer.stream w
            +:+ Writer.variable_start_string w
            +:+ (if Writer.spaceless w then "- " else " ")
            +:+ "super()"
            +:+ (if Writer.autoescape w && negb (Writer.use_jinja_autoescape w)
                 then "|e" else "")
            +:+ (if Writer.spaceless w then " -" else " ")
            +:+ Writer.variable_end_string w
       /\ Writer.error_stream w' = Writer.error_stream w)
  /\ (forall token filter filters w name,
        Writer.translate_rules (Writer.var_re w) "block.super" = Some name ->
        Writer_node
          (VariableNode
             {| FilterExpression.token := token;
                FilterExpression.var := FVariable (name_variable "block.super");
                FilterExpression.filters := filter :: filters |}) w
        = (Writer.filters node_Variable (filter :: filters) false ;;
           Writer.end_variable false)
            (Writer.set_stream
               (Writer.stream w
                +:+ Writer.variable_start_string w
                +:+ (if Writer.spaceless w then "- " else " ")
                +:+ name) w))
  /\ (forall token first others w name env,
        Writer.translate_rules (Writer.var_re w) "block.super" = Some name ->
        Writer.env w = Some env ->
        exists w',
          Writer_node
            (VariableNode
               {| FilterExpression.token := token;
                  FilterExpression.var := FVariable (name_variable "block.super");
                  FilterExpression.filters :=
                    map (fun filter => (named_filter filter, []))
                      (first :: others) |}) w
          = Writer.Ok tt w'
          /\ Writer.stream w'
             = Writer.stream w
               +:+ Writer.variable_start_string w
               +:+ (if Writer.spaceless w then "- " else " ")
               +:+ name
               +:+ String.concat "" (map (String.append "|") (first :: others))
               +:+ (if Writer.autoescape w && negb (Writer.use_jinja_autoescape w)
                    then "|e" else "")
               +:+ (if Writer.spaceless w then " -" else " ")
               +:+ Writer.variable_end_string w
          /\ Writer.error_stream w'
             = Writer.error_stream w
               ++ map (fun filter =>
                         "Filter " +:+ filter +:+ " probably doesn't exist in Jinja")
                    (List.filter
                       (fun filter => bool_decide (filter ∉ Jinja.filters env))
                       (first :: others))).
Proof.
  assert (General : forall token filter filters w name,
            Writer.translate_rules (Writer.var_re w) "block.super" = Some name ->
            Writer_node
              (VariableNode
                 {| FilterExpression.token := token;
                    FilterExpression.var := FVariable (name_variable "block.super");
                    FilterExpression.filters := filter :: filters |}) w
            = (Writer.filters node_Variable (filter :: filters) false ;;
               Writer.end_variable false)
                (put (Writer.variable_start_string w
                      +:+ (if Writer.spaceless w then "- " else " ")
                      +:+ name) w)).
  { intros token filter filters w name Hn.
    rewrite Writer_node_VariableNode. unfold variable_node.
    rewrite (bind_ok _ _ _ _ _ (start_variable_put w)).
    cbv beta iota delta [FilterExpression.var FilterExpression.filters].
    change (bool_decide (filter :: filters = [])) with false.
    rewrite andb_false_r. rewrite node_FilterExpression_eq.
    unfold filter_expression.
    cbv beta iota delta [FilterExpression.var FilterExpression.filters].
    set (w1 := put _ w).
    assert (Hv : node_Variable (name_variable "block.super") w1
                 = Writer.Ok tt (put name w1)).
    { apply node_Variable_name.
      rewrite translate_variable_name_other by reflexivity.
      change (Writer.var_re w1) with (Writer.var_re w). rewrite Hn. reflexivity. }
    unfold Writer.bind at 1 2. rewrite Hv. subst w1. rewrite put_put.
    rewrite append_assoc. reflexivity. }
  split; [|split].
  - intros token v w Hv. rewrite Writer_node_VariableNode. unfold variable_node.
    rewrite (bind_ok _ _ _ _ _ (start_variable_put w)).
    cbv beta iota delta [FilterExpression.var FilterExpression.filters].
    rewrite Hv. change (("block.super" =? "block.super")%string) with true.
    change (bool_decide (@nil (FilterFunc * list FilterArg) = [])) with true.
    cbv beta iota delta [andb].
    rewrite (bind_ok _ _ _ _ _ (write_put _ _)), end_variable_put.
    eexists. split; [reflexivity|]. fields.
    change (negb false) with true. rewrite andb_true_l.
    split; [|reflexivity]. rewrite !append_assoc. reflexivity.
  - intros token filter filters w name Hn.
    rewrite (General token filter filters w name Hn). reflexivity.
  - intros token first others w name env Hn He.
    cbn [map]. rewrite (General token _ _ w name Hn).
    set (w1 := put _ w).
    destruct (filters_from_named node_Variable env (first :: others) true w1 He)
      as (w2 & E & S & R).
    assert (F : frame w2 = frame w1).
    { apply (scoped_returns
               (Writer.filters node_Variable
                  (map (fun filter => (named_filter filter, [])) (first :: others))
                  false) w1 tt w2).
      - apply scoped_filters, scoped_node_Variable.
      - exact E. }
    apply frame_fields in F. destruct F as (Fe & Fa & Fs & Fj).
    cbn [map] in E. rewrite (bind_ok _ _ _ _ _ E), end_variable_put.
    eexists. split; [reflexivity|]. fields.
    rewrite S, R, Fe, Fa, Fs, Fj. subst w1. fields.
    change (negb false) with true. rewrite andb_true_l.
    split; [|reflexivity]. rewrite !append_assoc. reflexivity.
Qed.

Lemma block_super_special_case_witness :
  (Var.var (name_variable "block.super") = "block.super"%string
   /\ exists w',
        Writer_node (VariableNode (name_expression "block.super"))
          (writer_with [(literal_pattern "block.super", "parent"%string, None)]
             {| Jinja.filters := {["upper"%string]}; Jinja.globals := ∅ |})
        = Writer.Ok tt w'
        /\ Writer.stream w' = "{{ super()|e }}"%string
        /\ Writer.error_stream w' = [])
  /\ (Writer.translate_rules
        [(literal_pattern "block.super", "parent"%string, None)] "block.super"
      = Some "parent"%string
      /\ exists w',
           Writer_node (VariableNode (filtered_expression "block.super" "upper"))
             (writer_with [(literal_pattern "block.super", "parent"%string, None)]
                {| Jinja.filters := {["upper"%string]}; Jinja.globals := ∅ |})
           = Writer.Ok tt w'
           /\ Writer.stream w' = "{{ parent|upper|e }}"%string
           /\ Writer.error_stream w' = []).
Proof.
  split.
  - split; [reflexivity|].
    destruct (proj1 block_super_special_case "block.super"%string
                (name_variable "block.super")
                (writer_with [(literal_pattern "block.super", "parent"%string, None)]
                   {| Jinja.filters := {["upper"%string]}; Jinja.globals := ∅ |})
                eq_refl) as (w' & E & S & R).
    exists w'. split; [exact E|]. split; [exact S | exact R].
  - split; [reflexivity|].
    destruct (proj2 (proj2 block_super_special_case)
                "block.super|upper"%string "upper"%string []
                (writer_with [(literal_pattern "block.super", "parent"%string, None)]
                   {| Jinja.filters := {["upper"%string]}; Jinja.globals := ∅ |})
                "parent"%string
                {| Jinja.filters := {["upper"%string]}; Jinja.globals := ∅ |}
                eq_refl eq_refl) as (w' & E & S & R).
    exists w'. split; [exact E|]. split; [exact S | exact R].
Defined.

(** *** When the filters raise *)

Lemma always_returns_ret {A} (a : A) : always_returns (Writer.ret a).
Proof. intros w. exists a, w. repeat split. Qed.

Lemma always_returns_attr {A} (f : Writer.t -> A) : always_returns (Writer.attr f).
Proof. intros w. exists (f w), w. repeat split. Qed.

Lemma always_returns_bind {A B} (m : Writer.M A) (f : A -> Writer.M B) :
  always_returns m -> (forall a, always_returns (f a)) ->
  always_returns (Writer.bind m f).
Proof.
  intros Hm Hf w. destruct (Hm w) as (a & w1 & E1 & V1 & R1).
  destruct (Hf a w1) as (b & w2 & E2 & V2 & R2).
  exists b, w2. unfold Writer.bind. rewrite E1.
  split; [exact E2 | split; congruence].
Qed.

Lemma always_returns_assign (f : Writer.t -> Writer.t) :
  (forall w, Writer.env (f w) = Writer.env w) ->
  (forall w, Writer.var_re (f w) = Writer.var_re w) ->
  always_returns (Writer.assign f).
Proof. intros He Hr w. exists tt, (f w). split; [reflexivity|]. split; auto. Qed.

Lemma always_returns_write (s : string) : always_returns (Writer.write s).
Proof. apply always_returns_assign; reflexivity. Qed.

Lemma always_returns_warn message source :
  always_returns (Writer.warn message source).
Proof. apply always_returns_assign; reflexivity. Qed.

Lemma always_returns_when (c : bool) (m : Writer.M unit) :
  always_returns m -> always_returns (Writer.when c m).
Proof. intros H. destruct c; [exact H | apply always_returns_ret]. Qed.

Lemma always_returns_literal value : always_returns (Writer.literal value).
Proof. unfold Writer.literal. apply always_returns_write. Qed.

Lemma safe_of_always_returns {A} (m : Writer.M A) :
  always_returns m -> safe (fun _ => True) m.
Proof.
  intros H w _ _. destruct (H w) as (a & w' & E & V & R).
  exists a, w'. auto.
Qed.

Lemma safe_ret {A} (Q : A -> Prop) (a : A) : Q a -> safe Q (Writer.ret a).
Proof. intros H w _ _. exists a, w. auto. Qed.

Lemma safe_bind {A B} (Q : A -> Prop) (R : B -> Prop)
    (m : Writer.M A) (f : A -> Writer.M B) :
  safe Q m -> (forall a, Q a -> safe R (f a)) -> safe R (Writer.bind m f).
Proof.
  intros Hm Hf w Hw Hr. destruct (Hm w Hw Hr) as (a & w1 & E1 & V1 & R1 & Q1).
  destruct (Hf a Q1 w1) as (b & w2 & E2 & V2 & R2 & Q2);
    [congruence | congruence |].
  exists b, w2. unfold Writer.bind. rewrite E1.
  split; [exact E2 | split; [congruence | split; [congruence | exact Q2]]].
Qed.

Lemma safe_bind_any {A B} (R : B -> Prop) (m : Writer.M A) (f : A -> Writer.M B) :
  safe (fun _ => True) m -> (forall a, safe R (f a)) -> safe R (Writer.bind m f).
Proof. intros Hm Hf. apply (safe_bind (fun _ => True)); auto. Qed.

Lemma safe_when (c : bool) (m : Writer.M unit) :
  safe (fun _ => True) m -> safe (fun _ => True) (Writer.when c m).
Proof. intros H. destruct c; [exact H | apply safe_ret; exact I]. Qed.

Lemma safe_for_enumerate_from {A} (f : nat -> A -> Writer.M unit) (l : list A) :
  Forall (fun x => forall idx, safe (fun _ => True) (f idx x)) l ->
  forall idx, safe (fun _ => True) (Writer.for_enumerate_from f idx l).
Proof.
  induction 1 as [|x l Hx Hl IH]; intros idx; simpl.
  - apply safe_ret. exact I.
  - apply safe_bind_any; [apply Hx | intros _; apply IH].
Qed.

Lemma safe_for_enumerate {A} (f : nat -> A -> Writer.M unit) (l : list A) :
  Forall (fun x => forall idx, safe (fun _ => True) (f idx x)) l ->
  safe (fun _ => True) (Writer.for_enumerate f l).
Proof. intros H. apply safe_for_enumerate_from, H. Qed.

(** With rules that do not raise, a name is translated. *)
Lemma safe_translate_variable_name var :
  safe (fun _ => True) (Writer.translate_variable_name var).
Proof.
  intros w _ Hr. unfold Writer.translate_variable_name, Writer.bind,
    Writer.in_loop, Writer.attr.
  match goal with
  | |- context [Writer.translate_rules ?r ?v] =>
      destruct (Writer.translate_rules r v) as [name|] eqn:E;
        [|destruct (Hr v E)]
  end.
  exists name, w. auto.
Qed.

Lemma safe_variable name : safe (fun _ => True) (Writer.variable name).
Proof.
  unfold Writer.variable.
  apply safe_bind_any; [apply safe_translate_variable_name|intros name'].
  apply safe_of_always_returns, always_returns_write.
Qed.

(** [writer.node] on a [Variable] returns. *)
Lemma safe_node_Variable v : safe (fun _ => True) (node_Variable v).
Proof.
  rewrite node_Variable_eq. unfold variable.
  apply safe_bind_any; [|intros _; apply safe_bind_any; [|intros _]].
  - apply safe_when, safe_of_always_returns.
    apply always_returns_bind; [apply always_returns_warn|intros _].
    apply always_returns_write.
  - destruct (Var.literal v);
      [apply safe_of_always_returns, always_returns_literal | apply safe_variable].
  - apply safe_when, safe_of_always_returns, always_returns_write.
Qed.

Lemma safe_attr_env {B} (R : B -> Prop)
    (f : option Jinja.Environment -> Writer.M B) :
  (forall env, safe R (f (Some env))) ->
  safe R (Writer.bind (Writer.attr Writer.env) f).
Proof.
  intros H w Hw Hr. unfold Writer.bind, Writer.attr.
  destruct (Writer.env w) as [env|] eqn:E; [|contradiction].
  destruct (H env w) as (a & w' & E' & V & R' & Q);
    [rewrite E; discriminate | exact Hr|].
  exists a, w'. rewrite E in V. auto.
Qed.

Lemma safe_filters_from filters :
  forall want_pipe,
    safe (fun _ => True) (Writer.filters_from node_Variable want_pipe filters).
Proof.
  induction filters as [|[filter args] rest IH]; intros want_pipe; simpl.
  - apply safe_ret. exact I.
  - destruct (Writer.get_filter_name filter) as [name|].
    + apply safe_attr_env. intros env.
      apply safe_bind_any;
        [apply safe_when, safe_of_always_returns, always_returns_warn|intros _].
      apply safe_bind_any;
        [destruct (negb want_pipe); apply safe_of_always_returns;
         [apply always_returns_ret | apply always_returns_write]|intros _].
      apply safe_bind_any;
        [apply safe_of_always_returns, always_returns_write|intros _].
      apply safe_bind_any; [|intros _; apply IH].
      apply safe_when.
      apply safe_bind_any;
        [apply safe_of_always_returns, always_returns_write|intros _].
      apply safe_bind_any;
        [|intros _; apply safe_of_always_returns, always_returns_write].
      apply safe_for_enumerate, Forall_forall. intros arg _ idx.
      apply safe_bind_any;
        [apply safe_when, safe_of_always_returns, always_returns_write|intros _].
      destruct arg;
        [apply safe_node_Variable
        | apply safe_of_always_returns, always_returns_literal].
    + apply safe_bind_any;
        [apply safe_of_always_returns, always_returns_warn|intros _; apply IH].
Qed.

Lemma safe_filters filters is_block :
  safe (fun _ => True) (Writer.filters node_Variable filters is_block).
Proof. apply safe_filters_from. Qed.

Lemma filters_from_unnamed filters :
  forall want_pipe w,
    Forall (fun fa : FilterFunc * list FilterArg =>
              Writer.get_filter_name (fst fa) = None) filters ->
    exists w',
      Writer.filters_from node_Variable want_pipe filters w = Writer.Ok tt w'.
Proof.
  induction filters as [|[filter args] rest IH]; intros want_pipe w H.
  - exists w. reflexivity.
  - apply Forall_cons_1 in H as [Hf Hrest]. simpl in Hf. simpl. rewrite Hf.
    unfold Writer.bind, Writer.warn, Writer.assign. apply IH. exact Hrest.
Qed.

Lemma filters_from_without_env filters :
  forall want_pipe w,
    Writer.env w = None ->
    Exists (fun fa : FilterFunc * list FilterArg =>
              Writer.get_filter_name (fst fa) <> None) filters ->
    exists w',
      Writer.filters_from node_Variable want_pipe filters w
      = Writer.Raise AttributeError w'.
Proof.
  induction filters as [|[filter args] rest IH]; intros want_pipe w Hw H.
  - apply Exists_nil in H. contradiction.
  - simpl. destruct (Writer.get_filter_name filter) as [name|] eqn:E.
    + unfold Writer.bind, Writer.attr. rewrite Hw. eexists. reflexivity.
    + apply Exists_cons in H as [H | H]; [simpl in H; contradiction|].
      unfold Writer.bind, Writer.warn, Writer.assign. apply IH; [exact Hw | exact H].
Qed.

(** X10. With rewrite rules that do not raise, [Writer.filters] raises in
    one case only: the writer has no Jinja environment and one of the
    filters has a name; it then raises [AttributeError]. With an
    environment, or when no filter has a name, it returns, whatever the
    arguments of the filters. *)
Theorem filters_raise_without_env_only
    (filters : list (FilterFunc * list FilterArg)) (is_block : bool)
    (w : Writer.t) :
  rules_return (Writer.var_re w) ->
  (Writer.env w = None
   /\ Exists (fun fa : FilterFunc * list FilterArg =>
                Writer.get_filter_name (fst fa) <> None) filters ->
   exists w',
     Writer.filters node_Variable filters is_block w
     = Writer.Raise AttributeError w')
  /\ (Writer.env w <> None
      \/ Forall (fun fa : FilterFunc * list FilterArg =>
                   Writer.get_filter_name (fst fa) = None) filters ->
      exists w',
        Writer.filters node_Variable filters is_block w = Writer.Ok tt w').
Proof.
  intros Hr. split.
  - intros [Hw H]. apply filters_from_without_env; assumption.
  - intros [Hw | H].
    + destruct (safe_filters filters is_block w Hw Hr) as ([] & w' & E & _).
      exists w'. exact E.
    + apply filters_from_unnamed. exact H.
Qed.

Lemma rules_return_nil : rules_return [].
Proof. intros var. discriminate. Qed.

Lemma filters_raise_without_env_only_witness :
  rules_return (Writer.var_re Writer.default)
  /\ (exists w',
        Writer.filters node_Variable
          [({| _filter_name := None |}, []); (named_filter "upper", [])] false
          Writer.default
        = Writer.Raise AttributeError w')
  /\ (exists w',
        Writer.filters node_Variable
          [(named_filter "upper", [ArgConst (PyInt 3); ArgVar (name_variable "x")])]
          false
          (writer_with [] {| Jinja.filters := ∅; Jinja.globals := ∅ |})
        = Writer.Ok tt w').
Proof.
  split; [exact rules_return_nil|]. split.
  - apply (proj1 (filters_raise_without_env_only
                    [({| _filter_name := None |}, []); (named_filter "upper", [])]
                    false Writer.default rules_return_nil)).
    split; [reflexivity|]. apply Exists_cons_tl, Exists_cons_hd. discriminate.
  - apply (proj2 (filters_raise_without_env_only
                    [(named_filter "upper",
                      [ArgConst (PyInt 3); ArgVar (name_variable "x")])]
                    false
                    (writer_with [] {| Jinja.filters := ∅; Jinja.globals := ∅ |})
                    rules_return_nil)).
    left. discriminate.
Defined.

(** The two writers on the same filters. *)
Example filters_with_arguments :
  Writer.stream
    (Writer.state_of
       (Writer.filters node_Variable
          [(named_filter "default", [ArgConst (PyStr "none")]);
           (named_filter "add", [ArgVar (name_variable "n")])]
          false
          (writer_with [] {| Jinja.filters := ∅; Jinja.globals := ∅ |})))
  = "|default('none')|add(n)"%string.
Proof. vm_compute. reflexivity. Qed.

(** A rule whose substitution raises, as a replacement that names a group
    the pattern does not have: the argument that is a variable makes
    [filters] raise, the name of the filter being written already. *)
Example filters_with_a_raising_rule :
  let reg := {| search := fun _ => true; sub := fun _ _ => None |} in
  Writer.filters node_Variable
    [(named_filter "add", [ArgVar (name_variable "n")])] false
    (writer_with [(reg, "\1"%string, None)]
       {| Jinja.filters := ∅; Jinja.globals := ∅ |})
  = Writer.Raise ReError
      (Writer.set_error_stream ["Filter add probably doesn't exist in Jinja"%string]
         (Writer.set_stream "|add("
            (writer_with [(reg, "\1"%string, None)]
               {| Jinja.filters := ∅; Jinja.globals := ∅ |}))).
Proof. vm_compute. reflexivity. Qed.

(** *** The exceptions of a translation block *)

Lemma raises_only_always_returns {A} (E : exn -> Prop) (m : Writer.M A) :
  always_returns m -> raises_only E m.
Proof.
  intros H w e w' Hm. destruct (H w) as (a & w1 & E1 & _). congruence.
Qed.

Lemma raises_only_raise {A} (E : exn -> Prop) (e : exn) :
  E e -> raises_only E (@Writer.raise A e).
Proof. intros He w e' w' H. injection H as <- _. exact He. Qed.

Lemma raises_only_bind_returns {A B} (E : exn -> Prop) (Q : A -> Prop)
    (m : Writer.M A) (f : A -> Writer.M B) :
  raises_only E m -> returns Q m -> (forall a, Q a -> raises_only E (f a)) ->
  raises_only E (Writer.bind m f).
Proof.
  intros Hm HQ Hf w e w'. unfold Writer.bind.
  destruct (m w) as [a w1 | e1 w1] eqn:E1.
  - apply (Hf a (HQ _ _ _ E1)).
  - intros H. injection H as <- _. apply (Hm _ _ _ E1).
Qed.

Lemma raises_only_bind {A B} (E : exn -> Prop)
    (m : Writer.M A) (f : A -> Writer.M B) :
  raises_only E m -> (forall a, raises_only E (f a)) ->
  raises_only E (Writer.bind m f).
Proof.
  intros Hm Hf.
  apply (raises_only_bind_returns E (fun _ => True)); auto.
  intros w a w' _. exact I.
Qed.

Lemma raises_only_when (E : exn -> Prop) (c : bool) (m : Writer.M unit) :
  raises_only E m -> raises_only E (Writer.when c m).
Proof.
  intros H. destruct c; [exact H|].
  apply raises_only_always_returns, always_returns_ret.
Qed.

Lemma raises_only_for_enumerate_from {A} (E : exn -> Prop)
    (f : nat -> A -> Writer.M unit) (l : list A) :
  (forall idx x, raises_only E (f idx x)) ->
  forall idx, raises_only E (Writer.for_enumerate_from f idx l).
Proof.
  intros Hf. induction l as [|x l IH]; intros idx; simpl.
  - apply raises_only_always_returns, always_returns_ret.
  - apply raises_only_bind; [apply Hf | intros _; apply IH].
Qed.

Lemma returns_ret {A} (Q : A -> Prop) (a : A) : Q a -> returns Q (Writer.ret a).
Proof. intros H w a' w' E. injection E as <- _. exact H. Qed.

Lemma returns_bind {A B} (Q : B -> Prop) (m : Writer.M A) (f : A -> Writer.M B) :
  (forall a, returns Q (f a)) -> returns Q (Writer.bind m f).
Proof.
  intros Hf w b w'. unfold Writer.bind.
  destruct (m w) as [a w1 | e1 w1]; [apply Hf | discriminate].
Qed.

Lemma raises_only_for_fold {A S} (E : exn -> Prop) (Q : S -> Prop)
    (f : S -> A -> Writer.M S) (l : list A) :
  (forall st x, Q st -> raises_only E (f st x)) ->
  (forall st x, Q st -> returns Q (f st x)) ->
  forall st, Q st -> raises_only E (for_fold f st l) /\ returns Q (for_fold f st l).
Proof.
  intros HE HQ. induction l as [|x l IH]; intros st Hst; simpl.
  - split; [apply raises_only_always_returns, always_returns_ret
           | apply returns_ret, Hst].
  - split.
    + apply (raises_only_bind_returns E Q); [apply HE, Hst | apply HQ, Hst|].
      intros st' Hst'. apply IH, Hst'.
    + intros w b w'. unfold Writer.bind.
      destruct (f st x w) as [st' w1 | e1 w1] eqn:E1; [|discriminate].
      apply (proj2 (IH st' (HQ _ _ Hst _ _ _ E1))).
Qed.

(** The methods that write a delimiter return. *)
Ltac returns_step :=
  first
    [ apply always_returns_bind; [|intros ?]
    | apply always_returns_attr | apply always_returns_ret
    | apply always_returns_write | apply always_returns_warn
    | apply always_returns_when
    | match goal with |- always_returns (if ?c then _ else _) => destruct c end ].

Lemma always_returns_start_block : always_returns Writer.start_block.
Proof. unfold Writer.start_block, Writer._post_open. repeat returns_step. Qed.

Lemma always_returns_end_block : always_returns Writer.end_block.
Proof. unfold Writer.end_block, Writer._pre_close. repeat returns_step. Qed.

Lemma always_returns_tag name : always_returns (Writer.tag name).
Proof.
  unfold Writer.tag.
  apply always_returns_bind; [apply always_returns_start_block|intros _].
  apply always_returns_bind; [apply always_returns_write|intros _].
  apply always_returns_end_block.
Qed.

Lemma always_returns_print_expr expr : always_returns (Writer.print_expr expr).
Proof.
  unfold Writer.print_expr, Writer.start_variable, Writer.end_variable,
    Writer._post_open, Writer._pre_close.
  repeat returns_step.
Qed.

(** A name is translated, or the substitution of a rule raises. *)
Lemma raises_only_translate_variable_name (E : exn -> Prop) var :
  E ReError -> raises_only E (Writer.translate_variable_name var).
Proof.
  intros HE w e w'. unfold Writer.translate_variable_name, Writer.bind,
    Writer.in_loop, Writer.attr.
  match goal with
  | |- context [Writer.translate_rules ?r ?v] =>
      destruct (Writer.translate_rules r v)
  end.
  - discriminate.
  - intros H. injection H as <- _. exact HE.
Qed.

Lemma raises_only_node_Variable (E : exn -> Prop) v :
  E ReError -> raises_only E (node_Variable v).
Proof.
  intros HE. rewrite node_Variable_eq. unfold variable.
  apply raises_only_bind; [|intros _; apply raises_only_bind; [|intros _]].
  - apply raises_only_always_returns, always_returns_when.
    apply always_returns_bind; [apply always_returns_warn|intros _].
    apply always_returns_write.
  - destruct (Var.literal v).
    + apply raises_only_always_returns, always_returns_literal.
    + unfold Writer.variable. apply raises_only_bind.
      * apply raises_only_translate_variable_name, HE.
      * intros name. apply raises_only_always_returns, always_returns_write.
  - apply raises_only_always_returns, always_returns_when, always_returns_write.
Qed.

Lemma raises_only_filters_from (E : exn -> Prop) filters :
  E AttributeError -> E ReError ->
  forall want_pipe,
    raises_only E (Writer.filters_from node_Variable want_pipe filters).
Proof.
  intros HA HR. induction filters as [|[filter args] rest IH]; intros want_pipe;
    simpl.
  - apply raises_only_always_returns, always_returns_ret.
  - destruct (Writer.get_filter_name filter) as [name|].
    + apply raises_only_bind;
        [apply raises_only_always_returns, always_returns_attr|intros [env|]];
        [|apply raises_only_raise, HA].
      apply raises_only_bind;
        [apply raises_only_always_returns, always_returns_when,
           always_returns_warn|intros _].
      apply raises_only_bind;
        [destruct (negb want_pipe); apply raises_only_always_returns;
         [apply always_returns_ret | apply always_returns_write]|intros _].
      apply raises_only_bind;
        [apply raises_only_always_returns, always_returns_write|intros _].
      apply raises_only_bind; [|intros _; apply IH].
      apply raises_only_when.
      apply raises_only_bind;
        [apply raises_only_always_returns, always_returns_write|intros _].
      apply raises_only_bind;
        [|intros _; apply raises_only_always_returns, always_returns_write].
      apply raises_only_for_enumerate_from. intros idx arg.
      apply raises_only_bind;
        [apply raises_only_always_returns, always_returns_when,
           always_returns_write|intros _].
      destruct arg;
        [apply raises_only_node_Variable, HR
        | apply raises_only_always_returns, always_returns_literal].
    + apply raises_only_bind;
        [apply raises_only_always_returns, always_returns_warn|intros _; apply IH].
Qed.

(** The lazy proxy of a translated constant has no handler: a warning. *)
Lemma node_object_lazy_proxy :
  node_object lazy_proxy
  = Writer.warn "Untranslatable node django.utils.functional.__proxy__ found" None.
Proof. reflexivity. Qed.

Lemma raises_only_node_FilterExpression (E : exn -> Prop) fe :
  E AttributeError -> E ReError -> raises_only E (node_FilterExpression fe).
Proof.
  intros HA HR. rewrite node_FilterExpression_eq. unfold filter_expression.
  apply raises_only_bind.
  - destruct (FilterExpression.var fe).
    + apply raises_only_node_Variable, HR.
    + apply raises_only_always_returns, always_returns_literal.
    + apply raises_only_raise, HA.
    + rewrite node_object_lazy_proxy.
      apply raises_only_always_returns, always_returns_warn.
  - intros _. apply raises_only_filters_from; assumption.
Qed.

(** [touch_var] leaves a first variable. *)
Lemma touch_var_first name locals : fst (touch_var name locals) <> [].
Proof.
  destruct locals as [first_var variables]. simpl.
  destruct (bool_decide_reflect (first_var = [])) as [->|H]; [discriminate|exact H].
Qed.

Lemma touch_var_variables name x locals :
  x ∈ snd (touch_var name locals) -> x = name \/ x ∈ snd locals.
Proof.
  destruct locals as [first_var variables]. simpl. set_solver.
Qed.

Lemma dump_token_list_first (E : exn -> Prop) tokens locals :
  fst locals <> [] ->
  raises_only E (dump_token_list tokens locals)
  /\ returns (fun locals => fst locals <> []) (dump_token_list tokens locals).
Proof.
  intros H. unfold dump_token_list.
  apply (raises_only_for_fold E (fun locals => fst locals <> [])); [| |exact H].
  - intros st [c|c|c] Hst; apply raises_only_always_returns.
    + apply always_returns_bind; [apply always_returns_write|intros _].
      apply always_returns_ret.
    + apply always_returns_bind; [apply always_returns_print_expr|intros _].
      apply always_returns_ret.
    + apply always_returns_ret.
  - intros st [c|c|c] Hst.
    + apply returns_bind. intros _. apply returns_ret, Hst.
    + apply returns_bind. intros _. apply returns_ret, touch_var_first.
    + apply returns_ret, Hst.
Qed.

Lemma dump_token_list_any (E : exn -> Prop) tokens locals :
  raises_only E (dump_token_list tokens locals).
Proof.
  unfold dump_token_list.
  apply (raises_only_for_fold E (fun _ => True)); [| |exact I].
  - intros st [c|c|c] _; apply raises_only_always_returns.
    + apply always_returns_bind; [apply always_returns_write|intros _].
      apply always_returns_ret.
    + apply always_returns_bind; [apply always_returns_print_expr|intros _].
      apply always_returns_ret.
    + apply always_returns_ret.
  - intros st x _ w a w' _. exact I.
Qed.

Lemma raises_only_translate_block n :
  raises_only (fun e => e = AttributeError \/ e = ReError) (translate_block n).
Proof.
  set (E := fun e : exn => e = AttributeError \/ e = ReError).
  assert (HE : E AttributeError) by (left; reflexivity).
  assert (HR : E ReError) by (right; reflexivity).
  destruct n; try (apply raises_only_raise, HE).
  unfold translate_block.
  apply raises_only_bind;
    [apply raises_only_always_returns, always_returns_warn|intros _].
  apply raises_only_bind;
    [apply raises_only_always_returns, always_returns_start_block|intros _].
  apply raises_only_bind;
    [apply raises_only_always_returns, always_returns_write|intros _].
  pose (Inv := fun locals : block_locals =>
                 forall x, x ∈ snd locals -> fst locals <> []).
  match goal with
  | |- raises_only E (Writer.bind (for_fold ?F ?init ?l) _) =>
      destruct (raises_only_for_fold E (fun st : Z * block_locals => Inv (snd st))
                  F l) with (st := init) as [Hfold_E Hfold_Q]
  end.
  { intros [idx locals] [key var] _.
    apply raises_only_bind;
      [apply raises_only_always_returns, always_returns_when, always_returns_write
      |intros _].
    apply raises_only_bind;
      [apply raises_only_always_returns, always_returns_write|intros _].
    apply raises_only_bind;
      [destruct var;
       [apply raises_only_node_FilterExpression; assumption
       | apply raises_only_raise, HE]|intros _].
    apply raises_only_always_returns, always_returns_ret. }
  { intros [idx locals] [key var] _.
    apply returns_bind. intros _. apply returns_bind. intros _.
    apply returns_bind. intros _. apply returns_ret.
    intros x _. apply touch_var_first. }
  { intros x Hx. simpl in Hx. set_solver. }
  apply (raises_only_bind_returns E (fun st : Z * block_locals => Inv (snd st)));
    [exact Hfold_E | exact Hfold_Q |].
  clear Hfold_E Hfold_Q. intros [idx locals] HInv. simpl in HInv. cbv zeta.
  destruct (negb (bool_decide (plural = [])) && truthy_opt countervar
            && bool_decide (counter ≠ None)) eqn:Hplural.
  - apply (raises_only_bind_returns E (fun locals : block_locals => fst locals <> [])).
    + destruct (bool_decide_reflect (str_opt countervar ∉ snd locals)) as [Hin|Hin].
      * apply raises_only_bind;
          [apply raises_only_always_returns, always_returns_when,
             always_returns_write|intros _].
        apply raises_only_bind;
          [apply raises_only_always_returns, always_returns_write|intros _].
        apply raises_only_bind.
        -- destruct counter;
             [apply raises_only_node_FilterExpression; assumption
             | apply raises_only_raise, HE].
        -- intros _. apply raises_only_always_returns, always_returns_ret.
      * apply raises_only_always_returns, always_returns_ret.
    + destruct (bool_decide_reflect (str_opt countervar ∉ snd locals)) as [Hin|Hin].
      * apply returns_bind. intros _. apply returns_bind. intros _.
        apply returns_bind. intros _. apply returns_ret, touch_var_first.
      * apply returns_ret. apply (HInv (str_opt countervar)).
        destruct (decide (str_opt countervar ∈ snd locals)); [assumption|].
        contradiction.
    + intros locals2 H2.
      apply raises_only_bind;
        [apply raises_only_always_returns, always_returns_end_block|intros _].
      destruct (dump_token_list_first E singular locals2 H2) as [HdE HdQ].
      apply (raises_only_bind_returns E (fun locals : block_locals => fst locals <> []));
        [exact HdE | exact HdQ |].
      intros locals3 H3.
      apply raises_only_bind;
        [|intros _; apply raises_only_always_returns, always_returns_tag].
      apply raises_only_bind;
        [apply raises_only_always_returns, always_returns_start_block|intros _].
      apply raises_only_bind;
        [apply raises_only_always_returns, always_returns_write|intros _].
      apply raises_only_bind.
      * destruct (fst locals3) as [|first rest]; [contradiction|].
        apply raises_only_always_returns, always_returns_when, always_returns_write.
      * intros _.
        apply raises_only_bind;
          [apply raises_only_always_returns, always_returns_end_block|intros _].
        apply raises_only_bind; [apply dump_token_list_any|intros _].
        apply raises_only_always_returns, always_returns_ret.
  - apply raises_only_bind;
      [apply raises_only_always_returns, always_returns_ret|intros locals2].
    apply raises_only_bind;
      [apply raises_only_always_returns, always_returns_end_block|intros _].
    apply raises_only_bind; [apply dump_token_list_any|intros locals3].
    apply raises_only_bind;
      [apply raises_only_always_returns, always_returns_ret|intros _].
    apply raises_only_always_returns, always_returns_tag.
Qed.

(** X11. The translation of a translation block raises [AttributeError],
    the exception of a rewrite rule, or nothing. It raises neither
    [IndexError] nor [TypeError] nor [NameError]: the text after
    [pluralize] reads the first variable of the block, and whenever the
    plural is written there is one, the counter at least, so that reading
    it does not raise. *)
Theorem blocktrans_never_raises_IndexError
    (extra_context : list (string * option FilterExpression.t))
    (singular plural : list Token) (countervar : option string)
    (counter : option FilterExpression.t) (source : option Source)
    (w w' : Writer.t) (e : exn) :
  Writer_node
    (BlockTranslateNode extra_context singular plural countervar counter source) w
  = Writer.Raise e w' ->
  e = AttributeError \/ e = ReError.
Proof.
  rewrite (Writer_node_known _ Handler.translate_block) by reflexivity.
  apply (raises_only_translate_block
           (BlockTranslateNode extra_context singular plural countervar counter
              source)).
Qed.

Lemma blocktrans_never_raises_IndexError_witness :
  Writer_node
    (BlockTranslateNode [("n"%string, None)]
       [TOKEN_TEXT "one"] [TOKEN_TEXT "many"] (Some "n"%string)
       (Some (name_expression "n")) None)
    Writer.default
  = Writer.Raise AttributeError
      (Writer.set_stream "{% trans n="
         (Writer.set_error_stream
            ["i18n system used, make sure to install translations"%string]
            Writer.default))
  /\ (AttributeError = AttributeError \/ AttributeError = ReError).
Proof.
  split; [reflexivity|].
  apply (blocktrans_never_raises_IndexError
           [("n"%string, None)]
           [TOKEN_TEXT "one"] [TOKEN_TEXT "many"] (Some "n"%string)
           (Some (name_expression "n")) None Writer.default
           (Writer.set_stream "{% trans n="
              (Writer.set_error_stream
                 ["i18n system used, make sure to install translations"%string]
                 Writer.default))).
  reflexivity.
Defined.

(** A block with a plural and no variable but the counter. *)
Example blocktrans_with_plural :
  Writer.stream
    (Writer.state_of
       (Writer_node
          (BlockTranslateNode [] [TOKEN_TEXT "one item"]
             [TOKEN_VAR "n"; TOKEN_TEXT " items"] (Some "n"%string)
             (Some (name_expression "count")) None)
          Writer.default))
  = "{% trans n=count %}one item{% pluralize %}{{ n|e }} items{% endtrans %}"%string.
Proof. vm_compute. reflexivity. Qed.

(** The counter of a block, with a rule whose substitution raises. *)
Example blocktrans_with_a_raising_rule :
  let reg := {| search := fun _ => true; sub := fun _ _ => None |} in
  exists w',
    Writer_node
      (BlockTranslateNode [] [TOKEN_TEXT "one item"]
         [TOKEN_VAR "n"; TOKEN_TEXT " items"] (Some "n"%string)
         (Some (name_expression "count")) None)
      (writer_with_rules [(reg, "\1"%string, None)])
    = Writer.Raise ReError w'
    /\ Writer.stream w' = "{% trans n="%string.
Proof. intros reg. eexists. split; [vm_compute; reflexivity | reflexivity]. Qed.

(** *** The templates that are converted *)

Lemma endswith_cons (c : ascii) (r suffix : string) :
  Py.endswith (String c r) suffix
  = String.eqb (String c r) suffix || Py.endswith r suffix.
Proof. reflexivity. Qed.

(** Two suffixes of a text: one is a suffix of the other. *)
Lemma endswith_comparable (s a b : string) :
  Py.endswith s a = true -> Py.endswith s b = true ->
  Py.endswith a b = true \/ Py.endswith b a = true.
Proof.
  induction s as [|c r IH]; intros Ha Hb.
  - destruct a; [|discriminate]. destruct b; [|discriminate].
    left. reflexivity.
  - rewrite endswith_cons in Ha, Hb.
    apply orb_true_iff in Ha, Hb.
    destruct Ha as [Ha|Ha], Hb as [Hb|Hb].
    + apply String.eqb_eq in Ha, Hb. subst a b. left.
      rewrite endswith_cons, String.eqb_refl. reflexivity.
    + apply String.eqb_eq in Ha. subst a. left.
      rewrite endswith_cons, Hb. apply orb_true_r.
    + apply String.eqb_eq in Hb. subst b. right.
      rewrite endswith_cons, Ha. apply orb_true_r.
    + apply IH; assumption.
Qed.

Lemma filter_templates_one (extensions : list string) (ifilename filename : string) :
  ForallOrdPairs
    (fun a b => Py.endswith a b = false /\ Py.endswith b a = false) extensions ->
  flat_map
    (fun extension =>
       if Py.endswith ifilename extension then [filename] else []) extensions
  = if existsb (Py.endswith ifilename) extensions then [filename] else [].
Proof.
  induction 1 as [|a l Ha Hl IH]; [reflexivity|]. simpl. rewrite IH.
  destruct (Py.endswith ifilename a) eqn:Ea; [|reflexivity]. simpl.
  assert (Hnone : existsb (Py.endswith ifilename) l = false).
  { clear IH Hl. induction Ha as [|b l [Hab Hba] Ha IH]; [reflexivity|]. simpl.
    rewrite IH, orb_false_r.
    destruct (Py.endswith ifilename b) eqn:Eb; [|reflexivity].
    destruct (endswith_comparable _ _ _ Ea Eb); congruence. }
  rewrite Hnone. reflexivity.
Qed.

(** X12. When none of the extensions is a suffix of another one, as with
    the default [('.html', '.txt')], [filter_templates] yields the files
    whose name in small letters ends with one of the extensions, each once,
    in the order and with the spelling of the list it is given. *)
Theorem filter_templates_yields_each_once (extensions files : list string) :
  ForallOrdPairs
    (fun a b => Py.endswith a b = false /\ Py.endswith b a = false) extensions ->
  filter_templates extensions files
  = List.filter
      (fun filename => existsb (Py.endswith (Py.lower filename)) extensions)
      files.
Proof.
  intros H. unfold filter_templates.
  induction files as [|filename files IH]; [reflexivity|].
  simpl. rewrite IH, (filter_templates_one _ _ _ H).
  destruct (existsb _ extensions); reflexivity.
Qed.

Lemma filter_templates_yields_each_once_witness :
  filter_templates [".html"; ".txt"]%string
    ["Base.HTML"; "notes.md"; "mail.txt"; "html"]%string
  = List.filter
      (fun filename =>
         existsb (Py.endswith (Py.lower filename)) [".html"; ".txt"]%string)
      ["Base.HTML"; "notes.md"; "mail.txt"; "html"]%string.
Proof.
  apply (filter_templates_yields_each_once [".html"; ".txt"]%string
           ["Base.HTML"; "notes.md"; "mail.txt"; "html"]%string).
  repeat constructor.
Defined.

(** With an extension that is a suffix of another one, a file is yielded
    once for each extension its name ends with. *)
Example filter_templates_twice :
  filter_templates [".html"; "html"]%string ["a.html"; "b.txt"]%string
  = ["a.html"; "a.html"]%string.
Proof. reflexivity. Qed.

(** *** Templates that are translated without an exception *)
















Section Handlers_safe.

Variable writer_node : node -> Writer.M unit.












End Handlers_safe.



















(** Without an environment the same kind of node raises, at the filter;
    and the nodes that Django builds for the tags [trans] and [cycle] are
    not well formed: their translation raises. *)
Example nodes_that_raise :
  (exists w',
     Writer_node
       (ForNode ["item"%string] false (name_expression "items")
          [VariableNode (filtered_expression "item" "upper")] [])
       Writer.default
     = Writer.Raise AttributeError w')
  /\ (exists w',
        Writer_node (TranslateNode None None)
          (writer_with [] {| Jinja.filters := ∅; Jinja.globals := ∅ |})
        = Writer.Raise AttributeError w'
        /\ Writer.stream w' = "{{ _("%string)
  /\ (exists w',
        Writer_node
          (ForNode ["x"%string] false (name_expression "xs")
             [CycleNode None [CycleExpression (name_expression "a")] None 1] [])
          (writer_with [] {| Jinja.filters := ∅; Jinja.globals := ∅ |})
        = Writer.Raise TypeError w'
        /\ Writer.stream w' = "{% for x in xs %}{{ loop.cycle("%string).
Proof.
  split; [|split]; eexists; [|split|split];
    first [vm_compute; reflexivity | reflexivity].
Qed.

(** A translated constant, as the template of an [include]: its lazy proxy
    has no handler, so that nothing is written for it, with a warning. *)
Example translated_constant_is_not_written :
  let w :=
    Writer.state_of
      (Writer_node
         (IncludeNode
            {| FilterExpression.token := "_('base.html')";
               FilterExpression.var := FLazy;
               FilterExpression.filters := [] |})
         (writer_with [] {| Jinja.filters := ∅; Jinja.globals := ∅ |})) in
  Writer.stream w = "{% include  %}"%string
  /\ Writer.error_stream w
     = ["Untranslatable node django.utils.functional.__proxy__ found"%string].
Proof. vm_compute. split; reflexivity. Qed.
